(** * mcp-image-extractor: content resolution and normalization pipeline

    A shallow embedding of [src/image-utils.ts], [src/read-visual.ts] and
    [src/pdf-utils.ts], and the properties of the specification that are
    settled on it.

    Conventions of the embedding
    - a JavaScript string is the list of its UTF-16 code units ([jsstring]);
    - a [Buffer] is the list of its bytes;
    - a JavaScript number that the caller supplies as a coordinate, and
      every number computed from one, is an IEEE 754 binary64 value
      ([number]): NaN, an infinity or a finite value, with the arithmetic
      of the language, each result rounded to the nearest binary64 value;
      the pixel sizes sharp reports, page numbers and byte counts are
      integers ([Z]); the scale handed to pdf-to-img is the exact quotient
      ([Q]);
    - an [async] function that may reject is a computation in the exception
      monad [Except]; [try]/[catch] is [catch_];
    - the libraries the code calls (the Node runtime, axios, sharp and
      pdf-to-img) are the fields of a record [World]: every theorem holds for
      every world, unless it names the contract it needs. *)

From Stdlib Require Import ZArith QArith Qround Qpower Qreduction Qcanon.
From Stdlib Require Import List String Ascii Bool Lia Lqa.
From Stdlib Require Import Strings.Byte DecimalString.
From Stdlib Require PrimFloat FloatOps SpecFloat.
Import ListNotations.

Set Implicit Arguments.
Local Open Scope Z_scope.

(* ================================================================== *)
(** * JavaScript values *)

Module Js.

(** A string is a sequence of UTF-16 code units. *)
Definition char16 := N.
Definition jsstring := list char16.

(** A string literal of the source text. *)
Definition lit (s : string) : jsstring :=
  List.map N_of_ascii (list_ascii_of_string s).

Definition str_eqb (a b : jsstring) : bool :=
  if list_eq_dec N.eq_dec a b then true else false.

(** [s === 'name'] *)
Definition is_lit (s : jsstring) (name : string) : bool :=
  str_eqb s (lit name).

(** [s.startsWith(p)] *)
Fixpoint startsWith (s p : jsstring) {struct p} : bool :=
  match p, s with
  | [], _ => true
  | _ :: _, [] => false
  | c :: p', d :: s' => N.eqb c d && startsWith s' p'
  end.

(** [s.endsWith(p)] *)
Definition endsWith (s p : jsstring) : bool :=
  startsWith (rev s) (rev p).

(** [s.includes(p)], as a proposition: [p] occurs in [s]. *)
Definition includes (s p : jsstring) : Prop :=
  exists pre post, s = pre ++ p ++ post.

(** [s.includes(p)], computed. *)
Fixpoint includesb (s p : jsstring) : bool :=
  startsWith s p
  || match s with
     | [] => false
     | _ :: s' => includesb s' p
     end.

(** [s.includes(c)] for a one-character pattern. *)
Definition includes_char (s : jsstring) (c : char16) : bool :=
  existsb (N.eqb c) s.

(** [s.length] *)
Definition length (s : jsstring) : Z := Z.of_nat (List.length s).

(** [String(n)] and [`${n}`] for an integer [n]. *)
Definition String_of_Z (n : Z) : jsstring :=
  lit (NilEmpty.string_of_int (Z.to_int n)).

(** A string is truthy when it is not empty. *)
Definition truthy_str (s : jsstring) : bool :=
  match s with [] => false | _ :: _ => true end.

(** [a || b] on an optional string: [undefined] and [''] are falsy. *)
Definition or_str (a : option jsstring) (b : jsstring) : jsstring :=
  match a with
  | Some s => if truthy_str s then s else b
  | None => b
  end.

(** ** Numbers

    A number is an IEEE 754 binary64 value: NaN, an infinity, or a finite
    value, kept as the rational it denotes. Every operation returns a
    binary64 value, in lowest terms; a statement about every [Fin q] is in
    particular one about every finite binary64 value. The two zeros are
    one value: the comparisons do not tell [+0] from [-0], the arithmetic
    and [Math.round] differ on them only in the sign of a zero result,
    [Math.max(0, x)] is never [-0], and the sides handed to [extract] are
    positive. *)
Inductive number :=
| NaN
| Inf (negative : bool)
| Fin (q : Q).

(** [2 ** e] *)
Definition pow2 (e : Z) : Q := (2 ^ e)%Q.

(** The binary exponent of a positive rational: [pow2 (ilog2 a) <= a <
    pow2 (ilog2 a + 1)]. *)
Definition ilog2 (a : Q) : Z :=
  let k := Z.log2 (Qnum a) - Z.log2 (Zpos (Qden a)) in
  if Qle_bool (pow2 k) a then k else k - 1.

(** The nearest integer, a tie going to the even one. *)
Definition rne (q : Q) : Z :=
  let f := Qfloor q in
  match (q - inject_Z f ?= 1 # 2)%Q with
  | Lt => f
  | Gt => f + 1
  | Eq => if Z.even f then f else f + 1
  end.

(** The exponent of the last place of the binary64 values around [a]: a
    significand of 53 bits, and the subnormal values below [2 ** -1022]. *)
Definition ulp_exp (a : Q) : Z := Z.max (ilog2 a) (-1022) - 52.

(** A positive rational rounded to a multiple of its last place. *)
Definition round_pos (a : Q) : Q :=
  let u := ulp_exp a in
  (inject_Z (rne (a * pow2 (- u))) * pow2 u)%Q.

(** The binary64 value of an exact result: round to nearest, ties to
    even; what rounds to [2 ** 1024] or beyond overflows to an infinity. *)
Definition fl (q : Q) : number :=
  match (q ?= 0)%Q with
  | Eq => Fin 0
  | Gt =>
      let v := round_pos q in
      if Qle_bool (pow2 1024) v then Inf false else Fin (Qred v)
  | Lt =>
      let v := round_pos (- q) in
      if Qle_bool (pow2 1024) v then Inf true else Fin (Qred (- v))
  end.

(** The number an integer converts to, and the number a decimal literal
    of the source text denotes. *)
Definition of_Z (z : Z) : number := Fin (inject_Z z).
Definition literal (q : Q) : number := fl q.

Definition zero : number := of_Z 0.
Definition one : number := of_Z 1.

(** [x + y] *)
Definition num_add (x y : number) : number :=
  match x, y with
  | NaN, _ | _, NaN => NaN
  | Inf s, Inf t => if Bool.eqb s t then Inf s else NaN
  | Inf s, Fin _ => Inf s
  | Fin _, Inf t => Inf t
  | Fin a, Fin b => fl (a + b)
  end.

(** [x - y] *)
Definition num_sub (x y : number) : number :=
  match x, y with
  | NaN, _ | _, NaN => NaN
  | Inf s, Inf t => if Bool.eqb s t then NaN else Inf s
  | Inf s, Fin _ => Inf s
  | Fin _, Inf t => Inf (negb t)
  | Fin a, Fin b => fl (a - b)
  end.

(** The product of an infinity of sign [s] and a finite value. *)
Definition inf_times (s : bool) (b : Q) : number :=
  match (b ?= 0)%Q with
  | Eq => NaN
  | Gt => Inf s
  | Lt => Inf (negb s)
  end.

(** [x * y] *)
Definition num_mul (x y : number) : number :=
  match x, y with
  | NaN, _ | _, NaN => NaN
  | Inf s, Inf t => Inf (xorb s t)
  | Inf s, Fin b => inf_times s b
  | Fin a, Inf t => inf_times t a
  | Fin a, Fin b => fl (a * b)
  end.

(** [x <= y] and [x < y]: false when either side is NaN. [x >= y] is
    [num_le y x] and [x > y] is [num_lt y x]. *)
Definition num_le (x y : number) : bool :=
  match x, y with
  | NaN, _ | _, NaN => false
  | Inf true, _ => true
  | _, Inf false => true
  | Inf false, _ => false
  | _, Inf true => false
  | Fin a, Fin b => Qle_bool a b
  end.

Definition num_lt (x y : number) : bool :=
  match x, y with
  | NaN, _ | _, NaN => false
  | _, Inf true => false
  | Inf false, _ => false
  | Inf true, _ => true
  | _, Inf false => true
  | Fin a, Fin b => negb (Qle_bool b a)
  end.

(** [Math.max(x, y)]: NaN when either argument is. *)
Definition Math_max (x y : number) : number :=
  match x, y with
  | NaN, _ | _, NaN => NaN
  | _, _ => if num_le x y then y else x
  end.

(** [Math.round]: the nearest integer, halves towards +infinity; NaN and
    the infinities are returned as they are. The nearest integer of a
    binary64 value is a binary64 value, so nothing is rounded twice. *)
Definition Math_round (x : number) : number :=
  match x with
  | Fin q => of_Z (Qfloor (q + (1 # 2)))
  | _ => x
  end.

(** The integer a number is, if it is one. *)
Definition whole (x : number) : option Z :=
  match x with
  | Fin q => if Qeq_bool q (inject_Z (Qfloor q)) then Some (Qfloor q) else None
  | _ => None
  end.

(** A number is truthy when it is defined and not zero. *)
Definition truthy_num (n : option Z) : option Z :=
  match n with
  | Some z => if Z.eqb z 0 then None else Some z
  | None => None
  end.

(** [n || 0] *)
Definition or_zero (n : option Z) : Z :=
  match n with Some z => z | None => 0 end.

(** Character classes of the regular expressions of the source. *)
Definition between (lo hi c : N) : bool := (N.leb lo c && N.leb c hi)%bool.
Definition is_upper (c : char16) : bool := between 65 90 c.
Definition is_lower (c : char16) : bool := between 97 122 c.
Definition is_digit (c : char16) : bool := between 48 57 c.
Definition is_alpha (c : char16) : bool := is_upper c || is_lower c.
Definition is_alnum (c : char16) : bool := is_alpha c || is_digit c.

Definition ch_slash : char16 := 47%N.
Definition ch_backslash : char16 := 92%N.
Definition ch_dot : char16 := 46%N.
Definition ch_colon : char16 := 58%N.
Definition ch_semicolon : char16 := 59%N.
Definition ch_space : char16 := 32%N.
Definition ch_equals : char16 := 61%N.
Definition ch_plus : char16 := 43%N.

(** [[\\\/]]: a path separator. *)
Definition is_sep (c : char16) : bool :=
  N.eqb c ch_backslash || N.eqb c ch_slash.

(** [\s]: the white space and line terminators of ECMAScript. *)
Definition is_space (c : char16) : bool :=
  between 9 13 c || N.eqb c 32 || N.eqb c 160 || N.eqb c 5760
  || between 8192 8202 c || N.eqb c 8232 || N.eqb c 8233
  || N.eqb c 8239 || N.eqb c 8287 || N.eqb c 12288 || N.eqb c 65279.

(** [.] of a regular expression without the [s] flag: anything but a line
    terminator. *)
Definition is_line_terminator (c : char16) : bool :=
  N.eqb c 10 || N.eqb c 13 || N.eqb c 8232 || N.eqb c 8233.

(** [s.replace(/\s+/g, '')] *)
Definition strip_whitespace (s : jsstring) : jsstring :=
  filter (fun c => negb (is_space c)) s.

(** The longest prefix of [s] whose characters satisfy [p], and the rest. *)
Fixpoint span (p : char16 -> bool) (s : jsstring) : jsstring * jsstring :=
  match s with
  | [] => ([], [])
  | c :: s' =>
      if p c then let (a, b) := span p s' in (c :: a, b) else ([], s)
  end.

End Js.
Import Js.
Arguments lit s%_string.
Arguments is_lit s name%_string.
Arguments pow2 : simpl never.
Arguments ilog2 : simpl never.
Arguments round_pos : simpl never.
Arguments fl : simpl never.

(* ================================================================== *)
(** * Exceptions *)

(** The outcome of a call that may throw (or of a promise that may reject):
    a value, or the message of the error. *)
Inductive Except (A : Type) : Type :=
| Ret (a : A)
| Throw (message : jsstring).
Arguments Ret {A} a.
Arguments Throw {A} message.

Definition bind {A B} (m : Except A) (k : A -> Except B) : Except B :=
  match m with
  | Ret a => k a
  | Throw e => Throw e
  end.

(** [try { m } catch (e) { h(e) }] *)
Definition catch_ {A} (m : Except A) (h : jsstring -> A) : A :=
  match m with
  | Ret a => a
  | Throw e => h e
  end.

Notation "x <- m ;; k" := (bind m (fun x => k))
  (at level 61, m at next level, right associativity).
Notation "' pat <- m ;; k" :=
  (bind m (fun x => match x with pat => k end))
  (at level 61, pat pattern, m at next level, right associativity).

(* ================================================================== *)
(** * image-utils.ts: the region of interest *)

(** What [sharp(buffer).metadata()] reports; every field may be missing. *)
Record Metadata := mkMetadata {
  width : option Z;
  height : option Z;
  format : option jsstring
}.

(** The argument of [sharp(...).extract]: four numbers. *)
Record Rect := mkRect {
  left : number;
  top : number;
  rwidth : number;
  rheight : number
}.

(** [isRatio] (image-utils.ts, lines 132-138):
    [values.every(v => v >= 0 && v <= 1.0)]. *)
Definition isRatio (values : list number) : bool :=
  forallb (fun v => num_le zero v && num_le v one) values.

(** [applyImageFocus], lines 156-189: the rectangle before clamping.
    [None] is [shouldCrop = false]. [mw] and [mh] are [metadata.width] and
    [metadata.height], whole numbers of pixels; a number holds them
    exactly up to [2 ** 53], far above the sides sharp accepts. *)
Definition rawRect (mw mh : Z) (focus_xyxy focal_point : option (list number))
  : option Rect :=
  let width := of_Z mw in
  let height := of_Z mh in
  match focus_xyxy with
  | Some [x1; y1; x2; y2] =>
      if isRatio [x1; y1; x2; y2] then
        Some (mkRect (Math_round (num_mul x1 width))
                     (Math_round (num_mul y1 height))
                     (Math_round (num_mul (num_sub x2 x1) width))
                     (Math_round (num_mul (num_sub y2 y1) height)))
      else
        Some (mkRect (Math_round x1) (Math_round y1)
                     (Math_round (num_sub x2 x1))
                     (Math_round (num_sub y2 y1)))
  | _ =>
      match focal_point with
      | Some [cx; cy; hw; hh] =>
          if isRatio [cx; cy; hw; hh] then
            let pixelCx := num_mul cx width in
            let pixelCy := num_mul cy height in
            let pixelHw := num_mul hw width in
            let pixelHh := num_mul hh height in
            Some (mkRect (Math_round (num_sub pixelCx pixelHw))
                         (Math_round (num_sub pixelCy pixelHh))
                         (Math_round (num_mul pixelHw (of_Z 2)))
                         (Math_round (num_mul pixelHh (of_Z 2))))
          else
            Some (mkRect (Math_round (num_sub cx hw))
                         (Math_round (num_sub cy hh))
                         (Math_round (num_mul hw (of_Z 2)))
                         (Math_round (num_mul hh (of_Z 2))))
      | _ => None
      end
  end.

(** [applyImageFocus], lines 193-205: the clamped rectangle. *)
Definition clampRect (imgWidth imgHeight : Z) (r : Rect) : Rect :=
  let left := Math_max zero (left r) in
  let top := Math_max zero (top r) in
  let width :=
    if num_lt (of_Z imgWidth) (num_add left (rwidth r))
    then num_sub (of_Z imgWidth) left else rwidth r in
  let height :=
    if num_lt (of_Z imgHeight) (num_add top (rheight r))
    then num_sub (of_Z imgHeight) top else rheight r in
  mkRect left top width height.

(** Whether an optional array is present with exactly four elements. *)
Definition has4 (a : option (list number)) : bool :=
  match a with
  | Some l => Nat.eqb (List.length l) 4
  | None => false
  end.

(** [applyImageFocus] up to the call of sharp: the rectangle handed to
    [extract], or [None] where the function returns [null]. *)
Definition focusRect (metadata : Metadata)
    (focus_xyxy focal_point : option (list number)) : option Rect :=
  if negb (has4 focus_xyxy) && negb (has4 focal_point) then None
  else
    match truthy_num (width metadata), truthy_num (height metadata) with
    | Some mw, Some mh =>
        match rawRect mw mh focus_xyxy focal_point with
        | Some r =>
            let c := clampRect mw mh r in
            if num_lt zero (rwidth c) && num_lt zero (rheight c) then Some c
            else None
        | None => None
        end
    | _, _ => None
    end.

(* ================================================================== *)
(** * The collaborators *)

Definition Buffer := list byte.

(** [buffer.length] *)
Definition blength (b : Buffer) : Z := Z.of_nat (List.length b).

(** The [fit] option of [sharp(...).resize]. *)
Inductive Fit := FitCover | FitContain | FitFill | FitInside | FitOutside.

(** The options object of [sharp(...).resize]. *)
Record ResizeOptions := mkResizeOptions {
  ro_width : Z;
  ro_height : Z;
  ro_fit : Fit;
  ro_withoutEnlargement : bool
}.

(** The encoder [compressImage] selects, with the options it passes. *)
Inductive Encoder :=
| EncJpeg (quality : Z)
| EncPng (quality compressionLevel : Z)
| EncWebp (quality : Z)
| EncAvif (quality : Z)
| EncTiff (quality : Z)
| EncNone.

(** The document object of pdf-to-img. [doc_length] is [None] when
    [typeof doc.length] is not ['number']. *)
Record PdfDoc := mkPdfDoc {
  doc_length : option Z;
  getPage : Z -> Except Buffer
}.

(** The response of [axios.get]: the body and the [content-type] header. *)
Record HttpResponse := mkHttpResponse {
  resp_data : Buffer;
  resp_content_type : option jsstring
}.

(** Everything outside the repository that the pipeline calls. *)
Record World := mkWorld {
  (* Node *)
  fs_existsSync : jsstring -> bool;
  fs_readFileSync : jsstring -> Except Buffer;
  path_extname : jsstring -> jsstring;
  toLowerCase : jsstring -> jsstring;
  toLocaleString : Z -> jsstring;
  Buffer_from_base64 : jsstring -> Buffer;
  Buffer_toString_base64 : Buffer -> jsstring;
  URL_hostname : jsstring -> Except jsstring;
  (* axios *)
  axios_get : jsstring -> Z -> Except HttpResponse;
  (* sharp *)
  sharp_metadata : Buffer -> Except Metadata;
  sharp_extract : Buffer -> Rect -> Except Buffer;
  sharp_resize : Buffer -> ResizeOptions -> Except Buffer;
  sharp_toBuffer : Encoder -> Buffer -> Except Buffer;
  (* pdf-to-img: the input and the scale *)
  pdf : jsstring -> Q -> Except PdfDoc
}.

(** The configuration read from the environment when the module loads
    (image-utils.ts, lines 7-18; read-visual.ts and pdf-utils.ts, [PDF_DPI]). *)
Record Config := mkConfig {
  MAX_IMAGE_SIZE : Z;
  ALLOWED_DOMAINS : list jsstring;
  DEFAULT_MAX_WIDTH : Z;
  DEFAULT_MAX_HEIGHT : Z;
  COMPRESSION_QUALITY : Z;
  PNG_COMPRESSION_LEVEL : Z;
  PDF_DPI : Z
}.

(** The defaults of the source. *)
Definition default_config : Config :=
  mkConfig 52428800 [] 512 512 80 9 150.

(* ================================================================== *)
(** * The response *)

Inductive JsValue :=
| JUndefined
| JNumber (n : Z)
| JString (s : jsstring).

(** An object literal: its own properties in insertion order. *)
Definition JsObject := list (jsstring * JsValue).

(** [o[k]] *)
Fixpoint obj_get (o : JsObject) (k : jsstring) : option JsValue :=
  match o with
  | [] => None
  | (k', v) :: o' => if str_eqb k k' then Some v else obj_get o' k
  end.

(** [o[k] = v]: an existing property keeps its place. *)
Fixpoint obj_set (o : JsObject) (k : jsstring) (v : JsValue) : JsObject :=
  match o with
  | [] => [(k, v)]
  | (k', v') :: o' =>
      if str_eqb k k' then (k', v) :: o' else (k', v') :: obj_set o' k v
  end.

(** [{ ...o, ...extra }] *)
Definition obj_spread (o extra : JsObject) : JsObject :=
  fold_left (fun acc kv => obj_set acc (fst kv) (snd kv)) extra o.

(** The [text] of a text part: a message, or [JSON.stringify] of the
    metadata object (kept as the object: [JSON.parse] gives it back). *)
Inductive Text :=
| Message (s : jsstring)
| JSON_stringify (o : JsObject).

Inductive ContentPart :=
| TextPart (text : Text)
| ImagePart (data : jsstring) (mimeType : jsstring).

(** [McpToolResponse]; [isError] absent is [false]. *)
Record McpToolResponse := mkResponse {
  content : list ContentPart;
  isError : bool
}.

(** [{ content: [{ type: "text", text: msg }], isError: true }] *)
Definition error_response (msg : jsstring) : McpToolResponse :=
  mkResponse [TextPart (Message msg)] true.

(** The handler of every entry point:
    [`Error: ${error instanceof Error ? error.message : String(error)}`]. *)
Definition caught (e : jsstring) : McpToolResponse :=
  error_response (lit "Error: " ++ e).

(* ================================================================== *)
(** * image-utils.ts: the pipeline *)

Section ImageUtils.

Variable W : World.
Variable cfg : Config.

(** [compressImage] (lines 99-129). The lookup [format in
    COMPRESSION_OPTIONS] followed by the [switch] selects an encoder for
    the eight supported names; every other name falls to the jpeg default. *)
Definition compressImage (imageBuffer : Buffer) (formatStr : jsstring)
  : Except Buffer :=
  let format := toLowerCase W formatStr in
  let q := COMPRESSION_QUALITY cfg in
  if is_lit format "jpeg" || is_lit format "jpg" then
    sharp_toBuffer W (EncJpeg q) imageBuffer
  else if is_lit format "png" then
    sharp_toBuffer W (EncPng q (PNG_COMPRESSION_LEVEL cfg)) imageBuffer
  else if is_lit format "webp" then sharp_toBuffer W (EncWebp q) imageBuffer
  else if is_lit format "avif" then sharp_toBuffer W (EncAvif q) imageBuffer
  else if is_lit format "tiff" then sharp_toBuffer W (EncTiff q) imageBuffer
  else if is_lit format "gif" || is_lit format "svg" then
    sharp_toBuffer W EncNone imageBuffer
  else sharp_toBuffer W (EncJpeg q) imageBuffer.

(** [applyImageFocus] (lines 141-216): [Ret None] is [null]. *)
Definition applyImageFocus (imageBuffer : Buffer) (metadata : Metadata)
    (focus_xyxy focal_point : option (list number)) : Except (option Buffer) :=
  match focusRect metadata focus_xyxy focal_point with
  | Some r => b <- sharp_extract W imageBuffer r ;; Ret (Some b)
  | None => Ret None
  end.

(** [getMimeAndFormat] (lines 219-238): the MIME type and the format. *)
Definition getMimeAndFormat (fileExt : jsstring) : jsstring * jsstring :=
  if is_lit fileExt ".png" then (lit "image/png", lit "png")
  else if is_lit fileExt ".jpg" || is_lit fileExt ".jpeg" then (lit "image/jpeg", lit "jpeg")
  else if is_lit fileExt ".gif" then (lit "image/gif", lit "gif")
  else if is_lit fileExt ".webp" then (lit "image/webp", lit "webp")
  else if is_lit fileExt ".svg" then (lit "image/png", lit "png")
  else if is_lit fileExt ".avif" then (lit "image/avif", lit "avif")
  else (lit "image/jpeg", lit "jpeg").

(** [validateDomain] (lines 241-254): the error message, or [None] for
    [null]; [new URL(url)] may throw. *)
Definition validateDomain (url : jsstring) : Except (option jsstring) :=
  match ALLOWED_DOMAINS cfg with
  | [] => Ret None
  | _ :: _ =>
      domain <- URL_hostname W url ;;
      let isAllowed :=
        existsb (fun allowedDomain =>
                   str_eqb domain allowedDomain
                   || endsWith domain (ch_dot :: allowedDomain))
                (ALLOWED_DOMAINS cfg) in
      if negb isAllowed then
        Ret (Some (lit "Error: Domain " ++ domain
                   ++ lit " is not in the allowed domains list"))
      else Ret None
  end.

(** [ProcessImageBufferParams] *)
Record ProcessImageBufferParams := mkPIB {
  pib_imageBuffer : Buffer;
  pib_format : jsstring;
  pib_mimeType : jsstring;
  pib_focus_xyxy : option (list number);
  pib_focal_point : option (list number);
  pib_extraMetadata : option JsObject
}.

(** The image between two steps of [processImageBuffer]: the variables
    [imageBuffer] and [metadata]. *)
Definition Stage := (Buffer * Metadata)%type.

(** [processImageBuffer], lines 269-274: apply focus if requested. *)
Definition focusStage (focus_xyxy focal_point : option (list number))
    (st : Stage) : Except Stage :=
  let (imageBuffer, metadata) := st in
  focusedBuffer <- applyImageFocus imageBuffer metadata
                                   focus_xyxy focal_point ;;
  match focusedBuffer with
  | Some b => m <- sharp_metadata W b ;; Ret (b, m)
  | None => Ret (imageBuffer, metadata)
  end.

(** [processImageBuffer], lines 276-293: the bounded resize. *)
Definition resizeStage (st : Stage) : Except Stage :=
  let (imageBuffer, metadata) := st in
  match truthy_num (width metadata), truthy_num (height metadata) with
  | Some mw, Some mh =>
      let targetWidth := Z.min mw (DEFAULT_MAX_WIDTH cfg) in
      let targetHeight := Z.min mh (DEFAULT_MAX_HEIGHT cfg) in
      if Z.gtb mw targetWidth || Z.gtb mh targetHeight then
        b <- sharp_resize W imageBuffer
               (mkResizeOptions targetWidth targetHeight FitInside true) ;;
        m <- sharp_metadata W b ;;
        Ret (b, m)
      else Ret st
  | _, _ => Ret st
  end.

(** [processImageBuffer], lines 295-300: compression, with the fallback. *)
Definition compressStage (format : jsstring) (imageBuffer : Buffer)
  : Buffer :=
  catch_ (compressImage imageBuffer format) (fun _ => imageBuffer).

Definition of_num (n : option Z) : JsValue :=
  match n with Some z => JNumber z | None => JUndefined end.

Definition of_str (s : option jsstring) : JsValue :=
  match s with Some z => JString z | None => JUndefined end.

(** The advisory note of lines 315-317. *)
Definition large_image_info (originalWidth originalHeight : Z) : jsstring :=
  lit "Large image detected (" ++ String_of_Z originalWidth ++ lit "x"
  ++ String_of_Z originalHeight ++ lit " = "
  ++ toLocaleString W (originalWidth * originalHeight)
  ++ lit " pixels). Consider using focus_xyxy or focal_point to zoom into specific regions for better detail recognition and reduced token usage.".

(** [processImageBuffer], lines 302-324: base64, metadata and response. *)
Definition assemble (originalWidth originalHeight : Z) (hasFocus : bool)
    (extraMetadata : option JsObject) (mimeType : jsstring)
    (imageBuffer : Buffer) (metadata : Metadata) : McpToolResponse :=
  let base64 := Buffer_toString_base64 W imageBuffer in
  let resultMetadata :=
    obj_spread
      [ (lit "width", of_num (width metadata));
        (lit "height", of_num (height metadata));
        (lit "format", of_str (format metadata));
        (lit "size", JNumber (blength imageBuffer)) ]
      (match extraMetadata with Some e => e | None => [] end) in
  let originalPixels := originalWidth * originalHeight in
  let resultMetadata :=
    if Z.gtb originalPixels 300000 && negb hasFocus then
      obj_set resultMetadata (lit "info")
              (JString (large_image_info originalWidth originalHeight))
    else resultMetadata in
  mkResponse
    [ TextPart (JSON_stringify resultMetadata);
      ImagePart base64 mimeType ]
    false.

Definition is_some {A} (o : option A) : bool :=
  match o with Some _ => true | None => false end.

(** [processImageBuffer], lines 295-324: what happens to an image that
    has reached the compression step. Nothing here can throw. *)
Definition compressAndAssemble (params : ProcessImageBufferParams)
    (originalWidth originalHeight : Z) (st : Stage) : McpToolResponse :=
  let (imageBuffer, metadata) := st in
  let hasFocus :=
    is_some (pib_focus_xyxy params) || is_some (pib_focal_point params) in
  assemble originalWidth originalHeight hasFocus
           (pib_extraMetadata params) (pib_mimeType params)
           (compressStage (pib_format params) imageBuffer) metadata.

(** [processImageBuffer] (lines 257-325). *)
Definition processImageBuffer (params : ProcessImageBufferParams)
  : Except McpToolResponse :=
  let imageBuffer := pib_imageBuffer params in
  metadata <- sharp_metadata W imageBuffer ;;
  let originalWidth := or_zero (width metadata) in
  let originalHeight := or_zero (height metadata) in
  st1 <- focusStage (pib_focus_xyxy params) (pib_focal_point params)
                    (imageBuffer, metadata) ;;
  st2 <- resizeStage st1 ;;
  Ret (compressAndAssemble params originalWidth originalHeight st2).

(** The tail of every entry point: [return await processImageBuffer(...)]
    inside [try { ... } catch (error) { ... }]. *)
Definition run (m : Except McpToolResponse) : McpToolResponse :=
  catch_ m caught.

Definition size_error (what : jsstring) : McpToolResponse :=
  error_response
    (lit "Error: " ++ what
     ++ lit " size exceeds maximum allowed size of "
     ++ String_of_Z (MAX_IMAGE_SIZE cfg) ++ lit " bytes").

(** [ExtractImageFromFileParams] *)
Record ExtractImageFromFileParams := mkImgFile {
  if_file_path : jsstring;
  if_resize : bool;
  if_max_width : Q;
  if_max_height : Q;
  if_focus_xyxy : option (list number);
  if_focal_point : option (list number)
}.

(** [extractImageFromFile] (lines 328-365). *)
Definition extractImageFromFile (params : ExtractImageFromFileParams)
  : McpToolResponse :=
  run (
    let file_path := if_file_path params in
    if negb (fs_existsSync W file_path) then
      Ret (error_response
             (lit "Error: File " ++ file_path ++ lit " does not exist"))
    else
      imageBuffer <- fs_readFileSync W file_path ;;
      if Z.gtb (blength imageBuffer) (MAX_IMAGE_SIZE cfg) then
        Ret (size_error (lit "Image"))
      else
        let fileExt := toLowerCase W (path_extname W file_path) in
        let (mimeType, format) := getMimeAndFormat fileExt in
        processImageBuffer
          (mkPIB imageBuffer format mimeType
                 (if_focus_xyxy params) (if_focal_point params) None)).

(** [ExtractImageFromUrlParams] *)
Record ExtractImageFromUrlParams := mkImgUrl {
  iu_url : jsstring;
  iu_resize : bool;
  iu_max_width : Q;
  iu_max_height : Q;
  iu_focus_xyxy : option (list number);
  iu_focal_point : option (list number)
}.

(** [extractImageFromUrl] (lines 368-410). *)
Definition extractImageFromUrl (params : ExtractImageFromUrlParams)
  : McpToolResponse :=
  run (
    let url := iu_url params in
    if negb (startsWith url (lit "http://"))
       && negb (startsWith url (lit "https://")) then
      Ret (error_response
             (lit "Error: URL must start with http:// or https://"))
    else
      domainError <- validateDomain url ;;
      match domainError with
      | Some msg => Ret (error_response msg)
      | None =>
          response <- axios_get W url (MAX_IMAGE_SIZE cfg) ;;
          let imageBuffer := resp_data response in
          let mimeType :=
            or_str (resp_content_type response) (lit "image/jpeg") in
          md <- sharp_metadata W imageBuffer ;;
          let format := or_str (format md) (lit "jpeg") in
          processImageBuffer
            (mkPIB imageBuffer format mimeType
                   (iu_focus_xyxy params) (iu_focal_point params) None)
      end).

(** [s.split('/')[1]] *)
Definition split_slash_1 (s : jsstring) : option jsstring :=
  let (_, rest) := span (fun c => negb (N.eqb c ch_slash)) s in
  match rest with
  | [] => None
  | _ :: after => Some (fst (span (fun c => negb (N.eqb c ch_slash)) after))
  end.

(** [ExtractImageFromBase64Params] *)
Record ExtractImageFromBase64Params := mkImgB64 {
  ib_base64 : jsstring;
  ib_mime_type : jsstring;
  ib_resize : bool;
  ib_max_width : Q;
  ib_max_height : Q;
  ib_focus_xyxy : option (list number);
  ib_focal_point : option (list number)
}.

(** [extractImageFromBase64] (lines 413-464). [Buffer.from(s, 'base64')]
    does not throw, so the inner [catch] is reached only from the
    empty-buffer [throw]. *)
Definition extractImageFromBase64 (params : ExtractImageFromBase64Params)
  : McpToolResponse :=
  run (
    let base64 := ib_base64 params in
    let mime_type := ib_mime_type params in
    let decoded :=
      let imageBuffer := Buffer_from_base64 W base64 in
      if Z.eqb (blength imageBuffer) 0 then
        Throw (lit "Invalid base64 string - decoded to empty buffer")
      else Ret imageBuffer in
    match decoded with
    | Throw e =>
        Ret (error_response (lit "Error: Invalid base64 string - " ++ e))
    | Ret imageBuffer =>
        if Z.gtb (blength imageBuffer) (MAX_IMAGE_SIZE cfg) then
          Ret (size_error (lit "Image"))
        else
          match sharp_metadata W imageBuffer with
          | Throw e =>
              Ret (error_response
                     (lit "Error: Could not process image data - " ++ e))
          | Ret metadata =>
              let format :=
                or_str (format metadata)
                       (or_str (split_slash_1 mime_type) (lit "jpeg")) in
              processImageBuffer
                (mkPIB imageBuffer format mime_type
                       (ib_focus_xyxy params) (ib_focal_point params) None)
          end
    end).

End ImageUtils.

(* ================================================================== *)
(** * read-visual.ts *)

Module ReadVisual.

Inductive SourceType := url | file | base64.

(** [/^[A-Za-z]:[\\\/]/.test(str)] *)
Definition drive_prefix (str : jsstring) : bool :=
  match str with
  | c1 :: c2 :: c3 :: _ => is_alpha c1 && N.eqb c2 ch_colon && is_sep c3
  | _ => false
  end.

(** [/^\.{0,2}[\\\/]/.test(str)]: at most two dots, then a separator. *)
Definition dots_then_sep (str : jsstring) : bool :=
  match str with
  | c1 :: rest1 =>
      is_sep c1
      || (N.eqb c1 ch_dot
          && match rest1 with
             | c2 :: rest2 =>
                 is_sep c2
                 || (N.eqb c2 ch_dot
                     && match rest2 with
                        | c3 :: _ => is_sep c3
                        | [] => false
                        end)
             | [] => false
             end)
  | [] => false
  end.

(** [/\.[a-zA-Z0-9]+$/.test(str)]: the string ends in a dot followed by
    one or more letters or digits. The run of letters and digits at the
    end of the string is read off its reversal. *)
Definition has_extension (str : jsstring) : bool :=
  let (ext, before) := span is_alnum (rev str) in
  match ext, before with
  | _ :: _, c :: _ => N.eqb c ch_dot
  | _, _ => false
  end.

(** [isFilePath] (lines 349-366). *)
Definition isFilePath (str : jsstring) : bool :=
  if drive_prefix str then true
  else if startsWith str (lit "\\") then true
  else if startsWith str (lit "/") then true
  else if dots_then_sep str then true
  else if has_extension str && negb (includes_char str ch_space)
          && Z.ltb (Js.length str) 500 then true
  else false.

(** [[A-Za-z0-9+/]] *)
Definition is_b64 (c : char16) : bool :=
  is_alnum c || N.eqb c ch_plus || N.eqb c ch_slash.

(** [/^[A-Za-z0-9+/]+={0,2}$/.test(b64)] *)
Definition b64_regex (b64 : jsstring) : bool :=
  let (body, pad) := span is_b64 b64 in
  match body with
  | [] => false
  | _ :: _ =>
      str_eqb pad [] || str_eqb pad [ch_equals]
      || str_eqb pad [ch_equals; ch_equals]
  end.

(** [isValidBase64] of read-visual.ts (lines 371-380). *)
Definition isValidBase64 (str : jsstring) : bool :=
  if Z.ltb (Js.length str) 100 then false
  else
    let b64 := strip_whitespace str in
    if negb (Z.eqb (Js.length b64 mod 4) 0) then false
    else b64_regex b64.

(** [isPdf] (lines 385-388): the magic bytes [%PDF-]. *)
Definition isPdf (buffer : Buffer) : bool :=
  Z.geb (blength buffer) 5
  && if list_eq_dec Byte.byte_eq_dec (firstn 5 buffer)
                    [x25; x50; x44; x46; x2d]
     then true else false.

(** [isPdfByMimeType] (lines 394-396). *)
Definition isPdfByMimeType (mimeType : jsstring) : bool :=
  is_lit mimeType "application/pdf" || includesb mimeType (lit "pdf").

(** [parseDataUrl] (lines 401-405):
    [dataUrl.match(/^data:([^;]+);base64,(.+)$/)]. *)
Definition parseDataUrl (dataUrl : jsstring)
  : option (jsstring * jsstring) :=
  if startsWith dataUrl (lit "data:") then
    let (mimeType, rest) :=
      span (fun c => negb (N.eqb c ch_semicolon)) (skipn 5 dataUrl) in
    match mimeType with
    | [] => None
    | _ :: _ =>
        if startsWith rest (lit ";base64,") then
          let payload := skipn 8 rest in
          if truthy_str payload
             && forallb (fun c => negb (is_line_terminator c)) payload
          then Some (mimeType, payload)
          else None
        else None
    end
  else None.

(** [ReadVisualParams] *)
Record ReadVisualParams := mkParams {
  source : jsstring;
  page : option Z;
  dpi : option Z;
  focus_xyxy : option (list number);
  focal_point : option (list number);
  mime_type : option jsstring
}.

(** The message of the out-of-range error. *)
Definition out_of_range (pageNum pageCount : Z) : jsstring :=
  lit "Page " ++ String_of_Z pageNum
  ++ lit " is out of range. Document has " ++ String_of_Z pageCount
  ++ lit " page(s).".

Section WithWorld.

Variable W : World.
Variable cfg : Config.

(** [detectSourceType] (lines 315-344). Both branches on
    [fs.existsSync] return ['file']. *)
Definition detectSourceType (source : jsstring) : SourceType :=
  if startsWith source (lit "http://")
     || startsWith source (lit "https://") then url
  else if startsWith source (lit "data:") then base64
  else if isFilePath source then
    if fs_existsSync W source then file else file
  else if isValidBase64 source then base64
  else file.

(** [isPdfByExtension] (lines 390-392). *)
Definition isPdfByExtension (filePath : jsstring) : bool :=
  is_lit (toLowerCase W (path_extname W filePath)) ".pdf".

(** [renderPdfPage] (lines 420-440): the page and the page count. *)
Definition renderPdfPage (input : jsstring) (pageNum dpi : Z)
  : Except (Buffer * Z) :=
  let scale := (inject_Z dpi / 72)%Q in
  doc <- pdf W input scale ;;
  let pageCount := or_zero (doc_length doc) in
  if Z.eqb pageCount 0 then
    Throw (lit "Failed to determine PDF page count")
  else if Z.ltb pageNum 1 || Z.gtb pageNum pageCount then
    Throw (out_of_range pageNum pageCount)
  else
    pageData <- getPage doc pageNum ;;
    Ret (pageData, pageCount).

Definition pdf_extraMetadata (page pageCount dpi : Z) : JsObject :=
  [ (lit "source", JString (lit "pdf"));
    (lit "page", JNumber page);
    (lit "totalPages", JNumber pageCount);
    (lit "dpi", JNumber dpi) ].

(** [processPdf] (lines 445-467). *)
Definition processPdf (input : jsstring) (params : ReadVisualParams)
  : Except McpToolResponse :=
  let page := match page params with Some p => p | None => 1 end in
  let dpi :=
    match dpi params with Some d => d | None => PDF_DPI cfg end in
  ' (pngBuffer, pageCount) <- renderPdfPage input page dpi ;;
  processImageBuffer W cfg
    (mkPIB pngBuffer (lit "png") (lit "image/png")
           (focus_xyxy params) (focal_point params)
           (Some (pdf_extraMetadata page pageCount dpi))).

(** [processImage] (lines 472-485). *)
Definition processImage (imageBuffer : Buffer)
    (format mimeType : jsstring) (params : ReadVisualParams)
  : Except McpToolResponse :=
  processImageBuffer W cfg
    (mkPIB imageBuffer format mimeType
           (focus_xyxy params) (focal_point params) None).

(** [handleFile] (lines 524-554). *)
Definition handleFile (params : ReadVisualParams)
  : Except McpToolResponse :=
  let source := source params in
  if negb (fs_existsSync W source) then
    Ret (error_response
           (lit "Error: File " ++ source ++ lit " does not exist"))
  else
    fileBuffer <- fs_readFileSync W source ;;
    if Z.gtb (blength fileBuffer) (MAX_IMAGE_SIZE cfg) then
      Ret (size_error cfg (lit "File"))
    else if isPdfByExtension source || isPdf fileBuffer then
      processPdf source params
    else
      let fileExt := toLowerCase W (path_extname W source) in
      let (mimeType, format) := getMimeAndFormat fileExt in
      processImage fileBuffer format mimeType params.

(** [`data:application/pdf;base64,${b64}`] *)
Definition pdf_data_url (b64 : jsstring) : jsstring :=
  lit "data:application/pdf;base64," ++ b64.

(** [handleUrl] (lines 559-598). *)
Definition handleUrl (params : ReadVisualParams)
  : Except McpToolResponse :=
  let source := source params in
  domainError <- validateDomain W cfg source ;;
  match domainError with
  | Some msg => Ret (error_response msg)
  | None =>
      response <- axios_get W source (MAX_IMAGE_SIZE cfg) ;;
      let contentBuffer := resp_data response in
      let contentType := or_str (resp_content_type response) [] in
      if Z.gtb (blength contentBuffer) (MAX_IMAGE_SIZE cfg) then
        Ret (size_error cfg (lit "Content"))
      else
        let urlLower := toLowerCase W source in
        if isPdfByMimeType contentType
           || endsWith urlLower (lit ".pdf")
           || isPdf contentBuffer then
          processPdf
            (pdf_data_url (Buffer_toString_base64 W contentBuffer))
            params
        else
          md <- sharp_metadata W contentBuffer ;;
          let format := or_str (format md) (lit "jpeg") in
          let mimeType := or_str (Some contentType) (lit "image/jpeg") in
          processImage contentBuffer format mimeType params
  end.

(** The first lines of [handleBase64] (604-622): the base64 text and
    the MIME type, or [None] for a data URL that does not parse. *)
Definition base64_of_source (params : ReadVisualParams)
  : option (jsstring * jsstring) :=
  let source := source params in
  let mimeType := or_str (mime_type params) (lit "image/png") in
  if startsWith source (lit "data:") then
    match parseDataUrl source with
    | None => None
    | Some (parsedMime, parsedBase64) => Some (parsedBase64, parsedMime)
    end
  else Some (strip_whitespace source, mimeType).

(** [handleBase64] (lines 603-665). *)
Definition handleBase64 (params : ReadVisualParams)
  : Except McpToolResponse :=
  match base64_of_source params with
  | None => Ret (error_response (lit "Error: Invalid data URL format"))
  | Some (base64Data, mimeType) =>
      if negb (isValidBase64 base64Data) then
        Ret (error_response (lit "Error: Invalid base64 string"))
      else
        let contentBuffer := Buffer_from_base64 W base64Data in
        if Z.eqb (blength contentBuffer) 0 then
          Ret (error_response
                 (lit "Error: Invalid base64 string - decoded to empty buffer"))
        else if Z.gtb (blength contentBuffer) (MAX_IMAGE_SIZE cfg) then
          Ret (size_error cfg (lit "Content"))
        else if isPdfByMimeType mimeType || isPdf contentBuffer then
          processPdf (pdf_data_url base64Data) params
        else
          let fallback :=
            or_str (split_slash_1 mimeType) (lit "jpeg") in
          let format :=
            match sharp_metadata W contentBuffer with
            | Ret metadata => or_str (format metadata) fallback
            | Throw _ => fallback
            end in
          processImage contentBuffer format mimeType params
  end.

(** [readVisual] (lines 491-519). *)
Definition readVisual (params : ReadVisualParams) : McpToolResponse :=
  run (match detectSourceType (source params) with
       | file => handleFile params
       | url => handleUrl params
       | base64 => handleBase64 params
       end).

End WithWorld.

End ReadVisual.

(* ================================================================== *)
(** * pdf-utils.ts *)

Module PdfUtils.

(** [cleanBase64] (lines 45-47). *)
Definition cleanBase64 (base64 : jsstring) : jsstring :=
  strip_whitespace base64.

(** [isValidBase64] of pdf-utils.ts (lines 49-54). *)
Definition isValidBase64 (base64 : jsstring) : bool :=
  let b64 := cleanBase64 base64 in
  if Z.eqb (Js.length b64) 0 then false
  else if negb (Z.eqb (Js.length b64 mod 4) 0) then false
  else ReadVisual.b64_regex b64.

(** [ExtractPdfFromFileParams] *)
Record ExtractPdfFromFileParams := mkPdfFile {
  pf_file_path : jsstring;
  pf_page : Z;
  pf_resize : bool;
  pf_max_width : Q;
  pf_max_height : Q;
  pf_focus_xyxy : option (list number);
  pf_focal_point : option (list number)
}.

(** [ExtractPdfFromUrlParams] *)
Record ExtractPdfFromUrlParams := mkPdfUrl {
  pu_url : jsstring;
  pu_page : Z;
  pu_resize : bool;
  pu_max_width : Q;
  pu_max_height : Q;
  pu_focus_xyxy : option (list number);
  pu_focal_point : option (list number)
}.

(** [ExtractPdfFromBase64Params] *)
Record ExtractPdfFromBase64Params := mkPdfB64 {
  pb_base64 : jsstring;
  pb_page : Z;
  pb_resize : bool;
  pb_max_width : Q;
  pb_max_height : Q;
  pb_focus_xyxy : option (list number);
  pb_focal_point : option (list number)
}.

Section WithWorld.

Variable W : World.
Variable cfg : Config.

(** [PDF_SCALE] (line 37). *)
Definition PDF_SCALE : Q :=
  if Z.gtb (PDF_DPI cfg) 0 then (inject_Z (PDF_DPI cfg) / 72)%Q
  else (150 / 72)%Q.

(** [renderPdfPageFromInput] (lines 56-74). *)
Definition renderPdfPageFromInput (input : jsstring) (pageNum : Z)
  : Except (Buffer * Z) :=
  doc <- pdf W input PDF_SCALE ;;
  let pageCount := or_zero (doc_length doc) in
  if Z.eqb pageCount 0 then
    Throw (lit "Failed to determine PDF page count")
  else if Z.ltb pageNum 1 || Z.gtb pageNum pageCount then
    Throw (ReadVisual.out_of_range pageNum pageCount)
  else
    pageData <- getPage doc pageNum ;;
    Ret (pageData, pageCount).

(** The common tail of the three entry points: render the page and run
    the image pipeline on it. *)
Definition render_and_process (input : jsstring) (page : Z)
    (focus_xyxy focal_point : option (list number))
  : Except McpToolResponse :=
  ' (pngBuffer, pageCount) <- renderPdfPageFromInput input page ;;
  processImageBuffer W cfg
    (mkPIB pngBuffer (lit "png") (lit "image/png")
           focus_xyxy focal_point
           (Some (ReadVisual.pdf_extraMetadata page pageCount
                                               (PDF_DPI cfg)))).

(** [extractPdfFromFile] (lines 108-152). *)
Definition extractPdfFromFile (params : ExtractPdfFromFileParams)
  : McpToolResponse :=
  run (
    let file_path := pf_file_path params in
    if negb (fs_existsSync W file_path) then
      Ret (error_response
             (lit "Error: File " ++ file_path ++ lit " does not exist"))
    else
      pdfBuffer <- fs_readFileSync W file_path ;;
      if Z.gtb (blength pdfBuffer) (MAX_IMAGE_SIZE cfg) then
        Ret (size_error cfg (lit "PDF"))
      else
        render_and_process file_path (pf_page params)
                           (pf_focus_xyxy params) (pf_focal_point params)).

(** [extractPdfFromUrl] (lines 155-210). *)
Definition extractPdfFromUrl (params : ExtractPdfFromUrlParams)
  : McpToolResponse :=
  run (
    let url := pu_url params in
    if negb (startsWith url (lit "http://"))
       && negb (startsWith url (lit "https://")) then
      Ret (error_response
             (lit "Error: URL must start with http:// or https://"))
    else
      domainError <- validateDomain W cfg url ;;
      match domainError with
      | Some msg => Ret (error_response msg)
      | None =>
          response <- axios_get W url (MAX_IMAGE_SIZE cfg) ;;
          let pdfBuffer := resp_data response in
          if Z.gtb (blength pdfBuffer) (MAX_IMAGE_SIZE cfg) then
            Ret (size_error cfg (lit "PDF"))
          else
            let dataUrl :=
              ReadVisual.pdf_data_url
                (Buffer_toString_base64 W pdfBuffer) in
            render_and_process dataUrl (pu_page params)
                               (pu_focus_xyxy params)
                               (pu_focal_point params)
      end).

(** [extractPdfFromBase64] (lines 213-263). *)
Definition extractPdfFromBase64 (params : ExtractPdfFromBase64Params)
  : McpToolResponse :=
  run (
    let base64 := pb_base64 params in
    if negb (isValidBase64 base64) then
      Ret (error_response (lit "Error: Invalid base64 string"))
    else
      let base64Clean := cleanBase64 base64 in
      let pdfBuffer := Buffer_from_base64 W base64Clean in
      if Z.eqb (blength pdfBuffer) 0 then
        Ret (error_response
               (lit "Error: Invalid base64 string - decoded to empty buffer"))
      else if Z.gtb (blength pdfBuffer) (MAX_IMAGE_SIZE cfg) then
        Ret (size_error cfg (lit "PDF"))
      else
        render_and_process (ReadVisual.pdf_data_url base64Clean)
                           (pb_page params)
                           (pb_focus_xyxy params) (pb_focal_point params)).

End WithWorld.

End PdfUtils.

(* ================================================================== *)
(** * A small concrete world

    The examples below run the pipeline in this world. Its rasters have one
    row and one byte per pixel, so [sharp] reduces to list operations; its
    base64 codec is the lenient one of Node ([Buffer.from] skips the
    characters outside the alphabet, stops at the first [=] and accepts
    text without padding). *)

Module Bench.

Definition sextet (c : char16) : option N :=
  if is_upper c then Some (c - 65)%N
  else if is_lower c then Some (c - 97 + 26)%N
  else if is_digit c then Some (c - 48 + 52)%N
  else if N.eqb c 43 || N.eqb c 45 then Some 62%N
  else if N.eqb c 47 || N.eqb c 95 then Some 63%N
  else None.

Fixpoint sextets (s : jsstring) : list N :=
  match s with
  | [] => []
  | c :: s' =>
      if N.eqb c ch_equals then []
      else match sextet c with
           | Some n => n :: sextets s'
           | None => sextets s'
           end
  end.

Definition byte_of (n : N) : byte :=
  match Byte.of_N (n mod 256) with Some b => b | None => x00 end.

Fixpoint bytes_of_sextets (l : list N) : Buffer :=
  match l with
  | a :: b :: c :: d :: rest =>
      byte_of (a * 4 + b / 16) :: byte_of (b * 16 + c / 4)
      :: byte_of (c * 64 + d) :: bytes_of_sextets rest
  | [a; b; c] => [byte_of (a * 4 + b / 16); byte_of (b * 16 + c / 4)]
  | [a; b] => [byte_of (a * 4 + b / 16)]
  | _ => []
  end.

Definition from_base64 (s : jsstring) : Buffer :=
  bytes_of_sextets (sextets s).

Definition b64_char (n : N) : char16 :=
  if N.ltb n 26 then (65 + n)%N
  else if N.ltb n 52 then (97 + (n - 26))%N
  else if N.ltb n 62 then (48 + (n - 52))%N
  else if N.eqb n 62 then 43%N else 47%N.

Fixpoint to_base64 (b : Buffer) : jsstring :=
  match b with
  | x :: y :: z :: rest =>
      let x := Byte.to_N x in
      let y := Byte.to_N y in
      let z := Byte.to_N z in
      b64_char (x / 4) :: b64_char ((x mod 4) * 16 + y / 16)
      :: b64_char ((y mod 16) * 4 + z / 64) :: b64_char (z mod 64)
      :: to_base64 rest
  | [x; y] =>
      let x := Byte.to_N x in
      let y := Byte.to_N y in
      [b64_char (x / 4); b64_char ((x mod 4) * 16 + y / 16);
       b64_char ((y mod 16) * 4); ch_equals]
  | [x] =>
      let x := Byte.to_N x in
      [b64_char (x / 4); b64_char ((x mod 4) * 16); ch_equals; ch_equals]
  | [] => []
  end.

Definition lower (s : jsstring) : jsstring :=
  List.map (fun c => if is_upper c then (c + 32)%N else c) s.

(** The extension of the last segment of a POSIX path. *)
Definition extname (s : jsstring) : jsstring :=
  let base := fst (span (fun c => negb (N.eqb c ch_slash)) (rev s)) in
  let (ext, rest) := span (fun c => negb (N.eqb c ch_dot)) base in
  match rest with
  | _ :: _ :: _ => ch_dot :: rev ext
  | _ => []
  end.

Definition hostname (u : jsstring) : Except jsstring :=
  let host rest := fst (span (fun c => negb (N.eqb c ch_slash)) rest) in
  if startsWith u (lit "https://") then Ret (host (skipn 8 u))
  else if startsWith u (lit "http://") then Ret (host (skipn 7 u))
  else Throw (lit "Invalid URL").

(** A one-row raster of [n] pixels. *)
Definition raster (n : nat) : Buffer := repeat x80 n.

Definition pdf_magic : Buffer := [x25; x50; x44; x46; x2d; x31; x2e; x37].

Definition files : list (jsstring * Buffer) :=
  [ (lit "/photo.png", raster 800);
    (lit "/doc.pdf", pdf_magic);
    (lit "/damaged.pdf", pdf_magic) ].

Fixpoint lookup {A} (l : list (jsstring * A)) (k : jsstring) : option A :=
  match l with
  | [] => None
  | (k', v) :: l' => if str_eqb k k' then Some v else lookup l' k
  end.

Definition metadata (b : Buffer) : Except Metadata :=
  match b with
  | [] => Throw (lit "Input Buffer is empty")
  | _ :: _ => Ret (mkMetadata (Some (blength b)) (Some 1) (Some (lit "raw")))
  end.

(** [extract] wants four integers, and an area inside the raster. *)
Definition extract (b : Buffer) (r : Rect) : Except Buffer :=
  match whole (left r), whole (top r), whole (rwidth r), whole (rheight r)
  with
  | Some l, Some t, Some w, Some h =>
      if Z.leb 0 l && Z.eqb t 0 && Z.ltb 0 w && Z.eqb h 1
         && Z.leb (l + w) (blength b)
      then Ret (firstn (Z.to_nat w) (skipn (Z.to_nat l) b))
      else Throw (lit "extract_area: bad extract area")
  | _, _, _, _ =>
      Throw (lit "Expected integer for left, top, width and height")
  end.

Definition resize (b : Buffer) (o : ResizeOptions) : Except Buffer :=
  if Z.leb (ro_width o) 0 || Z.leb (ro_height o) 0 then
    Throw (lit "Expected positive integer for width or height")
  else
    match ro_fit o, ro_withoutEnlargement o with
    | FitInside, true => Ret (firstn (Z.to_nat (ro_width o)) b)
    | _, _ => Throw (lit "resize: unsupported options")
    end.

(** The encoders keep the bytes; the build has no AVIF encoder. *)
Definition toBuffer (e : Encoder) (b : Buffer) : Except Buffer :=
  match e with
  | EncAvif _ => Throw (lit "avif: unsupported codec")
  | _ => Ret b
  end.

(** Documents: [/doc.pdf] has three pages of 600 pixels; the pages of
    [/damaged.pdf] are counted but cannot be rendered. *)
Definition open_pdf (input : jsstring) (scale : Q) : Except PdfDoc :=
  if is_lit input "/doc.pdf" then
    Ret (mkPdfDoc (Some 3) (fun _ => Ret (raster 600)))
  else if is_lit input "/damaged.pdf" then
    Ret (mkPdfDoc (Some 3)
                  (fun _ => Throw (lit "Page rendering failed")))
  else Throw (lit "Invalid PDF structure").

Definition world : World :=
  {| fs_existsSync := fun p => is_some (lookup files p);
     fs_readFileSync := fun p =>
       match lookup files p with
       | Some b => Ret b
       | None => Throw (lit "ENOENT: no such file or directory")
       end;
     path_extname := extname;
     toLowerCase := lower;
     toLocaleString := String_of_Z;
     Buffer_from_base64 := from_base64;
     Buffer_toString_base64 := to_base64;
     URL_hostname := hostname;
     axios_get := fun _ _ => Throw (lit "Network Error");
     sharp_metadata := metadata;
     sharp_extract := extract;
     sharp_resize := resize;
     sharp_toBuffer := toBuffer;
     pdf := open_pdf |}.

End Bench.

(* ================================================================== *)
(** * The specification's side

    Definitions that follow the words of the specification; the theorems
    below compare them with the code. *)

(** A value that "lies in [0,1]". NaN does not. *)
Definition in_unit (v : number) : Prop :=
  num_le zero v = true /\ num_le v one = true.

(** A value that "exceeds 1". *)
Definition exceeds_one (v : number) : Prop := num_lt one v = true.

(** The two interpretations of a region (section 3, RegionSpec). *)
Inductive Mode := RatioMode | PixelMode.

(** Section 4.4, step A: "resolve ... to absolute pixel coordinates
    (multiply by source width/height if ratio-mode, else use as-is)".
    [side] is the source width for a horizontal number and the source
    height for a vertical one. *)
Definition resolve (m : Mode) (side : Z) (v : number) : number :=
  match m with
  | RatioMode => num_mul v (of_Z side)
  | PixelMode => v
  end.

(** "for XyxyRect, left/top/width/height = x1, y1, (x2-x1), (y2-y1)", on
    whole pixels, of the four numbers resolved in the one mode of the
    region. *)
Definition xyxy_rect (m : Mode) (mw mh : Z)
    (v : number * number * number * number) : Rect :=
  let '(x1, y1, x2, y2) := v in
  let x1 := resolve m mw x1 in
  let y1 := resolve m mh y1 in
  let x2 := resolve m mw x2 in
  let y2 := resolve m mh y2 in
  mkRect (Math_round x1) (Math_round y1)
         (Math_round (num_sub x2 x1)) (Math_round (num_sub y2 y1)).






(** [!(x > 0)]: zero, negative or NaN. *)
Definition not_positive (x : number) : Prop := num_lt zero x = false.




(** An image that reaches the compression step of [processImageBuffer]:
    decoding, focus and resize have returned, leaving [st]. *)
Definition reaches_compression (W : World) (cfg : Config)
    (p : ProcessImageBufferParams) (md0 : Metadata) (st : Stage) : Prop :=
  sharp_metadata W (pib_imageBuffer p) = Ret md0
  /\ exists st1,
       focusStage W (pib_focus_xyxy p) (pib_focal_point p)
                  (pib_imageBuffer p, md0) = Ret st1
       /\ resizeStage W cfg st1 = Ret st.


(** The three kinds of source (section 3, SourceKind). *)
Inductive SourceKind := FilePath | Url | InlineData.

Definition kind_of (t : ReadVisual.SourceType) : SourceKind :=
  match t with
  | ReadVisual.url => Url
  | ReadVisual.file => FilePath
  | ReadVisual.base64 => InlineData
  end.

(** The words of section 4.1, on the characters of the reference. They
    are stated on code points and lists, without the functions of the
    embedding of read-visual.ts. *)

(** "starts with" *)
Definition begins_with (prefix s : jsstring) : Prop :=
  exists rest, s = prefix ++ rest.

(** A letter [A-Z] or [a-z]; a digit [0-9]. *)
Definition letter (c : char16) : Prop :=
  (65 <= c <= 90)%N \/ (97 <= c <= 122)%N.

Definition digit (c : char16) : Prop := (48 <= c <= 57)%N.

(** "a path separator": [/] or [\]. *)
Definition path_separator (c : char16) : Prop := c = 47%N \/ c = 92%N.

(** "the base64 alphabet": letters, digits, [+] and [/]. *)
Definition base64_alphabet (c : char16) : Prop :=
  letter c \/ digit c \/ c = 43%N \/ c = 47%N.

(** White space: the WhiteSpace and LineTerminator code points of
    ECMAScript (tab, line feed, vertical tab, form feed, carriage return,
    space, no-break space, the Unicode space separators, the line and
    paragraph separators and the byte order mark). *)
Definition whitespace (c : char16) : bool :=
  existsb (N.eqb c)
    [9; 10; 11; 12; 13; 32; 160; 5760; 8192; 8193; 8194; 8195; 8196; 8197;
     8198; 8199; 8200; 8201; 8202; 8232; 8233; 8239; 8287; 12288; 65279]%N.

(** "after whitespace-stripping" *)
Definition without_whitespace (s : jsstring) : jsstring :=
  filter (fun c => negb (whitespace c)) s.

(** "drive-letter prefix ([X:] followed by a path separator)" *)
Definition drive_letter_prefix (s : jsstring) : Prop :=
  exists X sep rest,
    s = X :: 58%N :: sep :: rest /\ letter X /\ path_separator sep.

(** "ends in a ... dot-extension": a dot followed by one or more letters or
    digits, at the end. *)
Definition dot_extension (s : jsstring) : Prop :=
  exists stem ext,
    s = stem ++ 46%N :: ext /\ ext <> []
    /\ Forall (fun c => letter c \/ digit c) ext.

(** Section 4.1, step 3: "drive-letter prefix ([X:] followed by a path
    separator), UNC prefix, leading [/], leading [./] or [../], OR ends in
    a short (<500 char, no-space) dot-extension". *)
Definition path_shape (s : jsstring) : Prop :=
  drive_letter_prefix s
  \/ begins_with [92; 92]%N s
  \/ begins_with [47]%N s
  \/ begins_with [46; 47]%N s
  \/ begins_with [46; 46; 47]%N s
  \/ (dot_extension s /\ Js.length s < 500 /\ ~ In 32%N s).

(** Section 4.1, step 4: "plausible base64 (length >= 100, length a
    multiple of 4 after whitespace-stripping, matches the base64 alphabet
    with optional padding)": what is left of the text is one or more
    characters of the alphabet followed by at most two [=]. *)
Definition plausible_base64 (s : jsstring) : Prop :=
  100 <= Js.length s
  /\ Js.length (without_whitespace s) mod 4 = 0
  /\ exists body pad,
       without_whitespace s = body ++ pad
       /\ body <> [] /\ Forall base64_alphabet body
       /\ (pad = [] \/ pad = [61]%N \/ pad = [61; 61]%N).

(** "starts with [http://] or [https://]"; "starts with [data:]". *)
Definition url_prefix (s : jsstring) : Prop :=
  begins_with (lit "http://") s \/ begins_with (lit "https://") s.

Definition data_prefix (s : jsstring) : Prop := begins_with (lit "data:") s.

(** Section 4.1: the decision order, first match wins. Each rule applies
    only when the rules before it do not. *)
Inductive classify (s : jsstring) : SourceKind -> Prop :=
| rule_url :
    url_prefix s -> classify s Url
| rule_data :
    ~ url_prefix s -> data_prefix s -> classify s InlineData
| rule_path :
    ~ url_prefix s -> ~ data_prefix s -> path_shape s ->
    classify s FilePath
| rule_base64 :
    ~ url_prefix s -> ~ data_prefix s -> ~ path_shape s ->
    plausible_base64 s -> classify s InlineData
| rule_default :
    ~ url_prefix s -> ~ data_prefix s -> ~ path_shape s ->
    ~ plausible_base64 s -> classify s FilePath.

(** Section 7, InvalidEncoding: text that "fails base64 structural
    validation": a character outside the base64 alphabet, or a length that
    is not a multiple of 4, after whitespace-stripping. *)
Definition structurally_valid (s : jsstring) : bool :=
  let b64 := strip_whitespace s in
  Z.eqb (Js.length b64 mod 4) 0 && ReadVisual.b64_regex b64.

(** An error result whose message reports invalid base64. *)
Definition invalid_encoding (r : McpToolResponse) : Prop :=
  isError r = true
  /\ exists msg, content r = [TextPart (Message msg)]
                 /\ includes msg (lit "Invalid base64 string").

(** A successful result: a metadata part and an image part, no error
    flag. *)
Definition success (r : McpToolResponse) (meta : JsObject)
    (data mimeType : jsstring) : Prop :=
  r = mkResponse [TextPart (JSON_stringify meta); ImagePart data mimeType]
                 false.

(** An error result with the given message. *)
Definition failure (r : McpToolResponse) (msg : jsstring) : Prop :=
  r = mkResponse [TextPart (Message msg)] true.

(** The page and the resolution [processPdf] uses: [params.page ?? 1] and
    [params.dpi ?? DEFAULT_PDF_DPI]. *)
Definition page_of (p : ReadVisual.ReadVisualParams) : Z :=
  match ReadVisual.page p with Some n => n | None => 1 end.

Definition dpi_of (cfg : Config) (p : ReadVisual.ReadVisualParams) : Z :=
  match ReadVisual.dpi p with Some d => d | None => PDF_DPI cfg end.

(** "Document content": the reference is fetched and recognised as a PDF,
    so that [readVisual] hands [input] to [processPdf]. One rule for each
    kind of source. *)
Inductive document_input (W : World) (cfg : Config)
    (p : ReadVisual.ReadVisualParams) : jsstring -> Prop :=
| document_file (fileBuffer : Buffer) :
    ReadVisual.detectSourceType W (ReadVisual.source p) = ReadVisual.file ->
    fs_existsSync W (ReadVisual.source p) = true ->
    fs_readFileSync W (ReadVisual.source p) = Ret fileBuffer ->
    blength fileBuffer <= MAX_IMAGE_SIZE cfg ->
    ReadVisual.isPdfByExtension W (ReadVisual.source p)
    || ReadVisual.isPdf fileBuffer = true ->
    document_input W cfg p (ReadVisual.source p)
| document_url (response : HttpResponse) :
    ReadVisual.detectSourceType W (ReadVisual.source p) = ReadVisual.url ->
    validateDomain W cfg (ReadVisual.source p) = Ret None ->
    axios_get W (ReadVisual.source p) (MAX_IMAGE_SIZE cfg) = Ret response ->
    blength (resp_data response) <= MAX_IMAGE_SIZE cfg ->
    ReadVisual.isPdfByMimeType (or_str (resp_content_type response) [])
    || endsWith (toLowerCase W (ReadVisual.source p)) (lit ".pdf")
    || ReadVisual.isPdf (resp_data response) = true ->
    document_input W cfg p
      (ReadVisual.pdf_data_url
         (Buffer_toString_base64 W (resp_data response)))
| document_base64 (base64Data mimeType : jsstring) :
    ReadVisual.detectSourceType W (ReadVisual.source p) = ReadVisual.base64 ->
    ReadVisual.base64_of_source p = Some (base64Data, mimeType) ->
    ReadVisual.isValidBase64 base64Data = true ->
    0 < blength (Buffer_from_base64 W base64Data) <= MAX_IMAGE_SIZE cfg ->
    ReadVisual.isPdfByMimeType mimeType
    || ReadVisual.isPdf (Buffer_from_base64 W base64Data) = true ->
    document_input W cfg p (ReadVisual.pdf_data_url base64Data).

(** The page count of the document can be determined: it opens at the
    requested resolution and reports [n] pages, [n] not zero. *)
Definition page_count (W : World) (cfg : Config)
    (p : ReadVisual.ReadVisualParams) (input : jsstring) (doc : PdfDoc)
    (n : Z) : Prop :=
  pdf W input (inject_Z (dpi_of cfg p) / 72)%Q = Ret doc
  /\ doc_length doc = Some n /\ n <> 0.

(** The string does not begin with a character that satisfies [t]. *)
Definition stops (t : char16 -> bool) (s : jsstring) : Prop :=
  match s with
  | [] => True
  | c :: _ => t c = false
  end.


(** Comparisons of a character with a constant, constant last. *)
Ltac char_tests :=
  unfold is_sep, ch_dot, ch_slash, ch_backslash;
  repeat match goal with
         | |- context [N.eqb (Npos ?k) ?c] =>
             is_var c; rewrite (N.eqb_sym (Npos k) c)
         end;
  repeat match goal with
         | |- context [N.eqb ?c ?k] => destruct (N.eqb c k)
         end.

(** The two shapes a response can have: an error result, or a successful
    result of a metadata part and an image part. *)
Definition uniform (r : McpToolResponse) : Prop :=
  (exists msg, failure r msg)
  \/ (exists meta data mimeType, success r meta data mimeType).

(** The name is not among the properties of the object. *)
Definition lacks (o : JsObject) (k : jsstring) : Prop :=
  ~ In k (List.map fst o).

(** The metadata that [processImageBuffer] is given beside the image: none
    for an image, the page fields for a page of a document. *)
Definition extra_fields (e : option JsObject) : JsObject :=
  match e with Some o => o | None => [] end.

(** A computation whose result, if it returns one, has a uniform shape. *)
Definition answers_uniformly (m : Except McpToolResponse) : Prop :=
  match m with
  | Ret r => uniform r
  | Throw _ => True
  end.

(** [JSON.parse(result.content[0].text)], as the tests read the metadata of
    a successful result. *)
Definition metadata_of (r : McpToolResponse) : option JsObject :=
  match content r with
  | TextPart (JSON_stringify o) :: _ => Some o
  | _ => None
  end.

(** The image part of a result: its base64 data and its MIME type. *)
Definition image_of (r : McpToolResponse) : option (jsstring * jsstring) :=
  match content r with
  | [_; ImagePart data mimeType] => Some (data, mimeType)
  | _ => None
  end.

(** The concrete world with a network: [https://example.com/a.png] serves
    a raster of 8 pixels, every other download fails. *)
Definition online_world : World :=
  {| fs_existsSync := fs_existsSync Bench.world;
     fs_readFileSync := fs_readFileSync Bench.world;
     path_extname := Bench.extname;
     toLowerCase := Bench.lower;
     toLocaleString := String_of_Z;
     Buffer_from_base64 := Bench.from_base64;
     Buffer_toString_base64 := Bench.to_base64;
     URL_hostname := Bench.hostname;
     axios_get := fun u _ =>
       if is_lit u "https://example.com/a.png"
       then Ret (mkHttpResponse (Bench.raster 8) (Some (lit "image/png")))
       else Throw (lit "Request failed with status code 404");
     sharp_metadata := Bench.metadata;
     sharp_extract := Bench.extract;
     sharp_resize := Bench.resize;
     sharp_toBuffer := Bench.toBuffer;
     pdf := Bench.open_pdf |}.

(** The five bytes [%PDF-]. *)
Definition pdf_signature : Buffer := [x25; x50; x44; x46; x2d].

(** ** The arithmetic against the kernel's

    [of_float] reads a binary64 value of the kernel as a [number]; the
    samples are run through the machine operations and through the
    operations of [Js]. *)
Module FloatCheck.

Import PrimFloat.

Definition of_float (f : float) : number :=
  match FloatOps.Prim2SF f with
  | SpecFloat.S754_zero _ => Fin 0
  | SpecFloat.S754_infinity s => Inf s
  | SpecFloat.S754_nan => NaN
  | SpecFloat.S754_finite s m e =>
      Fin (Qred ((if s then -1 else 1) * inject_Z (Zpos m) * pow2 e))
  end.

(** 0.015 and 100; 1 and 0.015; 0.1 and 0.2; 0.6 and 0.1; a third and 3;
    [2 ** 53] and 1; 1e16 and 1; -2.5 and 0.5; -0.3 and 0.5; the largest
    value and [2 ** 970]; 1e308 and 10; the smallest value and 0.5, and
    1.5; [2 ** -1022] and [2 ** -53]; zeros, infinities and NaN. *)
Definition samples : list (float * float) :=
  [ (0x1.eb851eb851eb8p-7, 100); (1, 0x1.eb851eb851eb8p-7);
    (0x1.999999999999ap-4, 0x1.999999999999ap-3);
    (0x1.3333333333333p-1, 0x1.999999999999ap-4);
    (0x1.5555555555555p-2, 3);
    (0x1p+53, 1); (0x1.1c37937e08p+53, 1);
    (-0x1.4p+1, 0x1p-1); (-0x1.3333333333333p-2, 0x1p-1);
    (0x1.fffffffffffffp+1023, 0x1p+970);
    (0x1.1ccf385ebc8ap+1023, 10);
    (0x1p-1074, 0x1p-1); (0x1p-1074, 0x1.8p+0);
    (0x1p-1022, 0x1p-53);
    (0, -0x1p+0); (infinity, 0); (infinity, infinity);
    (infinity, neg_infinity); (neg_infinity, -0x1.8p+1);
    (nan, 1); (0x1.8p+1, infinity) ]%float.

Definition by_machine (op : float -> float -> float) : list number :=
  List.map (fun p => of_float (op (fst p) (snd p))) samples.

Definition by_model (op : number -> number -> number) : list number :=
  List.map (fun p => op (of_float (fst p)) (of_float (snd p))) samples.

End FloatCheck.

(* ================================================================== *)
(** * Numbers: rounding to binary64 *)

Unset Implicit Arguments.

Section Numbers.

Lemma pow2_pos (e : Z) : (0 < pow2 e)%Q.
Proof. apply Qpower_0_lt. reflexivity. Qed.

Lemma pow2_add (a b : Z) : (pow2 (a + b) == pow2 a * pow2 b)%Q.
Proof. apply Qpower_plus. discriminate. Qed.

Lemma pow2_le (a b : Z) : a <= b -> (pow2 a <= pow2 b)%Q.
Proof. intros H. apply Qpower_le_compat_l; [exact H | discriminate]. Qed.

Lemma pow2_Z (e : Z) : 0 <= e -> (pow2 e == inject_Z (2 ^ e))%Q.
Proof. intros H. unfold pow2. now rewrite Zpower_Qpower. Qed.

Lemma pow2_cancel (a : Z) : (pow2 (- a) * pow2 a == 1)%Q.
Proof. rewrite <- pow2_add. now replace (- a + a) with 0 by lia. Qed.

(** [ilog2] is the binary exponent. *)
Lemma ilog2_spec (a : Q) :
  (0 < a)%Q -> (pow2 (ilog2 a) <= a)%Q /\ (a < pow2 (ilog2 a + 1))%Q.
Proof.
  intros Ha. destruct a as [n d]. unfold ilog2. cbn [Qnum Qden].
  assert (Hn : 0 < n) by (unfold Qlt in Ha; simpl in Ha; lia).
  set (ln := Z.log2 n). set (ld := Z.log2 (Zpos d)).
  assert (Hln0 : 0 <= ln) by apply Z.log2_nonneg.
  assert (Hld0 : 0 <= ld) by apply Z.log2_nonneg.
  destruct (Z.log2_spec n Hn) as [Hn1 Hn2]. fold ln in Hn1, Hn2.
  destruct (Z.log2_spec (Zpos d) (Pos2Z.is_pos d)) as [Hd1 Hd2].
  fold ld in Hd1, Hd2.
  assert (Ea : (n # d == inject_Z n / inject_Z (Zpos d))%Q)
    by apply Qmake_Qdiv.
  assert (Hdpos : (0 < inject_Z (Zpos d))%Q) by reflexivity.
  assert (Qn1 : (pow2 ln <= inject_Z n)%Q)
    by (rewrite pow2_Z by lia; now rewrite <- Zle_Qle).
  assert (Qn2 : (inject_Z n < pow2 (ln + 1))%Q)
    by (rewrite pow2_Z by lia; rewrite <- Zlt_Qlt; exact Hn2).
  assert (Qd1 : (pow2 ld <= inject_Z (Zpos d))%Q)
    by (rewrite pow2_Z by lia; now rewrite <- Zle_Qle).
  assert (Qd2 : (inject_Z (Zpos d) < pow2 (ld + 1))%Q)
    by (rewrite pow2_Z by lia; rewrite <- Zlt_Qlt; exact Hd2).
  assert (Hup : (n # d < pow2 (ln - ld + 1))%Q).
  { rewrite Ea. apply Qlt_shift_div_r; [exact Hdpos|].
    apply Qlt_le_trans with (pow2 (ln + 1)); [exact Qn2|].
    replace (ln + 1) with ((ln - ld + 1) + ld) by lia. rewrite pow2_add.
    apply Qmult_le_l; [apply pow2_pos | exact Qd1]. }
  assert (Hlo : (pow2 (ln - ld - 1) < n # d)%Q).
  { rewrite Ea. apply Qlt_shift_div_l; [exact Hdpos|].
    apply Qlt_le_trans with (pow2 ln); [|exact Qn1].
    replace ln with ((ln - ld - 1) + (ld + 1)) at 2 by lia. rewrite pow2_add.
    apply Qmult_lt_l; [apply pow2_pos | exact Qd2]. }
  destruct (Qle_bool (pow2 (ln - ld)) (n # d)) eqn:Hk.
  - apply Qle_bool_iff in Hk. split; assumption.
  - split; [apply Qlt_le_weak; exact Hlo|].
    replace (ln - ld - 1 + 1) with (ln - ld) by lia.
    apply Qnot_le_lt. intros H. apply Qle_bool_iff in H. congruence.
Qed.

Lemma ilog2_unique (a : Q) (e : Z) :
  (pow2 e <= a)%Q -> (a < pow2 (e + 1))%Q -> ilog2 a = e.
Proof.
  intros H1 H2.
  assert (Ha : (0 < a)%Q)
    by (eapply Qlt_le_trans; [apply pow2_pos | exact H1]).
  destruct (ilog2_spec a Ha) as [L1 L2].
  destruct (Z.lt_trichotomy (ilog2 a) e) as [Hlt | [Heq | Hgt]];
    [|exact Heq|]; exfalso.
  - assert (Hp : (pow2 (ilog2 a + 1) <= pow2 e)%Q) by (apply pow2_le; lia).
    lra.
  - assert (Hp : (pow2 (e + 1) <= pow2 (ilog2 a))%Q) by (apply pow2_le; lia).
    lra.
Qed.

Lemma ilog2_le (a b : Q) : (0 < a)%Q -> (a <= b)%Q -> ilog2 a <= ilog2 b.
Proof.
  intros Ha Hab.
  assert (Hb : (0 < b)%Q) by lra.
  destruct (ilog2_spec a Ha) as [A1 A2]. destruct (ilog2_spec b Hb) as [B1 B2].
  destruct (Z.le_gt_cases (ilog2 a) (ilog2 b)) as [H | H]; [exact H|].
  exfalso.
  assert (Hp : (pow2 (ilog2 b + 1) <= pow2 (ilog2 a))%Q)
    by (apply pow2_le; lia).
  lra.
Qed.

Lemma ilog2_comp (a b : Q) : (a == b)%Q -> (0 < a)%Q -> ilog2 a = ilog2 b.
Proof.
  intros E Ha. destruct (ilog2_spec a Ha) as [A1 A2].
  symmetry. apply ilog2_unique; rewrite <- E; assumption.
Qed.

Lemma ilog2_Z (z : Z) : 0 < z -> ilog2 (inject_Z z) = Z.log2 z.
Proof.
  intros H. destruct (Z.log2_spec z H) as [L1 L2].
  apply ilog2_unique.
  - rewrite pow2_Z by apply Z.log2_nonneg. now rewrite <- Zle_Qle.
  - rewrite pow2_Z by (pose proof (Z.log2_nonneg z); lia).
    rewrite <- Zlt_Qlt. exact L2.
Qed.

Lemma rne_comp (p q : Q) : (p == q)%Q -> rne p = rne q.
Proof.
  intros E. unfold rne. rewrite (Qfloor_comp _ _ E).
  assert (E' : (p - inject_Z (Qfloor q) == q - inject_Z (Qfloor q))%Q)
    by now rewrite E.
  now rewrite (Qcompare_comp _ _ E' (1 # 2)%Q (1 # 2)%Q (Qeq_refl _)).
Qed.

Lemma rne_Z (z : Z) : rne (inject_Z z) = z.
Proof.
  unfold rne. rewrite Qfloor_Z.
  assert (E : (inject_Z z - inject_Z z == 0)%Q) by ring.
  now rewrite (Qcompare_comp _ _ E (1 # 2)%Q (1 # 2)%Q (Qeq_refl _)).
Qed.

Lemma rne_range (q : Q) : Qfloor q <= rne q <= Qfloor q + 1.
Proof.
  unfold rne. destruct (q - inject_Z (Qfloor q) ?= 1 # 2)%Q;
    [destruct (Z.even (Qfloor q))|..]; lia.
Qed.

Lemma rne_le (p q : Q) : (p <= q)%Q -> rne p <= rne q.
Proof.
  intros H. pose proof (Qfloor_resp_le _ _ H) as Hf.
  destruct (Z.eq_dec (Qfloor p) (Qfloor q)) as [E | NE].
  - unfold rne. rewrite E.
    destruct (Qcompare_spec (p - inject_Z (Qfloor q)) (1 # 2)) as [P|P|P];
      destruct (Qcompare_spec (q - inject_Z (Qfloor q)) (1 # 2)) as [Q0|Q0|Q0];
      try destruct (Z.even (Qfloor q)); try lia; exfalso; lra.
  - pose proof (rne_range p). pose proof (rne_range q). lia.
Qed.

Lemma ulp_exp_le (a b : Q) :
  (0 < a)%Q -> (a <= b)%Q -> ulp_exp a <= ulp_exp b.
Proof. intros Ha H. unfold ulp_exp. pose proof (ilog2_le a b Ha H). lia. Qed.

Lemma scaled_back (a : Q) (u : Z) : (a * pow2 (- u) * pow2 u == a)%Q.
Proof. rewrite <- Qmult_assoc, pow2_cancel. ring. Qed.

Lemma round_pos_nonneg (a : Q) : (0 < a)%Q -> (0 <= round_pos a)%Q.
Proof.
  intros Ha. unfold round_pos.
  apply Qmult_le_0_compat; [|apply Qlt_le_weak, pow2_pos].
  change 0%Q with (inject_Z 0). rewrite <- Zle_Qle.
  rewrite <- (rne_Z 0). apply rne_le.
  apply Qmult_le_0_compat; [lra | apply Qlt_le_weak, pow2_pos].
Qed.

(** Rounding keeps the order, within a binade and across binades. *)
Lemma round_pos_le (a b : Q) :
  (0 < a)%Q -> (a <= b)%Q -> (round_pos a <= round_pos b)%Q.
Proof.
  intros Ha Hab. assert (Hb : (0 < b)%Q) by lra.
  pose proof (ulp_exp_le a b Ha Hab) as Hu. unfold round_pos.
  set (ua := ulp_exp a) in *. set (ub := ulp_exp b) in *.
  destruct (Z.eq_dec ua ub) as [E | NE].
  - rewrite E. apply Qmult_le_compat_r; [|apply Qlt_le_weak, pow2_pos].
    rewrite <- Zle_Qle. apply rne_le.
    apply Qmult_le_compat_r; [exact Hab | apply Qlt_le_weak, pow2_pos].
  - assert (Hlt : ua < ub) by lia.
    destruct (ilog2_spec a Ha) as [A1 A2].
    destruct (ilog2_spec b Hb) as [B1 B2].
    assert (Eb : ilog2 b = ub + 52) by (unfold ub, ua, ulp_exp in *; lia).
    assert (La : ilog2 a + 1 <= ua + 53) by (unfold ua, ulp_exp; lia).
    assert (Ma : rne (a * pow2 (- ua)) <= 2 ^ 53).
    { rewrite <- (rne_Z (2 ^ 53)). apply rne_le.
      rewrite <- pow2_Z by lia.
      apply Qle_trans with (pow2 (ua + 53) * pow2 (- ua))%Q.
      - apply Qmult_le_compat_r; [|apply Qlt_le_weak, pow2_pos].
        apply Qle_trans with (pow2 (ilog2 a + 1)); [lra | now apply pow2_le].
      - rewrite <- pow2_add. replace (ua + 53 + - ua) with 53 by lia. lra. }
    assert (Mb : 2 ^ 52 <= rne (b * pow2 (- ub))).
    { rewrite <- (rne_Z (2 ^ 52)). apply rne_le.
      rewrite <- pow2_Z by lia.
      apply Qle_trans with (pow2 (ub + 52) * pow2 (- ub))%Q.
      - rewrite <- pow2_add. replace (ub + 52 + - ub) with 52 by lia. lra.
      - apply Qmult_le_compat_r; [|apply Qlt_le_weak, pow2_pos].
        rewrite <- Eb. exact B1. }
    apply Qle_trans with (inject_Z (2 ^ 53) * pow2 ua)%Q.
    + apply Qmult_le_compat_r; [|apply Qlt_le_weak, pow2_pos].
      now rewrite <- Zle_Qle.
    + apply Qle_trans with (inject_Z (2 ^ 52) * pow2 ub)%Q.
      * rewrite <- !pow2_Z by lia. rewrite <- !pow2_add. apply pow2_le. lia.
      * apply Qmult_le_compat_r; [|apply Qlt_le_weak, pow2_pos].
        now rewrite <- Zle_Qle.
Qed.

Lemma round_pos_comp (a b : Q) :
  (a == b)%Q -> (0 < a)%Q -> (round_pos a == round_pos b)%Q.
Proof.
  intros E Ha. unfold round_pos, ulp_exp. rewrite (ilog2_comp a b E Ha).
  set (u := Z.max (ilog2 b) (-1022) - 52).
  rewrite (rne_comp (a * pow2 (- u)) (b * pow2 (- u))); [reflexivity|].
  now rewrite E.
Qed.

(** An integer of at most 53 bits is a binary64 value. *)
Lemma round_pos_Z (z : Z) :
  0 < z <= 2 ^ 53 -> (round_pos (inject_Z z) == inject_Z z)%Q.
Proof.
  intros [H0 H1]. unfold round_pos, ulp_exp. rewrite (ilog2_Z z H0).
  pose proof (Z.log2_nonneg z) as Hl0.
  assert (Hl1 : Z.log2 z <= 53).
  { change 53 with (Z.log2 (2 ^ 53)). now apply Z.log2_le_mono. }
  replace (Z.max (Z.log2 z) (-1022)) with (Z.log2 z) by lia.
  set (u := Z.log2 z - 52).
  assert (Hint : exists k, (inject_Z z * pow2 (- u) == inject_Z k)%Q).
  { destruct (Z.le_gt_cases u 0) as [Hu | Hu].
    - exists (z * 2 ^ (- u)). rewrite inject_Z_mult, pow2_Z by lia.
      reflexivity.
    - assert (Hz : z = 2 ^ 53).
      { destruct (Z.log2_spec z H0) as [L1 _].
        assert (E : Z.log2 z = 53) by (unfold u in Hu; lia).
        rewrite E in L1. lia. }
      assert (Eu : u = 1) by (unfold u; rewrite Hz; reflexivity).
      exists (2 ^ 52). rewrite Eu, Hz. reflexivity. }
  destruct Hint as [k Hk].
  rewrite (rne_comp _ _ Hk), rne_Z, <- Hk. apply scaled_back.
Qed.

Lemma Qle_bool_false (a b : Q) : Qle_bool a b = false <-> (b < a)%Q.
Proof.
  split.
  - intros H. apply Qnot_le_lt. intros L. apply Qle_bool_iff in L. congruence.
  - intros H. destruct (Qle_bool a b) eqn:E; [|reflexivity].
    apply Qle_bool_iff in E. lra.
Qed.

Lemma Qred_inject_Z (z : Z) : Qred (inject_Z z) = inject_Z z.
Proof. apply Qred_identity. simpl. apply Z.gcd_1_r. Qed.

(** [fl] is a function of the value of the rational. *)
Lemma fl_comp (p q : Q) : (p == q)%Q -> fl p = fl q.
Proof.
  intros E. unfold fl.
  rewrite (Qcompare_comp _ _ E 0%Q 0%Q (Qeq_refl _)).
  destruct (Qcompare_spec q 0) as [H|H|H]; [reflexivity| |].
  - assert (Hp : (0 < - p)%Q) by lra.
    assert (E' : (- p == - q)%Q) by now rewrite E.
    pose proof (round_pos_comp _ _ E' Hp) as R.
    rewrite (Qleb_comp _ _ (Qeq_refl (pow2 1024)) _ _ R).
    destruct (Qle_bool (pow2 1024) (round_pos (- q))); [reflexivity|].
    f_equal. apply Qred_complete. now rewrite R.
  - assert (Hp : (0 < p)%Q) by lra.
    pose proof (round_pos_comp _ _ E Hp) as R.
    rewrite (Qleb_comp _ _ (Qeq_refl (pow2 1024)) _ _ R).
    destruct (Qle_bool (pow2 1024) (round_pos q)); [reflexivity|].
    f_equal. now apply Qred_complete.
Qed.

(** Rounding to binary64 is monotone. *)
Lemma fl_le (p q : Q) : (p <= q)%Q -> num_le (fl p) (fl q) = true.
Proof.
  intros H. unfold fl.
  destruct (Qcompare_spec p 0) as [P|P|P];
    destruct (Qcompare_spec q 0) as [Q0|Q0|Q0]; try (exfalso; lra).
  - reflexivity.
  - pose proof (round_pos_nonneg q Q0) as N.
    destruct (Qle_bool (pow2 1024) (round_pos q)); [reflexivity|].
    unfold num_le. apply Qle_bool_iff. now rewrite Qred_correct.
  - assert (P' : (0 < - p)%Q) by lra.
    pose proof (round_pos_nonneg (- p) P') as N.
    destruct (Qle_bool (pow2 1024) (round_pos (- p))); [reflexivity|].
    unfold num_le. apply Qle_bool_iff. rewrite Qred_correct. lra.
  - assert (P' : (0 < - p)%Q) by lra. assert (Q' : (0 < - q)%Q) by lra.
    assert (L : (- q <= - p)%Q) by lra.
    pose proof (round_pos_le (- q) (- p) Q' L) as R.
    destruct (Qle_bool (pow2 1024) (round_pos (- p))) eqn:Op;
      destruct (Qle_bool (pow2 1024) (round_pos (- q))) eqn:Oq;
      try reflexivity.
    + apply Qle_bool_iff in Oq. apply Qle_bool_false in Op. exfalso. lra.
    + unfold num_le. apply Qle_bool_iff. rewrite !Qred_correct. lra.
  - assert (P' : (0 < - p)%Q) by lra.
    pose proof (round_pos_nonneg (- p) P') as N.
    pose proof (round_pos_nonneg q Q0) as N'.
    destruct (Qle_bool (pow2 1024) (round_pos (- p)));
      destruct (Qle_bool (pow2 1024) (round_pos q)); try reflexivity.
    unfold num_le. apply Qle_bool_iff. rewrite !Qred_correct. lra.
  - pose proof (round_pos_le p q P H) as R.
    destruct (Qle_bool (pow2 1024) (round_pos p)) eqn:Op;
      destruct (Qle_bool (pow2 1024) (round_pos q)) eqn:Oq;
      try reflexivity.
    + apply Qle_bool_iff in Op. apply Qle_bool_false in Oq. exfalso. lra.
    + unfold num_le. apply Qle_bool_iff. now rewrite !Qred_correct.
Qed.

(** Integers up to [2 ** 53] in magnitude are not rounded. *)
Lemma fl_Z (z : Z) : Z.abs z <= 2 ^ 53 -> fl (inject_Z z) = of_Z z.
Proof.
  intros H. unfold fl, of_Z.
  assert (Big : (inject_Z (2 ^ 53) < pow2 1024)%Q).
  { rewrite pow2_Z by lia. rewrite <- Zlt_Qlt. reflexivity. }
  destruct (Qcompare_spec (inject_Z z) 0) as [E|L|G].
  - f_equal. assert (Ez : z = 0) by (apply inject_Z_injective; exact E).
    now rewrite Ez.
  - change 0%Q with (inject_Z 0) in L. rewrite <- Zlt_Qlt in L.
    assert (Hz : 0 < - z <= 2 ^ 53) by lia.
    assert (E : (- inject_Z z == inject_Z (- z))%Q)
      by now rewrite inject_Z_opp.
    assert (Hp : (0 < - inject_Z z)%Q).
    { rewrite E. change 0%Q with (inject_Z 0). rewrite <- Zlt_Qlt. lia. }
    pose proof (round_pos_comp _ _ E Hp) as R.
    pose proof (round_pos_Z (- z) Hz) as R'.
    assert (Hle : (inject_Z (- z) <= inject_Z (2 ^ 53))%Q)
      by (rewrite <- Zle_Qle; lia).
    replace (Qle_bool (pow2 1024) (round_pos (- inject_Z z))) with false
      by (symmetry; apply Qle_bool_false; lra).
    f_equal. rewrite <- (Qred_inject_Z z) at 2. apply Qred_complete.
    rewrite inject_Z_opp in R'. lra.
  - change 0%Q with (inject_Z 0) in G. rewrite <- Zlt_Qlt in G.
    assert (Hz : 0 < z <= 2 ^ 53) by lia.
    pose proof (round_pos_Z z Hz) as R'.
    assert (Hle : (inject_Z z <= inject_Z (2 ^ 53))%Q)
      by (rewrite <- Zle_Qle; lia).
    replace (Qle_bool (pow2 1024) (round_pos (inject_Z z))) with false
      by (symmetry; apply Qle_bool_false; lra).
    f_equal. rewrite <- (Qred_inject_Z z) at 2. now apply Qred_complete.
Qed.


(** The order of the numbers. *)
Lemma num_le_lt (x y : number) : num_le x y = true -> num_lt y x = false.
Proof.
  destruct x as [|[|]|a], y as [|[|]|b]; simpl; try congruence.
  intros H. now rewrite H.
Qed.

Lemma num_lt_le (x y : number) : num_lt x y = true -> num_le y x = false.
Proof.
  destruct x as [|[|]|a], y as [|[|]|b]; simpl; try congruence.
  now destruct (Qle_bool b a).
Qed.

Lemma num_le_of_Z (a b : Z) : num_le (of_Z a) (of_Z b) = Z.leb a b.
Proof.
  unfold num_le, of_Z. apply eq_true_iff_eq.
  now rewrite Qle_bool_iff, <- Zle_Qle, Z.leb_le.
Qed.

Lemma num_lt_of_Z (a b : Z) : num_lt (of_Z a) (of_Z b) = Z.ltb a b.
Proof.
  unfold num_lt, of_Z. rewrite Z.ltb_antisym. f_equal.
  apply eq_true_iff_eq. now rewrite Qle_bool_iff, <- Zle_Qle, Z.leb_le.
Qed.


Lemma fl_nonpos (q : Q) : (q <= 0)%Q -> not_positive (fl q).
Proof.
  intros H. unfold not_positive. apply num_le_lt.
  change zero with (fl 0). now apply fl_le.
Qed.

(** Arithmetic on integers that stay within 53 bits is exact. *)
Lemma num_add_of_Z (a b : Z) :
  Z.abs (a + b) <= 2 ^ 53 -> num_add (of_Z a) (of_Z b) = of_Z (a + b).
Proof.
  intros H. change (num_add (of_Z a) (of_Z b))
    with (fl (inject_Z a + inject_Z b)).
  rewrite (fl_comp (inject_Z a + inject_Z b) (inject_Z (a + b)))
    by (now rewrite inject_Z_plus).
  now apply fl_Z.
Qed.

Lemma num_sub_of_Z (a b : Z) :
  Z.abs (a - b) <= 2 ^ 53 -> num_sub (of_Z a) (of_Z b) = of_Z (a - b).
Proof.
  intros H. change (num_sub (of_Z a) (of_Z b))
    with (fl (inject_Z a - inject_Z b)).
  rewrite (fl_comp (inject_Z a - inject_Z b) (inject_Z (a - b))).
  - now apply fl_Z.
  - unfold Z.sub. rewrite inject_Z_plus, inject_Z_opp. reflexivity.
Qed.

Lemma num_mul_of_Z (a b : Z) :
  Z.abs (a * b) <= 2 ^ 53 -> num_mul (of_Z a) (of_Z b) = of_Z (a * b).
Proof.
  intros H. change (num_mul (of_Z a) (of_Z b))
    with (fl (inject_Z a * inject_Z b)).
  rewrite (fl_comp (inject_Z a * inject_Z b) (inject_Z (a * b)))
    by (now rewrite inject_Z_mult).
  now apply fl_Z.
Qed.


Lemma Math_round_of_Z (z : Z) : Math_round (of_Z z) = of_Z z.
Proof.
  unfold Math_round, of_Z. f_equal. f_equal.
  assert (L : (inject_Z z <= inject_Z z + (1 # 2))%Q) by lra.
  assert (U : (inject_Z z + (1 # 2) < inject_Z (z + 1))%Q)
    by (rewrite inject_Z_plus; change (inject_Z 1) with 1%Q; lra).
  pose proof (Qfloor_le (inject_Z z + (1 # 2))) as F1.
  pose proof (Qlt_floor (inject_Z z + (1 # 2))) as F2.
  assert (A : (inject_Z (Qfloor (inject_Z z + (1 # 2))) < inject_Z (z + 1))%Q)
    by lra.
  assert (B : (inject_Z z < inject_Z (Qfloor (inject_Z z + (1 # 2)) + 1))%Q)
    by lra.
  rewrite <- Zlt_Qlt in A, B. lia.
Qed.


Lemma Math_round_not_positive (x : number) :
  not_positive x -> not_positive (Math_round x).
Proof.
  unfold not_positive. destruct x as [|[|]|q]; try (simpl; congruence).
  unfold Math_round. change zero with (of_Z 0). rewrite num_lt_of_Z.
  unfold num_lt, of_Z. intros H.
  apply negb_false_iff in H. apply Qle_bool_iff in H.
  apply Z.ltb_ge.
  assert (L : (q + (1 # 2) < inject_Z 1)%Q)
    by (change (inject_Z 1) with 1%Q; change (inject_Z 0) with 0%Q in H; lra).
  pose proof (Qfloor_le (q + (1 # 2))) as F.
  assert (A : (inject_Z (Qfloor (q + (1 # 2))) < inject_Z 1)%Q) by lra.
  rewrite <- Zlt_Qlt in A. lia.
Qed.



Lemma Math_max_idempotent (x : number) :
  Math_max zero (Math_max zero x) = Math_max zero x.
Proof.
  destruct x as [|[|]|q]; try reflexivity.
  unfold Math_max, zero, of_Z. destruct (num_le _ (Fin q)) eqn:E.
  - now rewrite E.
  - reflexivity.
Qed.

Lemma Math_max_zero_above (x : number) :
  num_le zero x = true -> Math_max zero x = x.
Proof.
  destruct x as [|[|]|q]; simpl; try congruence.
  intros H. unfold Math_max, zero, of_Z, num_le. cbn in H. now rewrite H.
Qed.

End Numbers.

Set Implicit Arguments.

(** The operations of [Js] against the binary64 arithmetic of the kernel,
    on the samples of [FloatCheck]: products, sums and differences
    agree, overflow, gradual underflow, ties and the special values
    included. *)
Example arithmetic_agrees_with_binary64 :
  FloatCheck.by_machine PrimFloat.mul = FloatCheck.by_model num_mul
  /\ FloatCheck.by_machine PrimFloat.add = FloatCheck.by_model num_add
  /\ FloatCheck.by_machine PrimFloat.sub = FloatCheck.by_model num_sub.
Proof. repeat split; vm_compute; reflexivity. Qed.

(* ================================================================== *)
(** * Region of interest: ratio or pixels, clamping, precedence *)

Section Region.

Lemma isRatio_spec (vs : list number) :
  isRatio vs = true <-> Forall in_unit vs.
Proof.
  unfold isRatio. induction vs as [|v vs IH]; simpl.
  - split; [constructor | reflexivity].
  - rewrite !andb_true_iff, IH. split.
    + intros [[H0 H1] Hvs]. constructor; [split|]; assumption.
    + intros H. inversion H as [|? ? [H0 H1] Hvs]; subst. tauto.
Qed.

Lemma isRatio_false (vs : list number) :
  isRatio vs = false <-> ~ Forall in_unit vs.
Proof.
  rewrite <- isRatio_spec. destruct (isRatio vs); split; congruence.
Qed.

Lemma exceeds_one_not_unit (vs : list number) :
  Exists exceeds_one vs -> ~ Forall in_unit vs.
Proof.
  intros Hex Hall. rewrite Forall_forall in Hall.
  rewrite Exists_exists in Hex. destruct Hex as (v & Hin & Hv).
  destruct (Hall v Hin) as [_ Hle].
  apply num_lt_le in Hv. congruence.
Qed.

(** A [focus_xyxy] that is absent or of the wrong length is passed over. *)
Lemma rawRect_skip (mw mh : Z) (fx fp : option (list number)) :
  has4 fx = false -> rawRect mw mh fx fp = rawRect mw mh None fp.
Proof.
  destruct fx as [[|a [|b [|c [|d [|e l]]]]]|]; simpl;
    intros H; try reflexivity; discriminate.
Qed.

(** A [focus_xyxy] of four numbers decides alone. *)
Lemma rawRect_xyxy_first (mw mh : Z) (fx : list number)
    (fp fp' : option (list number)) :
  has4 (Some fx) = true ->
  rawRect mw mh (Some fx) fp = rawRect mw mh (Some fx) fp'.
Proof.
  destruct fx as [|a [|b [|c [|d [|e l]]]]]; simpl;
    intros H; try discriminate; reflexivity.
Qed.




End Region.

(* ================================================================== *)
(** * Objects *)

Lemma obj_get_set_other (o : JsObject) (k k' : jsstring) (v : JsValue) :
  k <> k' -> obj_get (obj_set o k' v) k = obj_get o k.
Proof.
  intros Hk. unfold str_eqb.
  induction o as [|[k0 v0] o IH]; simpl; unfold str_eqb.
  - destruct (list_eq_dec N.eq_dec k k'); [contradiction | reflexivity].
  - destruct (list_eq_dec N.eq_dec k' k0) as [->|Hne]; simpl;
      unfold str_eqb.
    + destruct (list_eq_dec N.eq_dec k k0); [contradiction | reflexivity].
    + destruct (list_eq_dec N.eq_dec k k0); [reflexivity | exact IH].
Qed.

Lemma obj_get_set_same (o : JsObject) (k : jsstring) (v : JsValue) :
  obj_get (obj_set o k v) k = Some v.
Proof.
  induction o as [|[k0 v0] o IH]; simpl.
  - unfold str_eqb. now destruct (list_eq_dec N.eq_dec k k).
  - destruct (str_eqb k k0) eqn:Hk; simpl; rewrite Hk; [reflexivity | exact IH].
Qed.

Lemma obj_get_spread_lacks (o extra : JsObject) (k : jsstring) :
  lacks extra k -> obj_get (obj_spread o extra) k = obj_get o k.
Proof.
  unfold obj_spread, lacks. revert o.
  induction extra as [|[k' v'] extra IH]; simpl; intros o Hl; [reflexivity|].
  rewrite IH by tauto.
  apply obj_get_set_other. intros E. apply Hl. left. now symmetry.
Qed.

(* ================================================================== *)
(** * The crop: bounds, precedence and ignored parameters *)

Section Focus.

Variable W : World.
Variable cfg : Config.



(** A rectangle that clamping leaves without a positive side is dropped. *)
Lemma focusRect_empty (md : Metadata) (fx fp : option (list number))
    (mw mh : Z) (raw : Rect) :
  truthy_num (width md) = Some mw ->
  truthy_num (height md) = Some mh ->
  rawRect mw mh fx fp = Some raw ->
  not_positive (rwidth (clampRect mw mh raw))
  \/ not_positive (rheight (clampRect mw mh raw)) ->
  focusRect md fx fp = None.
Proof.
  intros Hw Hh Hraw Hempty. unfold focusRect.
  destruct (negb (has4 fx) && negb (has4 fp)); [reflexivity|].
  rewrite Hw, Hh, Hraw. unfold not_positive in Hempty.
  destruct Hempty as [-> | ->]; [reflexivity | now rewrite andb_false_r].
Qed.

(** Without a rectangle the focus step keeps the image. *)
Lemma focusStage_no_rect (fx fp : option (list number)) (b : Buffer)
    (md : Metadata) :
  focusRect md fx fp = None ->
  applyImageFocus W b md fx fp = Ret None
  /\ focusStage W fx fp (b, md) = Ret (b, md).
Proof.
  intros H. unfold focusStage, applyImageFocus. rewrite H. split; reflexivity.
Qed.

Lemma processImageBuffer_eq (b : Buffer) (fmt mime : jsstring)
    (fx fp : option (list number)) (extra : option JsObject) :
  processImageBuffer W cfg (mkPIB b fmt mime fx fp extra)
  = (md <- sharp_metadata W b ;;
     st1 <- focusStage W fx fp (b, md) ;;
     st2 <- resizeStage W cfg st1 ;;
     Ret (compressAndAssemble W cfg (mkPIB b fmt mime fx fp extra)
            (or_zero (width md)) (or_zero (height md)) st2)).
Proof. reflexivity. Qed.






(** C8. When [focus_xyxy] has four elements the crop is computed from it
    alone, whatever [focal_point] is: the rectangle, the focus step and
    the whole response are those of the call without [focal_point]. A
    [focal_point] decides only when [focus_xyxy] is absent or not of
    length 4, and then as if [focus_xyxy] were absent. *)
Theorem focus_xyxy_takes_precedence
    (b : Buffer) (md : Metadata) (fmt mime : jsstring)
    (extra : option JsObject) (fx : option (list number))
    (fp : option (list number)) :
  (has4 fx = true ->
     focusRect md fx fp = focusRect md fx None
     /\ focusStage W fx fp (b, md) = focusStage W fx None (b, md)
     /\ processImageBuffer W cfg (mkPIB b fmt mime fx fp extra)
        = processImageBuffer W cfg (mkPIB b fmt mime fx None extra))
  /\ (has4 fx = false ->
      focusRect md fx fp = focusRect md None fp
      /\ focusStage W fx fp (b, md) = focusStage W None fp (b, md)).
Proof.
  assert (Hrect : forall m, has4 fx = true ->
                    focusRect m fx fp = focusRect m fx None).
  { intros m H. unfold focusRect. rewrite H. simpl.
    destruct fx as [l|]; [|discriminate].
    destruct (truthy_num (width m)) as [mw|]; [|reflexivity].
    destruct (truthy_num (height m)) as [mh|]; [|reflexivity].
    now rewrite (rawRect_xyxy_first mw mh l fp None H). }
  assert (Hstage : forall st, has4 fx = true ->
                     focusStage W fx fp st = focusStage W fx None st).
  { intros [b0 m] H. unfold focusStage, applyImageFocus.
    now rewrite (Hrect m H). }
  split.
  - intros H. split; [now apply Hrect|]. split; [now apply Hstage|].
    rewrite !processImageBuffer_eq.
    destruct (sharp_metadata W b) as [m|e]; [|reflexivity].
    unfold bind at 1 3. rewrite (Hstage (b, m) H).
    destruct fx; [reflexivity | discriminate].
  - intros H.
    assert (Hr : forall m, focusRect m fx fp = focusRect m None fp).
    { intros m. unfold focusRect. rewrite H. simpl.
      destruct (negb (has4 fp)); [reflexivity|].
      destruct (truthy_num (width m)) as [mw|]; [|reflexivity].
      destruct (truthy_num (height m)) as [mh|]; [|reflexivity].
      now rewrite (rawRect_skip mw mh fx fp H). }
    split; [apply Hr|].
    unfold focusStage, applyImageFocus. now rewrite Hr.
Qed.

(** C9, as it holds. When neither [focus_xyxy] nor [focal_point] is an
    array of four elements there is no rectangle, [extract] is not called,
    the focus step returns the original image without an error, and the
    pipeline continues with the resize of the original image. The response
    is the one of the call without the two parameters, with the same image
    and the same error flag, except for the advisory note: a parameter
    that is present, whatever its length, removes the note that a large
    image gets. *)
Theorem wrong_length_region_ignored
    (b : Buffer) (fmt mime : jsstring) (extra : option JsObject)
    (fx fp : option (list number)) :
  has4 fx = false -> has4 fp = false ->
  let given := mkPIB b fmt mime fx fp extra in
  let absent := mkPIB b fmt mime None None extra in
  (forall md,
     focusRect md fx fp = None
     /\ applyImageFocus W b md fx fp = Ret None
     /\ focusStage W fx fp (b, md) = Ret (b, md))
  /\ processImageBuffer W cfg given
     = (md <- sharp_metadata W b ;;
        st <- resizeStage W cfg (b, md) ;;
        Ret (compressAndAssemble W cfg given
               (or_zero (width md)) (or_zero (height md)) st))
  /\ (forall e,
        processImageBuffer W cfg absent = Throw e ->
        processImageBuffer W cfg given = Throw e)
  /\ (forall r0,
        processImageBuffer W cfg absent = Ret r0 ->
        exists r md meta,
          processImageBuffer W cfg given = Ret r
          /\ sharp_metadata W b = Ret md
          /\ isError r = isError r0
          /\ image_of r = image_of r0
          /\ metadata_of r = Some meta
          /\ let pixels := or_zero (width md) * or_zero (height md) in
             let note :=
               JString (large_image_info W (or_zero (width md))
                                         (or_zero (height md))) in
             (pixels <= 300000 \/ (fx = None /\ fp = None) -> r = r0)
             /\ (300000 < pixels -> fx <> None \/ fp <> None ->
                 metadata_of r0 = Some (obj_set meta (lit "info") note)
                 /\ (lacks (extra_fields extra) (lit "info") ->
                     obj_get meta (lit "info") = None))).
Proof.
  intros Hx Hp given absent.
  assert (Hnone : forall md, focusRect md fx fp = None).
  { intros md. unfold focusRect. now rewrite Hx, Hp. }
  assert (Hpipe : forall fx' fp',
            has4 fx' = false -> has4 fp' = false ->
            processImageBuffer W cfg (mkPIB b fmt mime fx' fp' extra)
            = (md <- sharp_metadata W b ;;
               st <- resizeStage W cfg (b, md) ;;
               Ret (compressAndAssemble W cfg
                      (mkPIB b fmt mime fx' fp' extra)
                      (or_zero (width md)) (or_zero (height md)) st))).
  { intros fx' fp' Hx' Hp'. rewrite processImageBuffer_eq.
    destruct (sharp_metadata W b) as [md|e]; [|reflexivity].
    unfold bind at 1 3.
    assert (Hn : focusRect md fx' fp' = None)
      by (unfold focusRect; now rewrite Hx', Hp').
    now rewrite (proj2 (focusStage_no_rect fx' fp' b md Hn)). }
  split; [|split; [|split]].
  - intros md. split; [apply Hnone|]. apply focusStage_no_rect, Hnone.
  - now apply Hpipe.
  - subst given absent. rewrite (Hpipe fx fp Hx Hp).
    rewrite (Hpipe None None eq_refl eq_refl).
    intros e. destruct (sharp_metadata W b) as [md|e0]; [|trivial].
    unfold bind at 1 3.
    destruct (resizeStage W cfg (b, md)) as [st|e1]; [discriminate | trivial].
  - subst given absent. rewrite (Hpipe fx fp Hx Hp).
    rewrite (Hpipe None None eq_refl eq_refl).
    intros r0. destruct (sharp_metadata W b) as [md|e0]; [|discriminate].
    unfold bind at 1 3.
    destruct (resizeStage W cfg (b, md)) as [[b2 m2]|e1]; [|discriminate].
    cbn [bind]. intros E. injection E as <-.
    unfold compressAndAssemble, assemble.
    cbn [pib_focus_xyxy pib_focal_point pib_extraMetadata pib_mimeType
         pib_format is_some orb negb].
    fold (extra_fields extra).
    destruct (Z.gtb_spec (or_zero (width md) * or_zero (height md)) 300000)
      as [Hbig | Hsmall].
    + destruct (is_some fx || is_some fp) eqn:Hgiven.
      * eexists _, md, _. cbn [andb negb].
        do 5 (split; [reflexivity|]). cbv zeta. split.
        -- intros [Hle | [-> ->]]; [lia | discriminate].
        -- intros _ _. split; [reflexivity|].
           intros Hl. now rewrite obj_get_spread_lacks by assumption.
      * eexists _, md, _. cbn [andb negb].
        do 5 (split; [reflexivity|]). cbv zeta. split.
        -- reflexivity.
        -- intros _ [H | H]; destruct fx, fp; try discriminate;
             contradiction.
    + eexists _, md, _. rewrite andb_false_l.
      do 5 (split; [reflexivity|]). cbv zeta. split.
      * reflexivity.
      * intros Hlt. lia.
Qed.

End Focus.



(** [focus_xyxy = [2, 0, 6, 1]] with [focal_point = [4, 0, 1, 1]]: the
    response is the one without [focal_point]. *)
Lemma focus_xyxy_takes_precedence_witness :
  let fx := Some [of_Z 2; zero; of_Z 6; one] in
  let fp := Some [of_Z 4; zero; one; one] in
  processImageBuffer Bench.world default_config
    (mkPIB (Bench.raster 8) (lit "png") (lit "image/png") fx fp None)
  = processImageBuffer Bench.world default_config
      (mkPIB (Bench.raster 8) (lit "png") (lit "image/png") fx None None).
Proof.
  intros fx fp.
  apply (proj1 (focus_xyxy_takes_precedence Bench.world default_config
                  (Bench.raster 8) (mkMetadata None None None)
                  (lit "png") (lit "image/png") None fx fp)).
  reflexivity.
Defined.

(** A [focus_xyxy] of three numbers leaves the image as it is. *)
Lemma wrong_length_region_ignored_witness :
  let md := mkMetadata (Some 8) (Some 1) (Some (lit "raw")) in
  focusStage Bench.world (Some [one; of_Z 2; of_Z 3]) None
             (Bench.raster 8, md)
  = Ret (Bench.raster 8, md).
Proof.
  intros md.
  apply (proj1 (wrong_length_region_ignored Bench.world default_config
                  (Bench.raster 8) (lit "png") (lit "image/png") None
                  (Some [one; of_Z 2; of_Z 3]) None eq_refl eq_refl) md).
Defined.

(** The claim "silently ignored" fails for the advisory note. A one-row
    raster of 300001 pixels is a large image: the response of the call
    without region parameters carries the note [info], and the response
    of the call with [focus_xyxy = [1, 2, 3]], or with the empty array,
    does not. *)
Lemma wrong_length_region_drops_note :
  let call fx :=
    run (processImageBuffer Bench.world default_config
           (mkPIB (Bench.raster (Z.to_nat 300001)) (lit "png") (lit "image/png")
                  fx None None)) in
  let info r :=
    match metadata_of r with
    | Some meta => obj_get meta (lit "info")
    | None => None
    end in
  has4 (Some [one; of_Z 2; of_Z 3]) = false
  /\ info (call None) <> None
  /\ info (call (Some [one; of_Z 2; of_Z 3])) = None
  /\ info (call (Some [])) = None
  /\ call (Some [one; of_Z 2; of_Z 3]) <> call None.
Proof.
  vm_compute.
  split; [reflexivity|]. split; [discriminate|].
  split; [reflexivity|]. split; [reflexivity | discriminate].
Qed.

(* ================================================================== *)
(** * Resize and compression *)

Section Pipeline.

Variable W : World.
Variable cfg : Config.





(** Whatever the encoder does, the compression step yields a response
    without the error flag. *)
Lemma compressAndAssemble_success (p : ProcessImageBufferParams)
    (ow oh : Z) (st : Stage) :
  exists meta,
    success (compressAndAssemble W cfg p ow oh st) meta
      (Buffer_toString_base64 W (compressStage W cfg (pib_format p) (fst st)))
      (pib_mimeType p).
Proof.
  destruct st as [b md]. unfold success, compressAndAssemble, assemble.
  eexists. reflexivity.
Qed.

Lemma compressStage_fallback (fmt : jsstring) (b : Buffer) (e : jsstring) :
  compressImage W cfg b fmt = Throw e -> compressStage W cfg fmt b = b.
Proof.
  intros H. unfold compressStage. now rewrite H.
Qed.

(** C7. When the encoder fails on an image that has reached the
    compression step, the failure is not surfaced: the entry point
    returns a successful result (metadata part and image part, no error
    flag) whose image is the pre-compression bytes and whose [size] is
    their length. *)
Theorem compression_failure_not_surfaced
    (p : ProcessImageBufferParams) (md0 md : Metadata) (b : Buffer)
    (e : jsstring) :
  reaches_compression W cfg p md0 (b, md) ->
  compressImage W cfg b (pib_format p) = Throw e ->
  exists meta,
    success (run (processImageBuffer W cfg p)) meta
            (Buffer_toString_base64 W b) (pib_mimeType p).
Proof.
  intros (Hmd0 & st1 & Hfocus & Hresize) Hfail.
  destruct (compressAndAssemble_success p (or_zero (width md0))
              (or_zero (height md0)) (b, md)) as [meta Hok].
  cbn [fst] in Hok. rewrite (compressStage_fallback _ _ Hfail) in Hok.
  exists meta. unfold processImageBuffer.
  rewrite Hmd0. unfold bind at 1. rewrite Hfocus. unfold bind at 1.
  rewrite Hresize. exact Hok.
Qed.

End Pipeline.




(** The concrete world has no AVIF encoder: an [avif] image comes back
    with its bytes as they were before compression. *)
Lemma compression_failure_not_surfaced_witness :
  exists meta,
    success
      (run (processImageBuffer Bench.world default_config
              (mkPIB (Bench.raster 8) (lit "avif") (lit "image/avif")
                     None None None)))
      meta (Bench.to_base64 (Bench.raster 8)) (lit "image/avif").
Proof.
  apply (@compression_failure_not_surfaced Bench.world default_config
           (mkPIB (Bench.raster 8) (lit "avif") (lit "image/avif")
                  None None None)
           (mkMetadata (Some 8) (Some 1) (Some (lit "raw")))
           (mkMetadata (Some 8) (Some 1) (Some (lit "raw")))
           (Bench.raster 8)
           (lit "avif: unsupported codec")).
  - split; [reflexivity|]. eexists. split; reflexivity.
  - reflexivity.
Defined.

(* ================================================================== *)
(** * The legacy size parameters *)

(** C10. The [resize], [max_width] and [max_height] parameters of the
    [extract_image_*] and [extract_pdf_*] entry points have no effect: two
    calls that differ only in these parameters return the same result. *)
Theorem legacy_size_parameters_have_no_effect (W : World) (cfg : Config)
    (r1 r2 : bool) (w1 h1 w2 h2 : Q) (fx fp : option (list number)) :
  (forall path,
     extractImageFromFile W cfg (mkImgFile path r1 w1 h1 fx fp)
     = extractImageFromFile W cfg (mkImgFile path r2 w2 h2 fx fp))
  /\ (forall u,
        extractImageFromUrl W cfg (mkImgUrl u r1 w1 h1 fx fp)
        = extractImageFromUrl W cfg (mkImgUrl u r2 w2 h2 fx fp))
  /\ (forall b64 mime,
        extractImageFromBase64 W cfg (mkImgB64 b64 mime r1 w1 h1 fx fp)
        = extractImageFromBase64 W cfg (mkImgB64 b64 mime r2 w2 h2 fx fp))
  /\ (forall path page,
        PdfUtils.extractPdfFromFile W cfg
          (PdfUtils.mkPdfFile path page r1 w1 h1 fx fp)
        = PdfUtils.extractPdfFromFile W cfg
            (PdfUtils.mkPdfFile path page r2 w2 h2 fx fp))
  /\ (forall u page,
        PdfUtils.extractPdfFromUrl W cfg
          (PdfUtils.mkPdfUrl u page r1 w1 h1 fx fp)
        = PdfUtils.extractPdfFromUrl W cfg
            (PdfUtils.mkPdfUrl u page r2 w2 h2 fx fp))
  /\ (forall b64 page,
        PdfUtils.extractPdfFromBase64 W cfg
          (PdfUtils.mkPdfB64 b64 page r1 w1 h1 fx fp)
        = PdfUtils.extractPdfFromBase64 W cfg
            (PdfUtils.mkPdfB64 b64 page r2 w2 h2 fx fp)).
Proof.
  repeat split; reflexivity.
Qed.

(* ================================================================== *)
(** * The source classifier *)

Section Classifier.

Import ReadVisual.

(** [span] splits the string, its first part satisfies the test and its
    second part does not begin with a character that does; and it is the
    only such split. *)
Lemma span_app (t : char16 -> bool) (s : jsstring) :
  fst (span t s) ++ snd (span t s) = s.
Proof.
  induction s as [|c s IH]; simpl; [reflexivity|].
  destruct (t c); [|reflexivity].
  destruct (span t s) as [a b]. simpl in *. now rewrite IH.
Qed.

Lemma span_all (t : char16 -> bool) (s : jsstring) :
  forallb t (fst (span t s)) = true.
Proof.
  induction s as [|c s IH]; simpl; [reflexivity|].
  destruct (t c) eqn:Hc; [|reflexivity].
  destruct (span t s) as [a b]. simpl in *. now rewrite Hc.
Qed.

Lemma span_stops (t : char16 -> bool) (s : jsstring) :
  stops t (snd (span t s)).
Proof.
  induction s as [|c s IH]; simpl; [exact I|].
  destruct (t c) eqn:Hc; [|exact Hc].
  now destruct (span t s) as [a b].
Qed.

Lemma span_unique (t : char16 -> bool) (a b : jsstring) :
  forallb t a = true -> stops t b -> span t (a ++ b) = (a, b).
Proof.
  induction a as [|c a IH]; simpl.
  - intros _ Hb. destruct b as [|d b]; [reflexivity|].
    simpl in *. now rewrite Hb.
  - intros H Hb. apply andb_true_iff in H. destruct H as [Hc Ha].
    now rewrite Hc, (IH Ha Hb).
Qed.

Lemma str_eqb_eq (a b : jsstring) : str_eqb a b = true <-> a = b.
Proof.
  unfold str_eqb. destruct (list_eq_dec N.eq_dec a b); split; congruence.
Qed.

Lemma forallb_rev (t : char16 -> bool) (s : jsstring) :
  forallb t (rev s) = forallb t s.
Proof.
  apply eq_true_iff_eq. rewrite !forallb_forall.
  split; intros H x Hx; apply H;
    [rewrite <- in_rev | rewrite in_rev]; exact Hx.
Qed.

(** [/^[A-Za-z0-9+/]+={0,2}$/]: one or more characters of the alphabet,
    then at most two [=], and nothing else. *)
Lemma b64_regex_spec (s : jsstring) :
  b64_regex s = true
  <-> exists body pad,
        s = body ++ pad /\ body <> [] /\ forallb is_b64 body = true
        /\ (pad = [] \/ pad = [ch_equals] \/ pad = [ch_equals; ch_equals]).
Proof.
  unfold b64_regex. split.
  - pose proof (span_app is_b64 s) as Happ.
    pose proof (span_all is_b64 s) as Hall.
    destruct (span is_b64 s) as [body pad]. simpl in *.
    destruct body as [|c body]; [discriminate|].
    rewrite !orb_true_iff, !str_eqb_eq. intros Hpad.
    exists (c :: body), pad.
    split; [now symmetry|]. split; [discriminate|].
    split; [exact Hall | tauto].
  - intros (body & pad & -> & Hne & Hall & Hpad).
    rewrite (span_unique is_b64 body pad Hall).
    + destruct body; [contradiction|].
      rewrite !orb_true_iff, !str_eqb_eq. tauto.
    + destruct Hpad as [-> | [-> | ->]]; simpl; auto.
Qed.

(** [/\.[a-zA-Z0-9]+$/]: the string ends in a dot and one or more letters
    or digits. *)
Lemma has_extension_spec (s : jsstring) :
  has_extension s = true
  <-> exists before ext,
        s = before ++ ch_dot :: ext /\ ext <> []
        /\ forallb is_alnum ext = true.
Proof.
  unfold has_extension. split.
  - pose proof (span_app is_alnum (rev s)) as Happ.
    pose proof (span_all is_alnum (rev s)) as Hall.
    destruct (span is_alnum (rev s)) as [ext rest]. simpl in *.
    destruct ext as [|e ext]; [discriminate|].
    destruct rest as [|c rest]; [discriminate|].
    intros Hdot. apply N.eqb_eq in Hdot. subst c.
    exists (rev rest), (rev (e :: ext)). split; [|split].
    + rewrite <- (rev_involutive s), <- Happ.
      rewrite rev_app_distr. simpl rev at 1. now rewrite <- app_assoc.
    + intros Hnil. apply (f_equal (@List.length _)) in Hnil.
      rewrite length_rev in Hnil. discriminate.
    + now rewrite forallb_rev.
  - intros (before & ext & -> & Hne & Hall).
    rewrite rev_app_distr. simpl rev at 1. rewrite <- app_assoc. simpl app.
    rewrite (span_unique is_alnum (rev ext) (ch_dot :: rev before)).
    + destruct (rev ext) eqn:Hrev; [|now rewrite N.eqb_refl].
      apply (f_equal (@List.length _)) in Hrev.
      rewrite length_rev in Hrev. destruct ext; [contradiction|discriminate].
    + now rewrite forallb_rev.
    + reflexivity.
Qed.

(** The tests of [isFilePath], as one disjunction. *)
Lemma isFilePath_eq (s : jsstring) :
  isFilePath s
  = drive_prefix s || startsWith s (lit "\\") || startsWith s (lit "/")
    || dots_then_sep s
    || (has_extension s && negb (includes_char s ch_space)
        && Z.ltb (Js.length s) 500).
Proof.
  unfold isFilePath.
  destruct (drive_prefix s); [reflexivity|].
  destruct (startsWith s (lit "\\")); [reflexivity|].
  destruct (startsWith s (lit "/")); [reflexivity|].
  destruct (dots_then_sep s); [reflexivity|].
  simpl. now destruct (has_extension s && negb (includes_char s ch_space)
                       && Z.ltb (Js.length s) 500).
Qed.

Lemma startsWith_cons (c d : char16) (s p : jsstring) :
  startsWith (d :: s) (c :: p) = N.eqb c d && startsWith s p.
Proof. reflexivity. Qed.

(** A leading [./] or [../] is matched by [/^\.{0,2}[\\\/]/]. *)
Lemma relative_prefix_matches (s : jsstring) :
  startsWith s (lit "./") || startsWith s (lit "../") = true ->
  dots_then_sep s = true.
Proof.
  change (lit "./") with [ch_dot; ch_slash].
  change (lit "../") with [ch_dot; ch_dot; ch_slash].
  destruct s as [|c1 [|c2 [|c3 r]]]; cbn -[N.eqb];
    try discriminate; char_tests; cbn; congruence.
Qed.

(** What [/^\.{0,2}[\\\/]/] matches begins with [/], or with a dot or a
    backslash: a character that is neither white space nor base64. *)
Lemma dots_then_sep_first (s : jsstring) :
  dots_then_sep s = true ->
  startsWith s (lit "/") = true
  \/ exists c rest, s = c :: rest /\ is_space c = false /\ is_b64 c = false.
Proof.
  change (lit "/") with [ch_slash].
  destruct s as [|c1 r]; [discriminate|].
  unfold dots_then_sep, is_sep.
  destruct (N.eqb_spec c1 ch_backslash) as [->|Hb].
  - intros _. right. exists ch_backslash, r. now repeat split.
  - destruct (N.eqb_spec c1 ch_slash) as [->|Hs].
    + intros _. left. reflexivity.
    + destruct (N.eqb_spec c1 ch_dot) as [->|Hd]; [|discriminate].
      intros _. right. exists ch_dot, r. now repeat split.
Qed.

Lemma startsWith_spec (s p : jsstring) :
  startsWith s p = true <-> exists rest, s = p ++ rest.
Proof.
  revert s. induction p as [|c p IH]; intros s; simpl.
  - split; [intros _; now exists s | reflexivity].
  - destruct s as [|d s]; [split; [discriminate | intros [r Hr]; discriminate]|].
    rewrite andb_true_iff, N.eqb_eq, IH. split.
    + intros [-> [rest ->]]. now exists rest.
    + intros [rest Hr]. injection Hr as -> ->. split; [reflexivity|].
      now exists rest.
Qed.

(** The character classes of the embedding are those of the
    specification. *)
Lemma between_iff (lo hi c : N) :
  between lo hi c = true <-> (lo <= c <= hi)%N.
Proof.
  unfold between. now rewrite andb_true_iff, !N.leb_le.
Qed.

Lemma is_alpha_letter (c : char16) : is_alpha c = true <-> letter c.
Proof.
  unfold is_alpha, is_upper, is_lower, letter.
  now rewrite orb_true_iff, !between_iff.
Qed.

Lemma is_alnum_spec (c : char16) :
  is_alnum c = true <-> letter c \/ digit c.
Proof.
  unfold is_alnum, is_digit, digit.
  now rewrite orb_true_iff, is_alpha_letter, between_iff.
Qed.

Lemma is_b64_alphabet (c : char16) : is_b64 c = true <-> base64_alphabet c.
Proof.
  unfold is_b64, base64_alphabet, ch_plus, ch_slash.
  rewrite !orb_true_iff, is_alnum_spec, !N.eqb_eq. tauto.
Qed.

Lemma is_sep_separator (c : char16) : is_sep c = true <-> path_separator c.
Proof.
  unfold is_sep, path_separator, ch_backslash, ch_slash.
  rewrite orb_true_iff, !N.eqb_eq. tauto.
Qed.

Lemma forallb_Forall (t : char16 -> bool) (P : char16 -> Prop)
    (s : jsstring) :
  (forall c, t c = true <-> P c) -> forallb t s = true <-> Forall P s.
Proof.
  intros H. rewrite forallb_forall, Forall_forall.
  split; intros Hs c Hc; apply H, Hs, Hc.
Qed.

(** [\s] is the white space of the specification. *)
Lemma is_space_whitespace (c : char16) : is_space c = whitespace c.
Proof.
  unfold whitespace, existsb.
  repeat match goal with
         | |- context [N.eqb c ?k] =>
             destruct (N.eqb_spec c k) as [->|?]; [reflexivity|]
         end.
  assert (B1 : between 9 13 c = false)
    by (apply not_true_iff_false; rewrite between_iff; lia).
  assert (B2 : between 8192 8202 c = false)
    by (apply not_true_iff_false; rewrite between_iff; lia).
  unfold is_space. rewrite B1, B2.
  repeat match goal with
         | |- context [N.eqb c ?k] =>
             rewrite (proj2 (N.eqb_neq c k)) by assumption
         end.
  reflexivity.
Qed.

Lemma strip_without_whitespace (s : jsstring) :
  strip_whitespace s = without_whitespace s.
Proof.
  unfold strip_whitespace, without_whitespace.
  apply filter_ext. intros c. now rewrite is_space_whitespace.
Qed.

Lemma drive_prefix_spec (s : jsstring) :
  drive_prefix s = true <-> drive_letter_prefix s.
Proof.
  unfold drive_prefix, drive_letter_prefix, ch_colon. split.
  - destruct s as [|c1 [|c2 [|c3 rest]]]; try discriminate.
    rewrite !andb_true_iff, is_alpha_letter, N.eqb_eq, is_sep_separator.
    intros [[H1 ->] H3]. now exists c1, c3, rest.
  - intros (X & sep & rest & -> & HX & Hsep).
    rewrite !andb_true_iff, is_alpha_letter, N.eqb_eq, is_sep_separator.
    tauto.
Qed.

Lemma has_extension_dot_extension (s : jsstring) :
  has_extension s = true <-> dot_extension s.
Proof.
  rewrite has_extension_spec. unfold dot_extension, ch_dot.
  split; intros (stem & ext & E & Hne & Hall); exists stem, ext;
    (split; [exact E|]); (split; [exact Hne|]);
    now apply (forallb_Forall is_alnum _ ext is_alnum_spec).
Qed.

Lemma includes_char_In (s : jsstring) (c : char16) :
  includes_char s c = true <-> In c s.
Proof.
  unfold includes_char. rewrite existsb_exists. split.
  - intros (x & Hin & E). apply N.eqb_eq in E. now subst.
  - intros H. exists c. split; [exact H | apply N.eqb_refl].
Qed.

(** The path shapes of the specification, decided with the tests of the
    code. *)
Lemma path_shape_iff (s : jsstring) :
  path_shape s
  <-> drive_prefix s || startsWith s [92; 92]%N || startsWith s [47]%N
      || startsWith s [46; 47]%N || startsWith s [46; 46; 47]%N
      || (has_extension s && negb (includes_char s ch_space)
          && Z.ltb (Js.length s) 500) = true.
Proof.
  unfold path_shape, begins_with.
  rewrite !orb_true_iff, !andb_true_iff, negb_true_iff,
    drive_prefix_spec, !startsWith_spec, has_extension_dot_extension,
    Z.ltb_lt, <- not_true_iff_false, includes_char_In.
  unfold ch_space. tauto.
Qed.

(** [isValidBase64] decides the plausible base64 of the specification. *)
Lemma isValidBase64_plausible (s : jsstring) :
  isValidBase64 s = true <-> plausible_base64 s.
Proof.
  unfold isValidBase64, plausible_base64.
  rewrite strip_without_whitespace.
  assert (Hregex : b64_regex (without_whitespace s) = true
                   <-> exists body pad,
                         without_whitespace s = body ++ pad
                         /\ body <> [] /\ Forall base64_alphabet body
                         /\ (pad = [] \/ pad = [61]%N \/ pad = [61; 61]%N)).
  { rewrite b64_regex_spec.
    split; intros (body & pad & E & Hne & Hall & Hpad); exists body, pad;
      (split; [exact E|]); (split; [exact Hne|]);
      (split; [|exact Hpad]);
      now apply (forallb_Forall is_b64 _ body is_b64_alphabet). }
  destruct (Z.ltb_spec (Js.length s) 100) as [Hlt | Hge].
  - split; [discriminate | intros [H _]; lia].
  - destruct (Z.eqb_spec (Js.length (without_whitespace s) mod 4) 0)
      as [Hm | Hm]; cbn [negb].
    + rewrite Hregex. tauto.
    + split; [discriminate | intros (_ & H & _); contradiction].
Qed.

(** Text whose first character is neither white space nor of the base64
    alphabet is not plausible base64. *)
Lemma first_char_rules_out_base64 (c : char16) (rest : jsstring) :
  is_space c = false -> is_b64 c = false ->
  ~ plausible_base64 (c :: rest).
Proof.
  intros Hs Hb (_ & _ & body & pad & E & Hne & Hall & _).
  unfold without_whitespace in E. cbn [filter] in E.
  rewrite <- is_space_whitespace, Hs in E. cbn [negb] in E.
  destruct body as [|c0 body]; [contradiction|].
  injection E as <- _. inversion Hall as [|? ? Hc _]; subst.
  apply is_b64_alphabet in Hc. congruence.
Qed.

(** The path shapes of the specification are accepted by [isFilePath];
    what [isFilePath] accepts beyond them (a leading backslash, [.\] or
    [..\]) is not plausible base64. *)
Lemma isFilePath_path_shape (s : jsstring) :
  (path_shape s -> isFilePath s = true)
  /\ (isFilePath s = true -> ~ path_shape s -> ~ plausible_base64 s).
Proof.
  rewrite path_shape_iff, isFilePath_eq.
  change (lit "\\") with [92; 92]%N. change (lit "/") with [47]%N.
  split.
  - intros H. rewrite !orb_true_iff in H. rewrite !orb_true_iff.
    destruct H as [[[[[H|H]|H]|H]|H]|H]; auto.
    + left. right. apply relative_prefix_matches.
      change (lit "./") with [46; 47]%N. now rewrite H.
    + left. right. apply relative_prefix_matches.
      change (lit "../") with [46; 46; 47]%N. rewrite H.
      apply orb_true_r.
  - intros H Hn. apply not_true_iff_false in Hn.
    rewrite !orb_false_iff in Hn.
    destruct Hn as [[[[[Hn1 Hn2] Hn3] Hn4] Hn5] Hn6].
    rewrite Hn1, Hn2, Hn3, Hn6 in H. simpl in H. rewrite orb_false_r in H.
    destruct (dots_then_sep_first s H) as [Hs | (c & rest & -> & Hsp & Hb)].
    + change (lit "/") with [47]%N in Hs. congruence.
    + now apply first_char_rules_out_base64.
Qed.

Lemma url_prefix_iff (s : jsstring) :
  url_prefix s
  <-> startsWith s (lit "http://") || startsWith s (lit "https://") = true.
Proof.
  unfold url_prefix, begins_with.
  now rewrite orb_true_iff, !startsWith_spec.
Qed.

Lemma data_prefix_iff (s : jsstring) :
  data_prefix s <-> startsWith s (lit "data:") = true.
Proof. unfold data_prefix, begins_with. now rewrite startsWith_spec. Qed.

(** The decision list has at most one answer. *)
Lemma classify_unique (s : jsstring) (k k' : SourceKind) :
  classify s k -> classify s k' -> k = k'.
Proof.
  intros H H'. inversion H; inversion H'; subst;
    try reflexivity; contradiction.
Qed.

Variable W : World.

(** C5. The source classifier is a total function of the reference
    alone (the file system does not change its answer) and implements
    the decision order of the specification, first match wins: [http://]
    or [https://] gives Url; else [data:] gives InlineData; else a path
    shape gives FilePath; else plausible base64 gives InlineData; else
    FilePath. The answer of [detectSourceType] is the one the decision
    list gives, and the decision list gives no other. *)
Theorem source_classifier_decision_order (s : jsstring) :
  classify s (kind_of (detectSourceType W s))
  /\ forall k, classify s k -> k = kind_of (detectSourceType W s).
Proof.
  assert (Hcode : classify s (kind_of (detectSourceType W s))).
  { unfold detectSourceType.
    pose proof (url_prefix_iff s) as Hurl.
    destruct (startsWith s (lit "http://") || startsWith s (lit "https://")).
    { apply rule_url. now apply Hurl. }
    assert (Hnu : ~ url_prefix s) by (rewrite Hurl; discriminate).
    pose proof (data_prefix_iff s) as Hdata.
    destruct (startsWith s (lit "data:")).
    { apply rule_data; [exact Hnu | now apply Hdata]. }
    assert (Hnd : ~ data_prefix s) by (rewrite Hdata; discriminate).
    destruct (isFilePath_path_shape s) as [Hshape Hextra].
    pose proof (path_shape_iff s) as Hdec.
    assert (Hcases : path_shape s \/ ~ path_shape s).
    { rewrite Hdec. destruct (_ || _ || _ || _ || _ || _);
        [now left | right; discriminate]. }
    pose proof (isValidBase64_plausible s) as Hb64.
    destruct (isFilePath s) eqn:Hfp.
    - assert (Hfile : classify s FilePath).
      { destruct Hcases as [Hp | Hnp].
        - now apply rule_path.
        - apply rule_default; try assumption. now apply Hextra. }
      now destruct (fs_existsSync W s).
    - assert (Hnp : ~ path_shape s).
      { intros Hp. apply Hshape in Hp. discriminate. }
      destruct (isValidBase64 s).
      + apply rule_base64; try assumption. now apply Hb64.
      + apply rule_default; try assumption.
        rewrite <- Hb64. discriminate. }
  split; [exact Hcode|].
  intros k Hk. exact (classify_unique Hk Hcode).
Qed.

(** Section 8: a reference that begins with [http://] or [https://] is a
    Url, one that begins with [data:] is InlineData, whatever follows. *)
Lemma url_and_data_prefixes (s : jsstring) :
  (startsWith s (lit "http://") = true \/ startsWith s (lit "https://") = true
   -> detectSourceType W s = url)
  /\ (startsWith s (lit "data:") = true -> detectSourceType W s = base64).
Proof.
  unfold detectSourceType. split.
  - intros [H | H]; rewrite H; [reflexivity | now rewrite orb_true_r].
  - intros H. rewrite H.
    assert (Hn : startsWith s (lit "http://") || startsWith s (lit "https://")
                 = false).
    { destruct s as [|c s]; [discriminate|].
      change (lit "data:") with (100%N :: lit "ata:") in H.
      change (lit "http://") with (104%N :: lit "ttp://").
      change (lit "https://") with (104%N :: lit "ttps://").
      rewrite startsWith_cons in *.
      apply andb_true_iff in H. destruct H as [Hd _].
      apply N.eqb_eq in Hd. subst c. reflexivity. }
    now rewrite Hn.
Qed.

End Classifier.

(* ================================================================== *)
(** * Documents: the page bounds *)

Section Documents.

Import ReadVisual.

Variable W : World.
Variable cfg : Config.

(** The message of the out-of-range error names both numbers. *)
Lemma out_of_range_names_both (prefix : jsstring) (pageNum pageCount : Z) :
  includes (prefix ++ out_of_range pageNum pageCount) (String_of_Z pageNum)
  /\ includes (prefix ++ out_of_range pageNum pageCount)
              (String_of_Z pageCount)
  /\ includes (prefix ++ out_of_range pageNum pageCount)
              (lit "out of range").
Proof.
  unfold out_of_range. repeat split.
  - exists (prefix ++ lit "Page "),
      (lit " is out of range. Document has " ++ String_of_Z pageCount
       ++ lit " page(s).").
    now rewrite <- !app_assoc.
  - exists (prefix ++ lit "Page " ++ String_of_Z pageNum
            ++ lit " is out of range. Document has "),
      (lit " page(s).").
    now rewrite <- !app_assoc.
  - exists (prefix ++ lit "Page " ++ String_of_Z pageNum ++ lit " is "),
      (lit ". Document has " ++ String_of_Z pageCount ++ lit " page(s).").
    now rewrite <- !app_assoc.
Qed.

(** [renderPdfPage] on a document of [n] pages. *)
Lemma renderPdfPage_bounds (input : jsstring) (pageNum dpi : Z)
    (doc : PdfDoc) (n : Z) :
  pdf W input (inject_Z dpi / 72)%Q = Ret doc ->
  doc_length doc = Some n -> n <> 0 ->
  (pageNum < 1 \/ n < pageNum ->
   renderPdfPage W input pageNum dpi = Throw (out_of_range pageNum n))
  /\ (1 <= pageNum <= n ->
      renderPdfPage W input pageNum dpi
      = (pageData <- getPage doc pageNum ;; Ret (pageData, n))).
Proof.
  intros Hdoc Hlen Hn. unfold renderPdfPage. rewrite Hdoc. simpl.
  rewrite Hlen. simpl.
  destruct (Z.eqb_spec n 0); [contradiction|].
  destruct (Z.ltb_spec pageNum 1); destruct (Z.gtb_spec pageNum n); simpl;
    split; intros; try reflexivity; lia.
Qed.

(** Document content goes to [processPdf]. *)
Lemma readVisual_document (p : ReadVisualParams) (input : jsstring) :
  document_input W cfg p input ->
  readVisual W cfg p = run (processPdf W cfg input p).
Proof.
  intros H. unfold readVisual.
  destruct H as [buf Hk Hex Hread Hsize Hpdf
                | resp Hk Hdom Hget Hsize Hpdf
                | b64 mime Hk Hsrc Hvalid Hsize Hpdf]; rewrite Hk.
  - unfold handleFile. rewrite Hex, Hread. simpl.
    destruct (Z.gtb_spec (blength buf) (MAX_IMAGE_SIZE cfg)); [lia|].
    now rewrite Hpdf.
  - unfold handleUrl. rewrite Hdom, Hget. simpl.
    destruct (Z.gtb_spec (blength (resp_data resp)) (MAX_IMAGE_SIZE cfg));
      [lia|].
    now rewrite Hpdf.
  - unfold handleBase64. rewrite Hsrc, Hvalid. simpl.
    destruct (Z.eqb_spec (blength (Buffer_from_base64 W b64)) 0); [lia|].
    destruct (Z.gtb_spec (blength (Buffer_from_base64 W b64))
                         (MAX_IMAGE_SIZE cfg)); [lia|].
    now rewrite Hpdf.
Qed.

(** The response assembled for a page of a document carries the page
    count as [totalPages]. *)
Lemma assemble_totalPages (ow oh : Z) (hasFocus : bool) (page n dpi : Z)
    (mime : jsstring) (b : Buffer) (md : Metadata) :
  exists meta,
    success (assemble W ow oh hasFocus
               (Some (pdf_extraMetadata page n dpi)) mime b md)
            meta (Buffer_toString_base64 W b) mime
    /\ obj_get meta (lit "totalPages") = Some (JNumber n).
Proof.
  unfold assemble, success.
  destruct (Z.gtb (ow * oh) 300000 && negb hasFocus).
  - eexists. split; [reflexivity|].
    rewrite obj_get_set_other by discriminate. reflexivity.
  - eexists. split; reflexivity.
Qed.

(** A response of [processImageBuffer] is the one assembled after the
    compression step. *)
Lemma processImageBuffer_ret (p : ProcessImageBufferParams)
    (r : McpToolResponse) :
  processImageBuffer W cfg p = Ret r ->
  exists md0 st,
    reaches_compression W cfg p md0 st
    /\ r = compressAndAssemble W cfg p (or_zero (width md0))
                               (or_zero (height md0)) st.
Proof.
  unfold processImageBuffer, reaches_compression.
  destruct (sharp_metadata W (pib_imageBuffer p)) as [md0|e];
    [|discriminate].
  unfold bind at 1.
  destruct (focusStage W (pib_focus_xyxy p) (pib_focal_point p)
                       (pib_imageBuffer p, md0)) as [st1|e] eqn:Hf;
    [|discriminate].
  unfold bind at 1.
  destruct (resizeStage W cfg st1) as [st2|e] eqn:Hr; [|discriminate].
  unfold bind. intros E. injection E as <-.
  exists md0, st2. split; [|reflexivity].
  split; [reflexivity|]. exists st1. now split.
Qed.

(** C3, as the code has it. For a document whose page count [n] can be
    determined: a page outside [1, n] yields an error result whose
    message contains the requested page and [n]; a page inside the range
    yields, whenever the page is rendered and the image pipeline returns,
    a successful result whose metadata has [totalPages = n]; and when
    the renderer fails on a page inside the range, its failure is the
    error result. *)
Theorem page_bounds_checked (p : ReadVisualParams) (input : jsstring)
    (doc : PdfDoc) (n : Z) :
  document_input W cfg p input ->
  page_count W cfg p input doc n ->
  (page_of p < 1 \/ n < page_of p ->
   exists msg,
     failure (readVisual W cfg p) msg
     /\ includes msg (String_of_Z (page_of p))
     /\ includes msg (String_of_Z n))
  /\ (1 <= page_of p <= n ->
      (forall pngBuffer r,
         getPage doc (page_of p) = Ret pngBuffer ->
         processImageBuffer W cfg
           (mkPIB pngBuffer (lit "png") (lit "image/png")
                  (focus_xyxy p) (focal_point p)
                  (Some (pdf_extraMetadata (page_of p) n (dpi_of cfg p))))
         = Ret r ->
         readVisual W cfg p = r
         /\ exists meta data,
             success r meta data (lit "image/png")
             /\ obj_get meta (lit "totalPages") = Some (JNumber n))
      /\ (forall e,
            getPage doc (page_of p) = Throw e ->
            failure (readVisual W cfg p) (lit "Error: " ++ e))).
Proof.
  intros Hdoc (Hopen & Hlen & Hn).
  rewrite (readVisual_document Hdoc).
  destruct (renderPdfPage_bounds input (page_of p) (dpi_of cfg p)
                                 Hopen Hlen Hn) as [Hout Hin].
  unfold processPdf. fold (page_of p). fold (dpi_of cfg p).
  split.
  - intros Hrange. rewrite (Hout Hrange).
    exists (lit "Error: " ++ out_of_range (page_of p) n).
    split; [reflexivity|].
    split; apply out_of_range_names_both.
  - intros Hrange. rewrite (Hin Hrange). split.
    + intros png r Hpage Hpipe. rewrite Hpage. simpl bind.
      rewrite Hpipe. split; [reflexivity|].
      destruct (processImageBuffer_ret _ Hpipe) as (md0 & [b md] & _ & ->).
      unfold compressAndAssemble. cbn [pib_extraMetadata pib_mimeType].
      destruct (assemble_totalPages (or_zero (width md0))
                  (or_zero (height md0))
                  (is_some (focus_xyxy p) || is_some (focal_point p))
                  (page_of p) n (dpi_of cfg p) (lit "image/png")
                  (compressStage W cfg (lit "png") b) md)
        as (meta & Hok & Htotal).
      exists meta. eexists. split; [exact Hok | exact Htotal].
    + intros e Hpage. rewrite Hpage. reflexivity.
Qed.

End Documents.

(** [/doc.pdf] and [/damaged.pdf] of the concrete world are document
    content with three pages. *)
Lemma Bench_document (path : jsstring) (page : option Z) :
  path = lit "/doc.pdf" \/ path = lit "/damaged.pdf" ->
  let p := ReadVisual.mkParams path page None None None None in
  document_input Bench.world default_config p path
  /\ exists doc, page_count Bench.world default_config p path doc 3.
Proof.
  intros [-> | ->] p; (split;
    [ apply (@document_file Bench.world default_config p Bench.pdf_magic);
      try reflexivity; unfold blength; simpl; lia
    | eexists; split; [reflexivity | split; [reflexivity | lia]] ]).
Qed.

(** Page 0 of the three pages of [/doc.pdf] is refused with both numbers
    in the message (scenario F); page 2 is returned with
    [totalPages = 3]. *)
Lemma page_bounds_checked_witness :
  let request n :=
    ReadVisual.mkParams (lit "/doc.pdf") (Some n) None None None None in
  (exists msg,
     failure (ReadVisual.readVisual Bench.world default_config (request 0)) msg
     /\ includes msg (String_of_Z 0) /\ includes msg (String_of_Z 3))
  /\ (exists meta data,
        success (ReadVisual.readVisual Bench.world default_config (request 2))
                meta data (lit "image/png")
        /\ obj_get meta (lit "totalPages") = Some (JNumber 3)).
Proof.
  intros request. split.
  - destruct (Bench_document (Some 0) (or_introl eq_refl))
      as [Hdoc [doc Hcount]].
    apply (proj1 (page_bounds_checked Hdoc Hcount)).
    left. unfold page_of. cbn. lia.
  - destruct (Bench_document (Some 2) (or_introl eq_refl))
      as [Hdoc [doc Hcount]].
    assert (Hdoc3 : doc = mkPdfDoc (Some 3) (fun _ => Ret (Bench.raster 600))).
    { destruct Hcount as [Hopen _]. now injection Hopen as <-. }
    subst doc.
    assert (Hrange : 1 <= page_of (request 2) <= 3)
      by (unfold page_of; cbn; lia).
    destruct (proj2 (page_bounds_checked Hdoc Hcount) Hrange) as [Hok _].
    destruct (Hok (Bench.raster 600)
                  (run (processImageBuffer Bench.world default_config
                          (mkPIB (Bench.raster 600) (lit "png")
                                 (lit "image/png") None None
                                 (Some (ReadVisual.pdf_extraMetadata 2 3 150)))))
                  eq_refl eq_refl)
      as [E (meta & data & Hs & Ht)].
    exists meta, data. split; [|exact Ht].
    unfold request. rewrite E. exact Hs.
Defined.

(** C3 as the specification states it fails: page 1 of
    [/damaged.pdf] is inside the range [1, 3] of a document whose page
    count is determined, and the result is an error, because the renderer
    fails on the page. *)
Lemma page_in_range_render_failure :
  let p := ReadVisual.mkParams (lit "/damaged.pdf") (Some 1)
                               None None None None in
  document_input Bench.world default_config p (lit "/damaged.pdf")
  /\ (exists doc,
        page_count Bench.world default_config p (lit "/damaged.pdf") doc 3)
  /\ 1 <= page_of p <= 3
  /\ isError (ReadVisual.readVisual Bench.world default_config p) = true
  /\ forall meta data mime,
       ~ success (ReadVisual.readVisual Bench.world default_config p)
                 meta data mime.
Proof.
  intros p.
  destruct (Bench_document (Some 1) (or_intror eq_refl)) as [Hdoc Hcount].
  split; [exact Hdoc|]. split; [exact Hcount|].
  split; [unfold page_of; cbn; lia|]. split; [reflexivity|].
  intros meta data mime Hs. unfold success in Hs.
  apply (f_equal isError) in Hs. discriminate Hs.
Qed.

(* ================================================================== *)
(** * Inline data: the validation of base64 *)

Section InlineData.

Variable W : World.
Variable cfg : Config.

Lemma invalid_encoding_intro (msg : jsstring) :
  includes msg (lit "Invalid base64 string") ->
  invalid_encoding (error_response msg).
Proof.
  intros H. split; [reflexivity|]. exists msg. now split.
Qed.

Lemma invalid_message_plain :
  includes (lit "Error: Invalid base64 string")
           (lit "Invalid base64 string").
Proof. now exists (lit "Error: "), []. Qed.

Lemma invalid_message_empty :
  includes (lit "Error: Invalid base64 string - decoded to empty buffer")
           (lit "Invalid base64 string").
Proof. now exists (lit "Error: "), (lit " - decoded to empty buffer"). Qed.

(** Text that fails the structural validation of the specification fails
    the two validators of the code. *)
Lemma structurally_invalid_rejected (s : jsstring) :
  structurally_valid s = false ->
  ReadVisual.isValidBase64 s = false /\ PdfUtils.isValidBase64 s = false.
Proof.
  unfold structurally_valid, ReadVisual.isValidBase64,
    PdfUtils.isValidBase64, PdfUtils.cleanBase64.
  intros H. split.
  - destruct (Z.ltb (Js.length s) 100); [reflexivity|].
    destruct (Z.eqb (Js.length (strip_whitespace s) mod 4) 0);
      [exact H | reflexivity].
  - destruct (Z.eqb (Js.length (strip_whitespace s)) 0); [reflexivity|].
    destruct (Z.eqb (Js.length (strip_whitespace s) mod 4) 0);
      [exact H | reflexivity].
Qed.

(** [handleBase64] of read-visual.ts validates: text that fails the
    structural validation, or that decodes to nothing, is an
    invalid-base64 error. *)
Lemma handleBase64_validates (p : ReadVisual.ReadVisualParams)
    (base64Data mimeType : jsstring) :
  ReadVisual.base64_of_source p = Some (base64Data, mimeType) ->
  structurally_valid base64Data = false
  \/ blength (Buffer_from_base64 W base64Data) = 0 ->
  invalid_encoding (run (ReadVisual.handleBase64 W cfg p)).
Proof.
  intros Hsrc Hbad. unfold ReadVisual.handleBase64. rewrite Hsrc.
  destruct (ReadVisual.isValidBase64 base64Data) eqn:Hv; simpl.
  - destruct Hbad as [Hs | Hempty].
    + destruct (structurally_invalid_rejected _ Hs). congruence.
    + rewrite Hempty. simpl.
      apply invalid_encoding_intro, invalid_message_empty.
  - apply invalid_encoding_intro, invalid_message_plain.
Qed.

(** [extractPdfFromBase64] of pdf-utils.ts validates as well. *)
Lemma extractPdfFromBase64_validates
    (p : PdfUtils.ExtractPdfFromBase64Params) :
  structurally_valid (PdfUtils.pb_base64 p) = false
  \/ blength (Buffer_from_base64 W
                (PdfUtils.cleanBase64 (PdfUtils.pb_base64 p))) = 0 ->
  invalid_encoding (PdfUtils.extractPdfFromBase64 W cfg p).
Proof.
  intros Hbad. unfold PdfUtils.extractPdfFromBase64.
  destruct (PdfUtils.isValidBase64 (PdfUtils.pb_base64 p)) eqn:Hv; simpl.
  - destruct Hbad as [Hs | Hempty].
    + destruct (structurally_invalid_rejected _ Hs). congruence.
    + rewrite Hempty. simpl.
      apply invalid_encoding_intro, invalid_message_empty.
  - apply invalid_encoding_intro, invalid_message_plain.
Qed.

(** [extractImageFromBase64] reports text that decodes to nothing. *)
Lemma extractImageFromBase64_empty (p : ExtractImageFromBase64Params) :
  blength (Buffer_from_base64 W (ib_base64 p)) = 0 ->
  invalid_encoding (extractImageFromBase64 W cfg p).
Proof.
  intros Hempty. unfold extractImageFromBase64. rewrite Hempty. simpl.
  apply invalid_encoding_intro.
  now exists (lit "Error: "),
    (lit " - Invalid base64 string - decoded to empty buffer").
Qed.

(** C6, where the code departs from the specification.
    [extractImageFromBase64]
    never looks at the structure of the text: whenever the lenient
    decoder returns bytes that sharp can read, the call goes on to the
    image pipeline, also for text that fails the structural validation
    (its [catch] for invalid base64 is reached only from the empty
    buffer). *)
Theorem extractImageFromBase64_skips_validation
    (p : ExtractImageFromBase64Params) (md : Metadata) :
  structurally_valid (ib_base64 p) = false ->
  0 < blength (Buffer_from_base64 W (ib_base64 p)) <= MAX_IMAGE_SIZE cfg ->
  sharp_metadata W (Buffer_from_base64 W (ib_base64 p)) = Ret md ->
  extractImageFromBase64 W cfg p
  = run (processImageBuffer W cfg
           (mkPIB (Buffer_from_base64 W (ib_base64 p))
                  (or_str (format md)
                          (or_str (split_slash_1 (ib_mime_type p))
                                  (lit "jpeg")))
                  (ib_mime_type p)
                  (ib_focus_xyxy p) (ib_focal_point p) None)).
Proof.
  intros _ [Hpos Hmax] Hmd. unfold extractImageFromBase64.
  destruct (Z.eqb_spec (blength (Buffer_from_base64 W (ib_base64 p))) 0);
    [lia|].
  destruct (Z.gtb_spec (blength (Buffer_from_base64 W (ib_base64 p)))
                       (MAX_IMAGE_SIZE cfg)); [lia|].
  now rewrite Hmd.
Qed.

End InlineData.

(** The text [gIC] has three characters, so it fails the structural
    validation; the decoder reads two bytes from it, and
    [extractImageFromBase64] returns a successful result where the other
    two entry points report invalid base64. *)
Lemma extractImageFromBase64_skips_validation_witness :
  let p := mkImgB64 (lit "gIC") (lit "image/png") true 512 512 None None in
  structurally_valid (lit "gIC") = false
  /\ (exists meta data,
        success (extractImageFromBase64 Bench.world default_config p)
                meta data (lit "image/png"))
  /\ invalid_encoding
       (PdfUtils.extractPdfFromBase64 Bench.world default_config
          (PdfUtils.mkPdfB64 (lit "gIC") 1 true 512 512 None None)).
Proof.
  intros p. split; [reflexivity|]. split.
  - rewrite (@extractImageFromBase64_skips_validation
               Bench.world default_config p
               (mkMetadata (Some 2) (Some 1) (Some (lit "raw")))
               eq_refl);
      [ | unfold blength; simpl; lia | reflexivity ].
    eexists. eexists. reflexivity.
  - apply extractPdfFromBase64_validates. left. reflexivity.
Defined.

(* ================================================================== *)
(** * The tests of the repository, replayed on the model *)

(** tests/read-visual.test.ts, [describe('detectSourceType')]. *)
Example test_detects_http_urls :
  ReadVisual.detectSourceType Bench.world (lit "http://example.com/image.png")
  = ReadVisual.url
  /\ ReadVisual.detectSourceType Bench.world
       (lit "https://example.com/image.pdf") = ReadVisual.url.
Proof. split; reflexivity. Qed.

Example test_detects_data_urls :
  ReadVisual.detectSourceType Bench.world
    (lit "data:image/png;base64,iVBORw0KGgo=") = ReadVisual.base64
  /\ ReadVisual.detectSourceType Bench.world
       (lit "data:application/pdf;base64,JVBERi0=") = ReadVisual.base64.
Proof. split; reflexivity. Qed.

Example test_detects_windows_paths :
  ReadVisual.detectSourceType Bench.world (lit "C:\Users\test\image.png")
  = ReadVisual.file
  /\ ReadVisual.detectSourceType Bench.world (lit "D:/Documents/doc.pdf")
     = ReadVisual.file.
Proof. split; reflexivity. Qed.

Example test_detects_unix_and_relative_paths :
  ReadVisual.detectSourceType Bench.world (lit "/home/user/image.jpg")
  = ReadVisual.file
  /\ ReadVisual.detectSourceType Bench.world (lit "./test.png")
     = ReadVisual.file
  /\ ReadVisual.detectSourceType Bench.world (lit "../folder/doc.pdf")
     = ReadVisual.file.
Proof. repeat split; reflexivity. Qed.

Example test_detects_raw_base64 :
  ReadVisual.detectSourceType Bench.world
    (lit "YWFhYWFhYWFhYWFhYWFhYWFhYWFhYWFhYWFhYWFhYWFhYWFhYWFhYWFhYWFhYWFhYWFhYWFhYWFhYWFhYWFhYWFhYWFhYWFhYWFhYWFhYWFhYWFhYWFhYWFhYWFhYWFhYWFhYQ==")
  = ReadVisual.base64.
Proof. reflexivity. Qed.

Example test_falls_back_to_file :
  ReadVisual.detectSourceType Bench.world (lit "some_file.jpg")
  = ReadVisual.file
  /\ ReadVisual.detectSourceType Bench.world
       (lit "ftp://invalid-protocol.com/file.png") = ReadVisual.file.
Proof. split; reflexivity. Qed.

(** tests/read-visual.test.ts, [describe('readVisual')]: a file that does
    not exist (scenario E) and a data URL that does not parse. *)
Example test_missing_file :
  let r := ReadVisual.readVisual Bench.world default_config
             (ReadVisual.mkParams (lit "C:\nonexistent\file.png")
                                  None None None None None) in
  isError r = true
  /\ exists msg, failure r msg
                 /\ includesb msg (lit "does not exist") = true.
Proof. split; [reflexivity|]. eexists. split; reflexivity. Qed.

Example test_invalid_data_url :
  ReadVisual.readVisual Bench.world default_config
    (ReadVisual.mkParams (lit "data:invalid-format") None None None None None)
  = error_response (lit "Error: Invalid data URL format").
Proof. reflexivity. Qed.

(** tests/focus-test.ts and scenarios A to D: the four regions on an image
    of 100 x 100 pixels. *)
Example test_focus_regions :
  let md := mkMetadata (Some 100) (Some 100) (Some (lit "png")) in
  let square at_ side :=
    Some (mkRect (of_Z at_) (of_Z at_) (of_Z side) (of_Z side)) in
  focusRect md (Some [of_Z 10; of_Z 10; of_Z 60; of_Z 60]) None
  = square 10 50
  /\ focusRect md (Some [literal (1 # 10); literal (1 # 10);
                         literal (6 # 10); literal (6 # 10)]) None
     = square 10 50
  /\ focusRect md None (Some [of_Z 50; of_Z 50; of_Z 20; of_Z 20])
     = square 30 40
  /\ focusRect md None (Some [literal (5 # 10); literal (5 # 10);
                              literal (2 # 10); literal (2 # 10)])
     = square 30 40.
Proof. repeat split; vm_compute; reflexivity. Qed.

(** The rounding of the arithmetic shows in the rectangle. The literal
    0.015 denotes a value just below 15/1000; its product with 100 rounds
    to 1.5, which [Math.round] takes to 2 (the exact product would go to
    1); the width [Math.round((1 - 0.015) * 100)] is 99, which the clamp
    cuts to 98. *)
Example test_rounded_products :
  let md := mkMetadata (Some 100) (Some 100) (Some (lit "png")) in
  num_mul (literal (15 # 1000)) (of_Z 100) = Fin (3 # 2)
  /\ rawRect 100 100 (Some [literal (15 # 1000); zero; one; one]) None
     = Some (mkRect (of_Z 2) zero (of_Z 99) (of_Z 100))
  /\ focusRect md (Some [literal (15 # 1000); zero; one; one]) None
     = Some (mkRect (of_Z 2) zero (of_Z 98) (of_Z 100)).
Proof. repeat split; vm_compute; reflexivity. Qed.

(** In ratio mode the width of a [focus_xyxy] is the rounded product of
    the extent [x2 - x1], not the difference of the products of [x2] and
    [x1]. The two agree in exact arithmetic and can differ by a pixel in
    binary64: for [0.01, 0, 0.06, 1] on 10 x 10 pixels the extent
    [0.06 - 0.01] is just below 0.05, its product rounds to 0 and the
    region is not cropped, where [0.6 - 0.1] is 0.5 and rounds to 1. *)
Example test_scaled_extent :
  let md := mkMetadata (Some 10) (Some 10) (Some (lit "png")) in
  let region := [literal (1 # 100); zero; literal (6 # 100); one] in
  isRatio region = true
  /\ rawRect 10 10 (Some region) None
     = Some (mkRect zero zero zero (of_Z 10))
  /\ focusRect md (Some region) None = None
  /\ xyxy_rect RatioMode 10 10 (literal (1 # 100), zero, literal (6 # 100), one)
     = mkRect zero zero one (of_Z 10).
Proof. repeat split; vm_compute; reflexivity. Qed.

(* ================================================================== *)
(** * Further properties of the region of interest *)

Lemma isRatio_exceeds (vs : list number) :
  Exists exceeds_one vs -> isRatio vs = false.
Proof.
  intros H. apply isRatio_false. now apply exceeds_one_not_unit.
Qed.

Lemma focusRect_eq (md : Metadata) (fx fp : option (list number)) (mw mh : Z)
    (raw : Rect) :
  truthy_num (width md) = Some mw ->
  truthy_num (height md) = Some mh ->
  rawRect mw mh fx fp = Some raw ->
  focusRect md fx fp
  = if num_lt zero (rwidth (clampRect mw mh raw))
       && num_lt zero (rheight (clampRect mw mh raw))
    then Some (clampRect mw mh raw) else None.
Proof.
  intros Hw Hh Hraw. unfold focusRect.
  destruct (negb (has4 fx) && negb (has4 fp)) eqn:Hlen.
  - apply andb_true_iff in Hlen. destruct Hlen as [Hx Hp].
    apply negb_true_iff in Hx. apply negb_true_iff in Hp.
    rewrite (rawRect_skip mw mh fx fp Hx) in Hraw.
    destruct fp as [[|a [|b [|c [|d [|e l]]]]]|]; simpl in *; discriminate.
  - now rewrite Hw, Hh, Hraw.
Qed.

Lemma clampRect_inside (mw mh : Z) (r : Rect) :
  num_le zero (left r) = true -> num_le zero (top r) = true ->
  num_le (num_add (left r) (rwidth r)) (of_Z mw) = true ->
  num_le (num_add (top r) (rheight r)) (of_Z mh) = true ->
  clampRect mw mh r = r.
Proof.
  destruct r as [l t w h]. unfold clampRect. cbn [left top rwidth rheight].
  intros Hl Ht Hw Hh.
  rewrite (Math_max_zero_above l Hl), (Math_max_zero_above t Ht).
  now rewrite (num_le_lt _ _ Hw), (num_le_lt _ _ Hh).
Qed.

(** Clamping is idempotent, and it leaves alone a rectangle that already
    lies within the image: for every rectangle of numbers, NaN and the
    infinities included, with the sums as the code computes them. *)
Theorem clampRect_stable (mw mh : Z) (r : Rect) :
  clampRect mw mh (clampRect mw mh r) = clampRect mw mh r
  /\ (num_le zero (left r) = true -> num_le zero (top r) = true ->
      num_le (num_add (left r) (rwidth r)) (of_Z mw) = true ->
      num_le (num_add (top r) (rheight r)) (of_Z mh) = true ->
      clampRect mw mh r = r).
Proof.
  split; [|apply clampRect_inside].
  destruct r as [l t w h]. unfold clampRect. cbn [left top rwidth rheight].
  rewrite !Math_max_idempotent.
  set (L := Math_max zero l). set (T := Math_max zero t).
  destruct (num_lt (of_Z mw) (num_add L w)) eqn:Hw;
    destruct (num_lt (of_Z mh) (num_add T h)) eqn:Hh;
    rewrite ?Hw, ?Hh; f_equal;
    repeat match goal with
           | |- context [if ?c then _ else _] => destruct c
           end; reflexivity.
Qed.

Lemma clampRect_stable_witness :
  let r := mkRect (of_Z 10) (of_Z 10) (of_Z 50) (of_Z 50) in
  clampRect 100 100 r = r.
Proof.
  intros r. apply (proj2 (clampRect_stable 100 100 r)); vm_compute; reflexivity.
Defined.

(** A pixel rectangle with whole coordinates that lies within the image is
    cropped exactly: left = x1, top = y1, width = x2 - x1 and
    height = y2 - y1, without clamping. The sides of the image are below
    [2 ** 53], so that every number involved is exact. *)
Theorem pixel_rectangle_cropped_exactly (md : Metadata) (mw mh : Z)
    (x1 y1 x2 y2 : Z) (fp : option (list number)) :
  truthy_num (width md) = Some mw ->
  truthy_num (height md) = Some mh ->
  mw < 2 ^ 53 -> mh < 2 ^ 53 ->
  0 <= x1 < x2 -> x2 <= mw ->
  0 <= y1 < y2 -> y2 <= mh ->
  1 < x2 \/ 1 < y2 ->
  focusRect md (Some [of_Z x1; of_Z y1; of_Z x2; of_Z y2]) fp
  = Some (mkRect (of_Z x1) (of_Z y1) (of_Z (x2 - x1)) (of_Z (y2 - y1))).
Proof.
  intros Hw Hh Bw Bh Hx Hxw Hy Hyh Hpix.
  assert (Hmode : isRatio [of_Z x1; of_Z y1; of_Z x2; of_Z y2] = false).
  { apply isRatio_exceeds. unfold exceeds_one. change one with (of_Z 1).
    destruct Hpix as [H | H].
    - do 2 apply Exists_cons_tl. apply Exists_cons_hd.
      rewrite num_lt_of_Z. now apply Z.ltb_lt.
    - do 3 apply Exists_cons_tl. apply Exists_cons_hd.
      rewrite num_lt_of_Z. now apply Z.ltb_lt. }
  assert (Hraw : rawRect mw mh (Some [of_Z x1; of_Z y1; of_Z x2; of_Z y2]) fp
                 = Some (mkRect (of_Z x1) (of_Z y1)
                                (of_Z (x2 - x1)) (of_Z (y2 - y1)))).
  { unfold rawRect. rewrite Hmode.
    rewrite !num_sub_of_Z by lia. now rewrite !Math_round_of_Z. }
  rewrite (focusRect_eq md _ fp Hw Hh Hraw).
  rewrite clampRect_inside; cbn [left top rwidth rheight].
  - change zero with (of_Z 0). rewrite !num_lt_of_Z.
    destruct (Z.ltb_spec 0 (x2 - x1)); destruct (Z.ltb_spec 0 (y2 - y1));
      try lia. reflexivity.
  - change zero with (of_Z 0). rewrite num_le_of_Z. apply Z.leb_le. lia.
  - change zero with (of_Z 0). rewrite num_le_of_Z. apply Z.leb_le. lia.
  - rewrite num_add_of_Z by lia. rewrite num_le_of_Z. apply Z.leb_le. lia.
  - rewrite num_add_of_Z by lia. rewrite num_le_of_Z. apply Z.leb_le. lia.
Qed.

(** Scenario A, on any image of 100 x 100 pixels. *)
Lemma pixel_rectangle_cropped_exactly_witness :
  focusRect (mkMetadata (Some 100) (Some 100) None)
    (Some [of_Z 10; of_Z 10; of_Z 60; of_Z 60]) None
  = Some (mkRect (of_Z 10) (of_Z 10) (of_Z (60 - 10)) (of_Z (60 - 10))).
Proof.
  apply (@pixel_rectangle_cropped_exactly
           (mkMetadata (Some 100) (Some 100) None) 100 100 10 10 60 60 None);
    try reflexivity; lia.
Defined.

(** The region [0, 0, 1, 1] is read as ratios (also when the caller meant
    one pixel in absolute coordinates) and selects the whole image. *)
Theorem unit_rectangle_is_whole_image (md : Metadata) (mw mh : Z)
    (fp : option (list number)) :
  truthy_num (width md) = Some mw ->
  truthy_num (height md) = Some mh ->
  0 < mw < 2 ^ 53 -> 0 < mh < 2 ^ 53 ->
  focusRect md (Some [zero; zero; one; one]) fp
  = Some (mkRect zero zero (of_Z mw) (of_Z mh)).
Proof.
  intros Hw Hh Hpw Hph.
  assert (Hraw : rawRect mw mh (Some [zero; zero; one; one]) fp
                 = Some (mkRect zero zero (of_Z mw) (of_Z mh))).
  { unfold rawRect. change (isRatio [zero; zero; one; one]) with true.
    cbv iota zeta. change zero with (of_Z 0). change one with (of_Z 1).
    rewrite !num_sub_of_Z by (simpl; lia).
    rewrite !num_mul_of_Z by lia.
    rewrite !Math_round_of_Z.
    now replace (0 * mw) with 0 by lia; replace (0 * mh) with 0 by lia;
      replace ((1 - 0) * mw) with mw by lia;
      replace ((1 - 0) * mh) with mh by lia. }
  rewrite (focusRect_eq md _ fp Hw Hh Hraw).
  rewrite clampRect_inside; cbn [left top rwidth rheight];
    change zero with (of_Z 0);
    rewrite ?num_add_of_Z by lia; rewrite ?num_le_of_Z, ?num_lt_of_Z;
    try (apply Z.leb_le; lia).
  destruct (Z.ltb_spec 0 mw); destruct (Z.ltb_spec 0 mh); try lia.
  reflexivity.
Qed.

Lemma unit_rectangle_is_whole_image_witness :
  focusRect (mkMetadata (Some 640) (Some 480) None)
            (Some [zero; zero; one; one]) None
  = Some (mkRect zero zero (of_Z 640) (of_Z 480)).
Proof.
  apply (@unit_rectangle_is_whole_image
           (mkMetadata (Some 640) (Some 480) None) 640 480 None);
    try reflexivity; lia.
Defined.

(** A difference of [x <= y] is not positive (it is NaN for two equal
    infinities). *)
Lemma num_sub_not_positive (x y : number) :
  num_le x y = true -> not_positive (num_sub x y).
Proof.
  unfold not_positive.
  destruct x as [|[|]|a], y as [|[|]|b]; try (simpl; congruence).
  intros H. unfold num_le in H. apply Qle_bool_iff in H.
  apply fl_nonpos. lra.
Qed.

(** Scaling by a positive side keeps what is not positive so. *)
Lemma not_positive_scaled (x : number) (side : Z) :
  0 < side -> not_positive x -> not_positive (num_mul x (of_Z side)).
Proof.
  unfold not_positive. intros Hs.
  assert (Hside : (0 < inject_Z side)%Q)
    by (change 0%Q with (inject_Z 0); now rewrite <- Zlt_Qlt).
  destruct x as [|[|]|a]; try (simpl; congruence).
  - intros _. cbn [num_mul of_Z]. unfold inf_times.
    destruct (Qcompare_spec (inject_Z side) 0); try reflexivity; lra.
  - intros H. unfold num_lt, zero, of_Z in H.
    apply negb_false_iff in H. apply Qle_bool_iff in H.
    change (inject_Z 0) with 0%Q in H.
    apply fl_nonpos.
    setoid_replace 0%Q with (0 * inject_Z side)%Q by ring.
    apply Qmult_le_compat_r; [exact H | lra].
Qed.

Lemma Math_max_zero_cases (x : number) :
  Math_max zero x = NaN \/ Math_max zero x = Inf false
  \/ exists a, Math_max zero x = Fin a /\ (0 <= a)%Q.
Proof.
  destruct x as [|[|]|q].
  - now left.
  - right. right. exists 0%Q. split; [reflexivity | lra].
  - right. now left.
  - right. right. unfold Math_max, zero, of_Z.
    destruct (num_le (Fin (inject_Z 0)) (Fin q)) eqn:E.
    + exists q. split; [reflexivity|].
      unfold num_le in E. now apply Qle_bool_iff in E.
    + exists (inject_Z 0). split; [reflexivity | apply Qle_refl].
Qed.

(** One axis of the clamp never turns a side that is not positive into a
    positive one. *)
Lemma clamp_axis_empty (l w : number) (side : Z) :
  Z.abs side <= 2 ^ 53 -> not_positive w ->
  not_positive
    (if num_lt (of_Z side) (num_add (Math_max zero l) w)
     then num_sub (of_Z side) (Math_max zero l) else w).
Proof.
  intros Hside Hw.
  destruct (num_lt (of_Z side) (num_add (Math_max zero l) w)) eqn:Htest;
    [|exact Hw].
  destruct (Math_max_zero_cases l) as [E | [E | (a & E & Ha)]];
    rewrite E in *.
  - discriminate Htest.
  - reflexivity.
  - unfold not_positive in Hw.
    destruct w as [|[|]|b]; try discriminate.
    unfold num_lt, zero, of_Z in Hw.
    apply negb_false_iff in Hw. apply Qle_bool_iff in Hw.
    change (inject_Z 0) with 0%Q in Hw.
    cbn [num_add] in Htest. cbn [num_sub of_Z].
    apply fl_nonpos.
    destruct (Qlt_le_dec a (inject_Z side)) as [Hin | Hout]; [|lra].
    exfalso.
    assert (L : (a + b <= inject_Z side)%Q) by lra.
    pose proof (fl_le _ _ L) as Hfl. rewrite fl_Z in Hfl by exact Hside.
    apply num_le_lt in Hfl. congruence.
Qed.

(** Clamping never turns an empty side into a positive one. *)
Lemma clampRect_keeps_empty (mw mh : Z) (r : Rect) :
  Z.abs mw <= 2 ^ 53 -> Z.abs mh <= 2 ^ 53 ->
  not_positive (rwidth r) \/ not_positive (rheight r) ->
  not_positive (rwidth (clampRect mw mh r))
  \/ not_positive (rheight (clampRect mw mh r)).
Proof.
  intros Hw Hh [H | H]; [left | right]; unfold clampRect;
    cbn [rwidth rheight]; now apply clamp_axis_empty.
Qed.

(** A rectangle without area is never cropped: when x2 <= x1 or y2 <= y1 in
    [focus_xyxy], or a half-extent of [focal_point] is <= 0, there is no
    rectangle in either mode and the image is passed on as it is. The
    numbers are any binary64 values, the infinities included; the
    comparisons are those of the language (false on NaN). *)
Theorem empty_region_not_cropped (md : Metadata) (mw mh : Z) :
  truthy_num (width md) = Some mw ->
  truthy_num (height md) = Some mh ->
  0 < mw < 2 ^ 53 -> 0 < mh < 2 ^ 53 ->
  (forall x1 y1 x2 y2 fp,
     num_le x2 x1 = true \/ num_le y2 y1 = true ->
     focusRect md (Some [x1; y1; x2; y2]) fp = None)
  /\ (forall fx cx cy hw hh,
        has4 fx = false ->
        num_le hw zero = true \/ num_le hh zero = true ->
        focusRect md fx (Some [cx; cy; hw; hh]) = None).
Proof.
  intros Hw Hh Hpw Hph.
  assert (Hzero : forall x, num_le x zero = true -> not_positive x)
    by (intros x; apply num_le_lt).
  split.
  - intros x1 y1 x2 y2 fp Hempty.
    assert (Hraw : exists raw,
               rawRect mw mh (Some [x1; y1; x2; y2]) fp = Some raw
               /\ (not_positive (rwidth raw) \/ not_positive (rheight raw))).
    { unfold rawRect. destruct (isRatio [x1; y1; x2; y2]);
        eexists; (split; [reflexivity|]); cbn [rwidth rheight];
        (destruct Hempty as [H | H]; [left | right]);
        apply Math_round_not_positive;
        try (apply not_positive_scaled; [lia|]);
        now apply num_sub_not_positive. }
    destruct Hraw as (raw & Hraw & Hside).
    apply (focusRect_empty md _ fp Hw Hh Hraw).
    apply clampRect_keeps_empty; [lia | lia | exact Hside].
  - intros fx cx cy hw hh Hx Hempty.
    assert (Hraw : exists raw,
               rawRect mw mh fx (Some [cx; cy; hw; hh]) = Some raw
               /\ (not_positive (rwidth raw) \/ not_positive (rheight raw))).
    { rewrite (rawRect_skip mw mh fx _ Hx). unfold rawRect.
      destruct (isRatio [cx; cy; hw; hh]);
        eexists; (split; [reflexivity|]); cbn [rwidth rheight];
        (destruct Hempty as [H | H]; [left | right]);
        apply Math_round_not_positive;
        (apply (@not_positive_scaled _ 2); [lia|]);
        try (apply not_positive_scaled; [lia|]);
        now apply Hzero. }
    destruct Hraw as (raw & Hraw & Hside).
    apply (focusRect_empty md fx _ Hw Hh Hraw).
    apply clampRect_keeps_empty; [lia | lia | exact Hside].
Qed.

(** The inverted rectangle [60, 60, 10, 10] is not cropped. *)
Lemma empty_region_not_cropped_witness :
  focusRect (mkMetadata (Some 100) (Some 100) None)
    (Some [of_Z 60; of_Z 60; of_Z 10; of_Z 10]) None = None.
Proof.
  apply (proj1 (@empty_region_not_cropped
                  (mkMetadata (Some 100) (Some 100) None) 100 100
                  eq_refl eq_refl ltac:(lia) ltac:(lia))).
  left. reflexivity.
Defined.

(* ================================================================== *)
(** * Further properties of the response *)

Lemma uniform_error (msg : jsstring) : uniform (error_response msg).
Proof. left. now exists msg. Qed.

Lemma answers_bind {A} (m : Except A) (k : A -> Except McpToolResponse) :
  (forall a, answers_uniformly (k a)) -> answers_uniformly (bind m k).
Proof.
  intros H. destruct m as [a|e]; simpl; [apply H | exact I].
Qed.

Lemma answers_run (m : Except McpToolResponse) :
  answers_uniformly m -> uniform (run m).
Proof.
  destruct m as [r|e]; simpl; [trivial|]. intros _. apply uniform_error.
Qed.

Lemma processImageBuffer_answers (W : World) (cfg : Config)
    (p : ProcessImageBufferParams) :
  answers_uniformly (processImageBuffer W cfg p).
Proof.
  destruct (processImageBuffer W cfg p) as [r|e] eqn:Hr; simpl; [|exact I].
  destruct (processImageBuffer_ret _ _ _ Hr) as (md0 & st & _ & ->).
  destruct (compressAndAssemble_success W cfg p (or_zero (width md0))
              (or_zero (height md0)) st) as [meta Hok].
  right. eauto.
Qed.

Lemma render_and_process_answers (W : World) (cfg : Config)
    (input : jsstring) (page : Z) (fx fp : option (list number)) :
  answers_uniformly (PdfUtils.render_and_process W cfg input page fx fp).
Proof.
  unfold PdfUtils.render_and_process. apply answers_bind. intros [b n].
  apply processImageBuffer_answers.
Qed.

Lemma processPdf_answers (W : World) (cfg : Config) (input : jsstring)
    (p : ReadVisual.ReadVisualParams) :
  answers_uniformly (ReadVisual.processPdf W cfg input p).
Proof.
  unfold ReadVisual.processPdf. apply answers_bind. intros [b n].
  apply processImageBuffer_answers.
Qed.

(** Every entry point answers in one of two shapes, whatever the input and
    whatever the collaborators do: an error result (one text part, error
    flag set) or a successful result (a metadata part and an image part, no
    error flag). Nothing is thrown past an entry point. *)
Theorem entry_points_answer_uniformly (W : World) (cfg : Config) :
  (forall p, uniform (extractImageFromFile W cfg p))
  /\ (forall p, uniform (extractImageFromUrl W cfg p))
  /\ (forall p, uniform (extractImageFromBase64 W cfg p))
  /\ (forall p, uniform (PdfUtils.extractPdfFromFile W cfg p))
  /\ (forall p, uniform (PdfUtils.extractPdfFromUrl W cfg p))
  /\ (forall p, uniform (PdfUtils.extractPdfFromBase64 W cfg p))
  /\ (forall p, uniform (ReadVisual.readVisual W cfg p)).
Proof.
  repeat split; intros p; apply answers_run;
    unfold extractImageFromFile, extractImageFromUrl, extractImageFromBase64,
      PdfUtils.extractPdfFromFile, PdfUtils.extractPdfFromUrl,
      PdfUtils.extractPdfFromBase64, ReadVisual.handleFile,
      ReadVisual.handleUrl, ReadVisual.handleBase64, ReadVisual.processImage,
      size_error;
    cbv zeta;
    repeat first
      [ exact I
      | apply uniform_error
      | apply processImageBuffer_answers
      | apply render_and_process_answers
      | apply processPdf_answers
      | apply answers_bind; intros ?
      | match goal with
        | |- answers_uniformly (Ret _) => unfold answers_uniformly
        | |- answers_uniformly (if ?c then _ else _) => destruct c
        | |- answers_uniformly (match ?x with _ => _ end) => destruct x
        end ].
Qed.

Lemma processImageBuffer_reaches (W : World) (cfg : Config)
    (p : ProcessImageBufferParams) (md0 : Metadata) (st : Stage) :
  reaches_compression W cfg p md0 st ->
  processImageBuffer W cfg p
  = Ret (compressAndAssemble W cfg p (or_zero (width md0))
                             (or_zero (height md0)) st).
Proof.
  intros (Hmd0 & st1 & Hfocus & Hresize). unfold processImageBuffer.
  rewrite Hmd0. unfold bind at 1. rewrite Hfocus. unfold bind at 1.
  now rewrite Hresize.
Qed.


(** The advisory note: [info] is present in the metadata exactly when the
    original image has more than 300000 pixels and neither region parameter
    was supplied (an array of any length counts as supplied); the note
    changes nothing else in the result. *)
Theorem large_image_note (W : World) (cfg : Config)
    (p : ProcessImageBufferParams) (md0 : Metadata) (st : Stage) :
  reaches_compression W cfg p md0 st ->
  lacks (extra_fields (pib_extraMetadata p)) (lit "info") ->
  let originalWidth := or_zero (width md0) in
  let originalHeight := or_zero (height md0) in
  exists meta,
    metadata_of (run (processImageBuffer W cfg p)) = Some meta
    /\ (300000 < originalWidth * originalHeight
        /\ pib_focus_xyxy p = None /\ pib_focal_point p = None ->
        obj_get meta (lit "info")
        = Some (JString (large_image_info W originalWidth originalHeight)))
    /\ (originalWidth * originalHeight <= 300000
        \/ pib_focus_xyxy p <> None \/ pib_focal_point p <> None ->
        obj_get meta (lit "info") = None).
Proof.
  intros Hreach Hinfo ow oh. subst ow oh.
  rewrite (processImageBuffer_reaches Hreach). destruct st as [b2 m2].
  unfold run, catch_, compressAndAssemble, assemble, metadata_of.
  cbn [content]. fold (extra_fields (pib_extraMetadata p)).
  eexists. split; [reflexivity|].
  destruct (Z.gtb_spec (or_zero (width md0) * or_zero (height md0)) 300000)
    as [Hbig | Hsmall].
  - destruct (pib_focus_xyxy p) as [fx|]; destruct (pib_focal_point p) as [fp|];
      simpl; split;
      try (intros (_ & H1 & H2); discriminate);
      try (intros _; now rewrite obj_get_spread_lacks by assumption).
    + intros _. apply obj_get_set_same.
    + intros [H | [H | H]]; [lia | contradiction | contradiction].
  - simpl. split.
    + intros (H & _). lia.
    + intros _. now rewrite obj_get_spread_lacks by assumption.
Qed.

(* ================================================================== *)
(** * Further properties of the guards *)

Lemma endsWith_spec (s p : jsstring) :
  endsWith s p = true <-> exists before, s = before ++ p.
Proof.
  unfold endsWith. rewrite startsWith_spec. split.
  - intros [rest Hr]. exists (rev rest).
    rewrite <- (rev_involutive s), Hr, rev_app_distr.
    now rewrite rev_involutive.
  - intros [before ->]. exists (rev before). apply rev_app_distr.
Qed.

(** The allow-list: with an empty list every URL passes and the URL is not
    even parsed; otherwise a URL passes exactly when its host name is an
    allowed domain or ends in a dot followed by an allowed domain, so that a
    host that merely ends in the letters of an allowed domain is refused. *)
Theorem validateDomain_spec (W : World) (cfg : Config) (u : jsstring) :
  (ALLOWED_DOMAINS cfg = [] -> validateDomain W cfg u = Ret None)
  /\ (forall host,
        ALLOWED_DOMAINS cfg <> [] ->
        URL_hostname W u = Ret host ->
        let allowed :=
          exists d, In d (ALLOWED_DOMAINS cfg)
                    /\ (host = d \/ exists sub, host = sub ++ ch_dot :: d) in
        (allowed -> validateDomain W cfg u = Ret None)
        /\ (~ allowed ->
            validateDomain W cfg u
            = Ret (Some (lit "Error: Domain " ++ host
                         ++ lit " is not in the allowed domains list")))).
Proof.
  split.
  - intros H. unfold validateDomain. now rewrite H.
  - intros host Hne Hhost allowed. subst allowed.
    unfold validateDomain. destruct (ALLOWED_DOMAINS cfg) as [|d0 ds] eqn:Hl;
      [contradiction|]. rewrite Hhost. cbn [bind].
    set (test := fun allowedDomain : jsstring =>
                   str_eqb host allowedDomain
                   || endsWith host (ch_dot :: allowedDomain)).
    assert (Htest : existsb test (d0 :: ds) = true
                    <-> exists d, In d (d0 :: ds)
                          /\ (host = d
                              \/ exists sub, host = sub ++ ch_dot :: d)).
    { rewrite existsb_exists. unfold test.
      split; intros (d & Hin & Hd); exists d; (split; [exact Hin|]).
      - apply orb_true_iff in Hd. rewrite str_eqb_eq, endsWith_spec in Hd.
        exact Hd.
      - apply orb_true_iff. rewrite str_eqb_eq, endsWith_spec. exact Hd. }
    destruct (existsb test (d0 :: ds)); simpl; split; intros H;
      try reflexivity.
    + exfalso. apply H. now apply Htest.
    + apply Htest in H. discriminate.
Qed.

(** With [example.com] allowed, [img.example.com] passes and
    [evilexample.com] is refused. *)
Lemma validateDomain_spec_witness :
  let cfg := mkConfig 52428800 [lit "example.com"] 512 512 80 9 150 in
  validateDomain Bench.world cfg (lit "https://img.example.com/a.png")
  = Ret None
  /\ validateDomain Bench.world cfg (lit "https://evilexample.com/a.png")
     = Ret (Some (lit "Error: Domain " ++ lit "evilexample.com"
                  ++ lit " is not in the allowed domains list")).
Proof.
  intros cfg. split.
  - apply (proj2 (validateDomain_spec Bench.world cfg
                    (lit "https://img.example.com/a.png"))
                 (lit "img.example.com")); [discriminate | reflexivity|].
    exists (lit "example.com"). split; [now left|].
    right. now exists (lit "img").
  - apply (proj2 (validateDomain_spec Bench.world cfg
                    (lit "https://evilexample.com/a.png"))
                 (lit "evilexample.com")); [discriminate | reflexivity|].
    intros (d & [<- | []] & [H | Hsub]); [discriminate|].
    apply endsWith_spec in Hsub. discriminate Hsub.
Defined.

Lemma success_not_error (msg meta : _) (data mimeType : jsstring) :
  ~ success (error_response msg) meta data mimeType.
Proof.
  unfold success. intros H. apply (f_equal isError) in H. discriminate H.
Qed.

Lemma success_not_thrown (e : jsstring) (meta : JsObject)
    (data mimeType : jsstring) :
  ~ success (run (Throw e)) meta data mimeType.
Proof. apply success_not_error. Qed.

Lemma gtb_false (a b : Z) : Z.gtb a b = false -> a <= b.
Proof. destruct (Z.gtb_spec a b); [discriminate | trivial]. Qed.

Lemma eqb_false_pos (b : Buffer) : Z.eqb (blength b) 0 = false -> 0 < blength b.
Proof.
  intros H. apply Z.eqb_neq in H. unfold blength in *. lia.
Qed.

(** No entry point that checks the size itself returns a successful result
    for a payload above [MAX_IMAGE_SIZE]: a success means that the file was
    read, the response received or the text decoded, and that the payload
    was within the limit (and, for inline data, not empty). *)
Theorem success_respects_size_limit (W : World) (cfg : Config)
    (meta : JsObject) (data mimeType : jsstring) :
  (forall p,
     success (extractImageFromFile W cfg p) meta data mimeType ->
     exists b, fs_readFileSync W (if_file_path p) = Ret b
               /\ blength b <= MAX_IMAGE_SIZE cfg)
  /\ (forall p,
        success (extractImageFromBase64 W cfg p) meta data mimeType ->
        0 < blength (Buffer_from_base64 W (ib_base64 p))
        <= MAX_IMAGE_SIZE cfg)
  /\ (forall p,
        success (PdfUtils.extractPdfFromFile W cfg p) meta data mimeType ->
        exists b, fs_readFileSync W (PdfUtils.pf_file_path p) = Ret b
                  /\ blength b <= MAX_IMAGE_SIZE cfg)
  /\ (forall p,
        success (PdfUtils.extractPdfFromUrl W cfg p) meta data mimeType ->
        exists response,
          axios_get W (PdfUtils.pu_url p) (MAX_IMAGE_SIZE cfg) = Ret response
          /\ blength (resp_data response) <= MAX_IMAGE_SIZE cfg)
  /\ (forall p,
        success (PdfUtils.extractPdfFromBase64 W cfg p) meta data mimeType ->
        0 < blength (Buffer_from_base64 W
                       (PdfUtils.cleanBase64 (PdfUtils.pb_base64 p)))
        <= MAX_IMAGE_SIZE cfg).
Proof.
  split; [|split; [|split; [|split]]]; intros p Hs;
    unfold extractImageFromFile, extractImageFromBase64,
      PdfUtils.extractPdfFromFile, PdfUtils.extractPdfFromUrl,
      PdfUtils.extractPdfFromBase64, size_error in Hs;
    cbv zeta in Hs;
    repeat match type of Hs with
           | success (error_response _) _ _ _ =>
               exfalso; exact (success_not_error Hs)
           | success (run (Throw _)) _ _ _ =>
               exfalso; exact (success_not_thrown Hs)
           | success (run (Ret (error_response _))) _ _ _ =>
               exfalso; exact (success_not_error Hs)
           | context [if ?c then _ else _] => destruct c eqn:?
           | context [bind ?m _] => destruct m eqn:?; cbn [bind] in Hs
           | context [match ?x with Some _ => _ | None => _ end] =>
               destruct x eqn:?
           end;
    eauto using gtb_false, eqb_false_pos.
Qed.

Lemma scheme_accepted (u : jsstring) :
  negb (startsWith u (lit "http://")) && negb (startsWith u (lit "https://"))
  = false ->
  startsWith u (lit "http://") = true \/ startsWith u (lit "https://") = true.
Proof.
  destruct (startsWith u (lit "http://")); [now left|].
  destruct (startsWith u (lit "https://")); [now right | discriminate].
Qed.

(** The URL entry points never return content from a URL they should not
    fetch: a successful result means the URL began with [http://] or
    [https://], the allow-list accepted it and the download returned. *)
Theorem url_success_guards (W : World) (cfg : Config)
    (meta : JsObject) (data mimeType : jsstring) :
  (forall p,
     success (extractImageFromUrl W cfg p) meta data mimeType ->
     (startsWith (iu_url p) (lit "http://") = true
      \/ startsWith (iu_url p) (lit "https://") = true)
     /\ validateDomain W cfg (iu_url p) = Ret None
     /\ exists response,
          axios_get W (iu_url p) (MAX_IMAGE_SIZE cfg) = Ret response)
  /\ (forall p,
        success (PdfUtils.extractPdfFromUrl W cfg p) meta data mimeType ->
        (startsWith (PdfUtils.pu_url p) (lit "http://") = true
         \/ startsWith (PdfUtils.pu_url p) (lit "https://") = true)
        /\ validateDomain W cfg (PdfUtils.pu_url p) = Ret None
        /\ exists response,
             axios_get W (PdfUtils.pu_url p) (MAX_IMAGE_SIZE cfg)
             = Ret response).
Proof.
  split; intros p Hs;
    unfold extractImageFromUrl, PdfUtils.extractPdfFromUrl in Hs;
    cbv zeta in Hs;
    repeat match type of Hs with
           | success (run (Throw _)) _ _ _ =>
               exfalso; exact (success_not_thrown Hs)
           | success (run (Ret (error_response _))) _ _ _ =>
               exfalso; exact (success_not_error Hs)
           | context [if negb ?a && negb ?b then _ else _] =>
               destruct (negb a && negb b) eqn:?
           | context [bind (validateDomain ?w ?c ?u) _] =>
               destruct (validateDomain w c u) as [[?|]|?] eqn:?;
               cbn [bind] in Hs
           | context [bind (axios_get ?w ?u ?n) _] =>
               destruct (axios_get w u n) eqn:?; cbn [bind] in Hs
           end;
    eauto using scheme_accepted.
Qed.

(** [readVisual] returns a successful result only after the checks of the
    handler of its source: the file exists, was read and is within the size
    limit; the URL passed the allow-list, the download returned and is
    within the limit; the inline text passed [isValidBase64] and decodes to
    a payload that is neither empty nor above the limit. *)
Theorem readVisual_success_guards (W : World) (cfg : Config)
    (p : ReadVisual.ReadVisualParams)
    (meta : JsObject) (data mimeType : jsstring) :
  success (ReadVisual.readVisual W cfg p) meta data mimeType ->
  match ReadVisual.detectSourceType W (ReadVisual.source p) with
  | ReadVisual.file =>
      fs_existsSync W (ReadVisual.source p) = true
      /\ exists b, fs_readFileSync W (ReadVisual.source p) = Ret b
                   /\ blength b <= MAX_IMAGE_SIZE cfg
  | ReadVisual.url =>
      validateDomain W cfg (ReadVisual.source p) = Ret None
      /\ exists response,
           axios_get W (ReadVisual.source p) (MAX_IMAGE_SIZE cfg)
           = Ret response
           /\ blength (resp_data response) <= MAX_IMAGE_SIZE cfg
  | ReadVisual.base64 =>
      exists base64Data mime,
        ReadVisual.base64_of_source p = Some (base64Data, mime)
        /\ ReadVisual.isValidBase64 base64Data = true
        /\ 0 < blength (Buffer_from_base64 W base64Data)
           <= MAX_IMAGE_SIZE cfg
  end.
Proof.
  intros Hs. unfold ReadVisual.readVisual in Hs.
  destruct (ReadVisual.detectSourceType W (ReadVisual.source p));
    unfold ReadVisual.handleUrl, ReadVisual.handleFile,
      ReadVisual.handleBase64, size_error in Hs;
    cbv zeta in Hs.
  - destruct (validateDomain W cfg (ReadVisual.source p)) as [[msg|]|e] eqn:Hd;
      cbn [bind] in Hs;
      [ exfalso; exact (success_not_error Hs) | | exfalso;
        exact (success_not_thrown Hs) ].
    destruct (axios_get W (ReadVisual.source p) (MAX_IMAGE_SIZE cfg))
      as [resp|e] eqn:Hget; cbn [bind] in Hs;
      [| exfalso; exact (success_not_thrown Hs)].
    destruct (Z.gtb (blength (resp_data resp)) (MAX_IMAGE_SIZE cfg)) eqn:Hsz;
      [exfalso; exact (success_not_error Hs)|].
    split; [reflexivity|]. exists resp.
    split; [reflexivity | now apply gtb_false].
  - destruct (fs_existsSync W (ReadVisual.source p)) eqn:Hex; cbn [negb] in Hs;
      [| exfalso; exact (success_not_error Hs)].
    destruct (fs_readFileSync W (ReadVisual.source p)) as [b|e] eqn:Hread;
      cbn [bind] in Hs; [| exfalso; exact (success_not_thrown Hs)].
    destruct (Z.gtb (blength b) (MAX_IMAGE_SIZE cfg)) eqn:Hsz;
      [exfalso; exact (success_not_error Hs)|].
    split; [reflexivity|]. exists b.
    split; [reflexivity | now apply gtb_false].
  - destruct (ReadVisual.base64_of_source p) as [[b64 mime]|] eqn:Hsrc;
      [| exfalso; exact (success_not_error Hs)].
    destruct (ReadVisual.isValidBase64 b64) eqn:Hv; cbn [negb] in Hs;
      [| exfalso; exact (success_not_error Hs)].
    destruct (Z.eqb (blength (Buffer_from_base64 W b64)) 0) eqn:Hz;
      [exfalso; exact (success_not_error Hs)|].
    destruct (Z.gtb (blength (Buffer_from_base64 W b64)) (MAX_IMAGE_SIZE cfg))
      eqn:Hsz; [exfalso; exact (success_not_error Hs)|].
    exists b64, mime. split; [reflexivity|]. split; [exact Hv|].
    split; [now apply eqb_false_pos | now apply gtb_false].
Qed.

Lemma lacks_nil (k : jsstring) : lacks [] k.
Proof. intros []. Qed.


(** A small image gets no note. *)
Lemma large_image_note_witness :
  let p := mkPIB (Bench.raster 8) (lit "png") (lit "image/png")
                 None None None in
  exists meta,
    metadata_of (run (processImageBuffer Bench.world default_config p))
    = Some meta
    /\ obj_get meta (lit "info") = None.
Proof.
  intros p.
  destruct (@large_image_note Bench.world default_config p
              (mkMetadata (Some 8) (Some 1) (Some (lit "raw")))
              (Bench.raster 8,
               mkMetadata (Some 8) (Some 1) (Some (lit "raw"))))
    as (meta & Hmeta & _ & Hnone).
  - split; [reflexivity|]. eexists. split; reflexivity.
  - apply lacks_nil.
  - exists meta. split; [exact Hmeta|]. apply Hnone. left. simpl. lia.
Defined.

(** [/photo.png] of the concrete world is returned: it was read and is
    within the limit. *)
Lemma success_respects_size_limit_witness :
  exists b, fs_readFileSync Bench.world (lit "/photo.png") = Ret b
            /\ blength b <= 52428800.
Proof.
  eapply (proj1 (success_respects_size_limit Bench.world default_config _ _ _)
                (mkImgFile (lit "/photo.png") true 512 512 None None)).
  unfold success. reflexivity.
Defined.

Lemma url_success_guards_witness :
  (startsWith (lit "https://example.com/a.png") (lit "http://") = true
   \/ startsWith (lit "https://example.com/a.png") (lit "https://") = true)
  /\ validateDomain online_world default_config
       (lit "https://example.com/a.png") = Ret None
  /\ exists response,
       axios_get online_world (lit "https://example.com/a.png") 52428800
       = Ret response.
Proof.
  eapply (proj1 (url_success_guards online_world default_config _ _ _)
                (mkImgUrl (lit "https://example.com/a.png")
                          true 512 512 None None)).
  unfold success. reflexivity.
Defined.

Lemma readVisual_success_guards_witness :
  fs_existsSync Bench.world (lit "/photo.png") = true
  /\ exists b, fs_readFileSync Bench.world (lit "/photo.png") = Ret b
               /\ blength b <= 52428800.
Proof.
  eapply (@readVisual_success_guards Bench.world default_config
            (ReadVisual.mkParams (lit "/photo.png") None None None None None)).
  unfold success. reflexivity.
Defined.

(* ================================================================== *)
(** * Further properties of the classifier and of inline data *)

Lemma readVisual_missing_file (W : World) (cfg : Config)
    (p : ReadVisual.ReadVisualParams) :
  ReadVisual.detectSourceType W (ReadVisual.source p) = ReadVisual.file ->
  fs_existsSync W (ReadVisual.source p) = false ->
  ReadVisual.readVisual W cfg p
  = error_response (lit "Error: File " ++ ReadVisual.source p
                    ++ lit " does not exist").
Proof.
  intros Hkind Hmissing. unfold ReadVisual.readVisual, ReadVisual.handleFile.
  rewrite Hkind, Hmissing. reflexivity.
Qed.

(** A file that does not exist is reported by every file entry point with
    the same message, which names the path; the file is not read. *)
Theorem missing_file_reported (W : World) (cfg : Config) (path : jsstring) :
  fs_existsSync W path = false ->
  let answer :=
    error_response (lit "Error: File " ++ path ++ lit " does not exist") in
  (forall r w h fx fp,
     extractImageFromFile W cfg (mkImgFile path r w h fx fp) = answer)
  /\ (forall page r w h fx fp,
        PdfUtils.extractPdfFromFile W cfg
          (PdfUtils.mkPdfFile path page r w h fx fp) = answer)
  /\ (forall p,
        ReadVisual.source p = path ->
        ReadVisual.detectSourceType W path = ReadVisual.file ->
        ReadVisual.readVisual W cfg p = answer)
  /\ includes (lit "Error: File " ++ path ++ lit " does not exist") path
  /\ includes (lit "Error: File " ++ path ++ lit " does not exist")
              (lit "does not exist").
Proof.
  intros Hmissing answer. subst answer. repeat split.
  - intros. unfold extractImageFromFile. cbn [if_file_path].
    now rewrite Hmissing.
  - intros. unfold PdfUtils.extractPdfFromFile. cbn [PdfUtils.pf_file_path].
    now rewrite Hmissing.
  - intros p Hsrc Hkind. subst path.
    now apply readVisual_missing_file.
  - now exists (lit "Error: File "), (lit " does not exist").
  - exists (lit "Error: File " ++ path ++ lit " "), [].
    now rewrite <- !app_assoc.
Qed.

(** Scenario E and test 2 of the manual PDF tests. *)
Lemma missing_file_reported_witness :
  PdfUtils.extractPdfFromFile Bench.world default_config
    (PdfUtils.mkPdfFile (lit "/path/to/nonexistent.pdf") 1 true 512 512
                        None None)
  = error_response
      (lit "Error: File /path/to/nonexistent.pdf does not exist").
Proof.
  apply (proj1 (proj2 (@missing_file_reported Bench.world default_config
                         (lit "/path/to/nonexistent.pdf") eq_refl))).
Defined.

(** Text that begins with [/] is always taken for a path, also when it is
    well-formed base64 (the base64 of a JPEG begins with [/9j/]): unless a
    file of that name exists, [readVisual] answers that the file does not
    exist. *)
Theorem slash_leading_text_is_a_path (W : World) (cfg : Config)
    (p : ReadVisual.ReadVisualParams) :
  startsWith (ReadVisual.source p) (lit "/") = true ->
  ReadVisual.detectSourceType W (ReadVisual.source p) = ReadVisual.file
  /\ (fs_existsSync W (ReadVisual.source p) = false ->
      ReadVisual.readVisual W cfg p
      = error_response (lit "Error: File " ++ ReadVisual.source p
                        ++ lit " does not exist")).
Proof.
  intros Hslash.
  assert (Hkind : ReadVisual.detectSourceType W (ReadVisual.source p)
                  = ReadVisual.file).
  { unfold ReadVisual.detectSourceType.
    rewrite isFilePath_eq, Hslash, orb_true_r.
    apply startsWith_spec in Hslash. destruct Hslash as [rest ->].
    cbn. now destruct (fs_existsSync W _). }
  split; [exact Hkind|].
  intros Hmissing.
  now apply readVisual_missing_file.
Qed.

(** Well-formed base64 of 100 characters that begins like a JPEG. *)
Lemma slash_leading_text_is_a_path_witness :
  let jpeg := lit "/9j/4AAQSkZJRgABAQAAAQABAAD/2wBDAAgGBgcGBQgHBwcJCQgKDBQNDAsLDBkSEw8UHRofHh0aHBwgJC4nICIsIxwcKDcpLDAx" in
  ReadVisual.isValidBase64 jpeg = true
  /\ ReadVisual.readVisual Bench.world default_config
       (ReadVisual.mkParams jpeg None None None None None)
     = error_response (lit "Error: File " ++ jpeg ++ lit " does not exist").
Proof.
  intros jpeg. split; [reflexivity|].
  apply (proj2 (@slash_leading_text_is_a_path Bench.world default_config
                  (ReadVisual.mkParams jpeg None None None None None)
                  eq_refl)).
  reflexivity.
Defined.

(** Text is classified as inline data only when it begins with [data:] or
    has at least 100 characters and passes [isValidBase64]: short text is
    never taken for base64. *)
Theorem base64_detection_needs_100 (W : World) (s : jsstring) :
  ReadVisual.detectSourceType W s = ReadVisual.base64 ->
  startsWith s (lit "data:") = true
  \/ (100 <= Js.length s /\ ReadVisual.isValidBase64 s = true
      /\ ReadVisual.isFilePath s = false).
Proof.
  unfold ReadVisual.detectSourceType.
  destruct (startsWith s (lit "http://") || startsWith s (lit "https://"));
    [discriminate|].
  destruct (startsWith s (lit "data:")); [now left|].
  destruct (ReadVisual.isFilePath s);
    [destruct (fs_existsSync W s); discriminate|].
  destruct (ReadVisual.isValidBase64 s) eqn:Hv; [|discriminate].
  intros _. right. split; [|now split].
  unfold ReadVisual.isValidBase64 in Hv.
  destruct (Z.ltb_spec (Js.length s) 100); [discriminate | assumption].
Qed.

Lemma base64_detection_needs_100_witness :
  100 <= Js.length (lit "YWFhYWFhYWFhYWFhYWFhYWFhYWFhYWFhYWFhYWFhYWFhYWFhYWFhYWFhYWFhYWFhYWFhYWFhYWFhYWFhYWFhYWFhYWFhYWFhYWFhYWFhYWFhYWFhYWFhYWFhYWFhYWFhYWFhYQ==").
Proof.
  destruct (@base64_detection_needs_100 Bench.world
              (lit "YWFhYWFhYWFhYWFhYWFhYWFhYWFhYWFhYWFhYWFhYWFhYWFhYWFhYWFhYWFhYWFhYWFhYWFhYWFhYWFhYWFhYWFhYWFhYWFhYWFhYWFhYWFhYWFhYWFhYWFhYWFhYWFhYWFhYQ==")
              eq_refl) as [H | [H _]]; [discriminate H | exact H].
Defined.

(** [readVisual] refuses inline data of fewer than 100 characters as invalid
    base64, however well-formed: the payload of a data URL, and raw text once
    its white space is stripped (raw text is classified on its length before
    stripping and validated on its length after). *)
Theorem inline_payload_needs_100_characters (W : World) (cfg : Config)
    (p : ReadVisual.ReadVisualParams) :
  let refused := error_response (lit "Error: Invalid base64 string") in
  (forall mime payload,
     ReadVisual.parseDataUrl (ReadVisual.source p) = Some (mime, payload) ->
     Js.length payload < 100 ->
     ReadVisual.readVisual W cfg p = refused)
  /\ (startsWith (ReadVisual.source p) (lit "data:") = false ->
      ReadVisual.detectSourceType W (ReadVisual.source p)
      = ReadVisual.base64 ->
      Js.length (strip_whitespace (ReadVisual.source p)) < 100 ->
      ReadVisual.readVisual W cfg p = refused).
Proof.
  intros refused. subst refused.
  assert (Hshort : forall t, Js.length t < 100 ->
                     ReadVisual.isValidBase64 t = false).
  { intros t Ht. unfold ReadVisual.isValidBase64.
    destruct (Z.ltb_spec (Js.length t) 100); [reflexivity | lia]. }
  split.
  - intros mime payload Hparse Hlen.
    assert (Hdata : startsWith (ReadVisual.source p) (lit "data:") = true).
    { unfold ReadVisual.parseDataUrl in Hparse.
      destruct (startsWith (ReadVisual.source p) (lit "data:"));
        [reflexivity | discriminate]. }
    unfold ReadVisual.readVisual.
    rewrite (proj2 (url_and_data_prefixes W (ReadVisual.source p)) Hdata).
    unfold ReadVisual.handleBase64, ReadVisual.base64_of_source.
    cbv zeta. rewrite Hdata, Hparse, (Hshort payload Hlen). reflexivity.
  - intros Hraw Hkind Hlen. unfold ReadVisual.readVisual. rewrite Hkind.
    unfold ReadVisual.handleBase64, ReadVisual.base64_of_source.
    cbv zeta. rewrite Hraw, (Hshort _ Hlen). reflexivity.
Qed.

(** The data URL of the classifier tests is refused. *)
Lemma inline_payload_needs_100_characters_witness :
  ReadVisual.readVisual Bench.world default_config
    (ReadVisual.mkParams (lit "data:image/png;base64,iVBORw0KGgo=")
                         None None None None None)
  = error_response (lit "Error: Invalid base64 string").
Proof.
  apply (proj1 (@inline_payload_needs_100_characters Bench.world
                  default_config
                  (ReadVisual.mkParams
                     (lit "data:image/png;base64,iVBORw0KGgo=")
                     None None None None None))
               (lit "image/png") (lit "iVBORw0KGgo=")).
  - reflexivity.
  - unfold Js.length. simpl. lia.
Defined.

Lemma strip_whitespace_idempotent (s : jsstring) :
  strip_whitespace (strip_whitespace s) = strip_whitespace s.
Proof.
  unfold strip_whitespace. induction s as [|c s IH]; simpl; [reflexivity|].
  destruct (is_space c) eqn:Hc; simpl; [exact IH|].
  now rewrite Hc, IH.
Qed.

Lemma strip_whitespace_clean (s : jsstring) :
  forallb (fun c => negb (is_space c)) (strip_whitespace s) = true.
Proof.
  unfold strip_whitespace. induction s as [|c s IH]; simpl; [reflexivity|].
  destruct (is_space c) eqn:Hc; simpl; [exact IH|]. now rewrite Hc.
Qed.

(** The validator of read-visual.ts is the validator of pdf-utils.ts with a
    minimum length of 100 characters (counted before white space is
    stripped). *)
Theorem validators_agree (s : jsstring) :
  ReadVisual.isValidBase64 s
  = Z.leb 100 (Js.length s) && PdfUtils.isValidBase64 s.
Proof.
  unfold ReadVisual.isValidBase64, PdfUtils.isValidBase64,
    PdfUtils.cleanBase64.
  destruct (Z.ltb_spec (Js.length s) 100) as [Hlt|Hge];
    destruct (Z.leb_spec 100 (Js.length s)) as [Hle|Hgt];
    try (exfalso; lia); try reflexivity.
  simpl.
  destruct (Z.eqb_spec (Js.length (strip_whitespace s)) 0) as [Hz|Hz];
    [|reflexivity].
  rewrite Hz. simpl.
  destruct (strip_whitespace s); [reflexivity|].
  unfold Js.length in Hz. simpl in Hz. lia.
Qed.

(** What the validator of pdf-utils.ts accepts: text that, once its white
    space is removed, consists of one or more characters of the base64
    alphabet followed by at most two [=], with a total length that is a
    multiple of 4. White space anywhere in the text does not matter, and
    text that is empty or all white space is refused. *)
Theorem pdf_isValidBase64_spec (s : jsstring) :
  (PdfUtils.isValidBase64 s = true
   <-> exists body pad,
         strip_whitespace s = body ++ pad
         /\ body <> [] /\ forallb ReadVisual.is_b64 body = true
         /\ (pad = [] \/ pad = [ch_equals] \/ pad = [ch_equals; ch_equals])
         /\ Js.length (body ++ pad) mod 4 = 0)
  /\ PdfUtils.isValidBase64 (PdfUtils.cleanBase64 s)
     = PdfUtils.isValidBase64 s
  /\ (strip_whitespace s = [] -> PdfUtils.isValidBase64 s = false).
Proof.
  unfold PdfUtils.isValidBase64, PdfUtils.cleanBase64.
  split; [|split].
  - destruct (Z.eqb_spec (Js.length (strip_whitespace s)) 0) as [Hz|Hz].
    + split; [discriminate|].
      intros (body & pad & E & Hne & _). rewrite E in Hz.
      destruct body; [contradiction|]. unfold Js.length in Hz.
      simpl in Hz. lia.
    + destruct (Z.eqb_spec (Js.length (strip_whitespace s) mod 4) 0)
        as [Hm|Hm]; simpl.
      * rewrite b64_regex_spec. split.
        -- intros (body & pad & E & H). exists body, pad.
           rewrite <- E. tauto.
        -- intros (body & pad & E & H). exists body, pad. tauto.
      * split; [discriminate|].
        intros (body & pad & E & _ & _ & _ & H). rewrite E in Hm.
        contradiction.
  - now rewrite strip_whitespace_idempotent.
  - intros ->. reflexivity.
Qed.

(** [parseDataUrl] accepts exactly the strings
    [data:<mime>;base64,<payload>] with a non-empty [mime] free of [;] and a
    non-empty [payload] free of line terminators, and returns these two
    parts: parsing and rebuilding are inverse. *)
Theorem parseDataUrl_spec (s mime payload : jsstring) :
  ReadVisual.parseDataUrl s = Some (mime, payload)
  <-> s = lit "data:" ++ mime ++ lit ";base64," ++ payload
      /\ mime <> []
      /\ forallb (fun c => negb (N.eqb c ch_semicolon)) mime = true
      /\ payload <> []
      /\ forallb (fun c => negb (is_line_terminator c)) payload = true.
Proof.
  unfold ReadVisual.parseDataUrl. split.
  - destruct (startsWith s (lit "data:")) eqn:Hd; [|discriminate].
    apply startsWith_spec in Hd. destruct Hd as [rest ->].
    change (skipn 5 (lit "data:" ++ rest)) with rest.
    pose proof (span_app (fun c => negb (N.eqb c ch_semicolon)) rest) as Happ.
    pose proof (span_all (fun c => negb (N.eqb c ch_semicolon)) rest) as Hall.
    destruct (span (fun c => negb (N.eqb c ch_semicolon)) rest) as [m tail].
    simpl in Happ, Hall.
    destruct m as [|c m]; [discriminate|].
    destruct (startsWith tail (lit ";base64,")) eqn:Hb; [|discriminate].
    apply startsWith_spec in Hb. destruct Hb as [pl ->].
    change (skipn 8 (lit ";base64," ++ pl)) with pl.
    destruct (truthy_str pl) eqn:Hpl; [|discriminate].
    destruct (forallb (fun c0 => negb (is_line_terminator c0)) pl) eqn:Hlt;
      [|discriminate].
    simpl. intros E. injection E as <- <-.
    rewrite <- Happ.
    repeat split; try assumption; try discriminate.
    destruct pl; [discriminate Hpl | discriminate].
  - intros (-> & Hm & Hall & Hp & Hlt).
    change (startsWith (lit "data:" ++ mime ++ lit ";base64," ++ payload)
                       (lit "data:")) with true.
    cbv iota.
    change (skipn 5 (lit "data:" ++ mime ++ lit ";base64," ++ payload))
      with (mime ++ lit ";base64," ++ payload).
    rewrite (span_unique (fun c : char16 => negb (N.eqb c ch_semicolon))
               mime (lit ";base64," ++ payload) Hall)
      by reflexivity.
    destruct mime as [|c mime]; [contradiction|].
    change (startsWith (lit ";base64," ++ payload) (lit ";base64,"))
      with true.
    cbv iota.
    change (skipn 8 (lit ";base64," ++ payload)) with payload.
    rewrite Hlt. destruct payload; [contradiction | reflexivity].
Qed.

Lemma parseDataUrl_spec_witness :
  ReadVisual.parseDataUrl
    (lit "data:" ++ lit "image/png" ++ lit ";base64," ++ lit "iVBORw0KGgo=")
  = Some (lit "image/png", lit "iVBORw0KGgo=").
Proof.
  apply (proj2 (parseDataUrl_spec _ (lit "image/png") (lit "iVBORw0KGgo="))).
  repeat split; try reflexivity; discriminate.
Defined.

(** Empty text is refused (test 9 of the manual PDF tests). *)
Lemma pdf_isValidBase64_spec_witness :
  PdfUtils.isValidBase64 (lit "") = false.
Proof.
  apply (proj2 (proj2 (pdf_isValidBase64_spec (lit "")))). reflexivity.
Defined.

(* ================================================================== *)
(** * Further properties of documents *)

Lemma isPdf_spec (b : Buffer) :
  ReadVisual.isPdf b = true <-> exists rest, b = pdf_signature ++ rest.
Proof.
  unfold ReadVisual.isPdf, pdf_signature. split.
  - intros H. apply andb_true_iff in H. destruct H as [_ H].
    destruct (list_eq_dec byte_eq_dec (firstn 5 b) [x25; x50; x44; x46; x2d])
      as [E|]; [|discriminate].
    exists (skipn 5 b). rewrite <- E. symmetry. apply firstn_skipn.
  - intros [rest ->]. apply andb_true_iff. split.
    + unfold blength. rewrite length_app. cbn [Datatypes.length].
      apply Z.geb_le. lia.
    + simpl firstn.
      now destruct (list_eq_dec byte_eq_dec [x25; x50; x44; x46; x2d]
                                [x25; x50; x44; x46; x2d]).
Qed.

(** The signature decides: an existing file within the size limit whose
    bytes begin with [%PDF-] is rendered as a document by [readVisual],
    whatever its extension. *)
Theorem pdf_signature_decides (W : World) (cfg : Config)
    (p : ReadVisual.ReadVisualParams) (rest : Buffer) :
  ReadVisual.detectSourceType W (ReadVisual.source p) = ReadVisual.file ->
  fs_existsSync W (ReadVisual.source p) = true ->
  fs_readFileSync W (ReadVisual.source p) = Ret (pdf_signature ++ rest) ->
  blength (pdf_signature ++ rest) <= MAX_IMAGE_SIZE cfg ->
  ReadVisual.readVisual W cfg p
  = run (ReadVisual.processPdf W cfg (ReadVisual.source p) p).
Proof.
  intros Hkind Hex Hread Hsize. apply readVisual_document.
  apply (document_file W cfg p Hkind Hex Hread Hsize).
  rewrite (proj2 (isPdf_spec (pdf_signature ++ rest))) by now exists rest.
  apply orb_true_r.
Qed.

(** Page 5 of [/doc.pdf], which has three pages, is refused by the
    renderer: the file was taken for a document. *)
Lemma pdf_signature_decides_witness :
  ReadVisual.readVisual Bench.world default_config
    (ReadVisual.mkParams (lit "/doc.pdf") (Some 5) None None None None)
  = error_response (lit "Error: " ++ ReadVisual.out_of_range 5 3).
Proof.
  rewrite (@pdf_signature_decides Bench.world default_config
             (ReadVisual.mkParams (lit "/doc.pdf") (Some 5)
                                  None None None None)
             [x31; x2e; x37] eq_refl eq_refl eq_refl);
    [reflexivity | unfold blength; simpl; lia].
Defined.

(** The scale at which pdf-utils.ts opens a document is positive for every
    configured [PDF_DPI]: the configured value over 72 when that is
    positive, 150 / 72 otherwise. *)
Theorem PDF_SCALE_positive (cfg : Config) :
  (0 < PdfUtils.PDF_SCALE cfg)%Q
  /\ (0 < PDF_DPI cfg ->
      (PdfUtils.PDF_SCALE cfg == inject_Z (PDF_DPI cfg) / 72)%Q)
  /\ (PDF_DPI cfg <= 0 -> (PdfUtils.PDF_SCALE cfg == 150 / 72)%Q).
Proof.
  unfold PdfUtils.PDF_SCALE.
  destruct (Z.gtb_spec (PDF_DPI cfg) 0) as [Hpos|Hnon].
  - split; [|split; [reflexivity | lia]].
    unfold Qlt, Qdiv, Qmult, Qinv, inject_Z. simpl. lia.
  - split; [reflexivity|]. split; [lia | reflexivity].
Qed.

Lemma PDF_SCALE_positive_witness :
  (PdfUtils.PDF_SCALE (mkConfig 52428800 [] 512 512 80 9 (-5)) == 150 / 72)%Q.
Proof.
  apply (proj2 (proj2 (PDF_SCALE_positive
                         (mkConfig 52428800 [] 512 512 80 9 (-5))))).
  simpl. lia.
Defined.

(** The fields a page of a document adds to the metadata. *)
Lemma assemble_pdf_fields (W : World) (ow oh : Z) (hasFocus : bool)
    (page n dpi : Z) (mime : jsstring) (b : Buffer) (md : Metadata) :
  exists meta,
    metadata_of (assemble W ow oh hasFocus
                   (Some (ReadVisual.pdf_extraMetadata page n dpi)) mime b md)
    = Some meta
    /\ obj_get meta (lit "source") = Some (JString (lit "pdf"))
    /\ obj_get meta (lit "page") = Some (JNumber page)
    /\ obj_get meta (lit "totalPages") = Some (JNumber n)
    /\ obj_get meta (lit "dpi") = Some (JNumber dpi).
Proof.
  unfold assemble, metadata_of. cbn [content].
  destruct (Z.gtb (ow * oh) 300000 && negb hasFocus);
    eexists; (split; [reflexivity|]);
    rewrite ?obj_get_set_other by discriminate; repeat split; reflexivity.
Qed.

(** [extractPdfFromFile] on a file that exists and is within the size
    limit. A document that reports no page count (or zero pages) is an
    error; a page outside [1, n] is an error whose message names the page
    and [n]; a page inside the range that is rendered and processed is
    returned with [source], [page], [totalPages] and the configured [dpi]
    in its metadata. *)
Theorem extractPdfFromFile_pages (W : World) (cfg : Config)
    (p : PdfUtils.ExtractPdfFromFileParams) (b : Buffer) (doc : PdfDoc) :
  fs_existsSync W (PdfUtils.pf_file_path p) = true ->
  fs_readFileSync W (PdfUtils.pf_file_path p) = Ret b ->
  blength b <= MAX_IMAGE_SIZE cfg ->
  pdf W (PdfUtils.pf_file_path p) (PdfUtils.PDF_SCALE cfg) = Ret doc ->
  let page := PdfUtils.pf_page p in
  let r := PdfUtils.extractPdfFromFile W cfg p in
  (or_zero (doc_length doc) = 0 ->
   r = error_response (lit "Error: Failed to determine PDF page count"))
  /\ (forall n,
        doc_length doc = Some n -> n <> 0 ->
        (page < 1 \/ n < page ->
         exists msg,
           failure r msg
           /\ includes msg (String_of_Z page)
           /\ includes msg (String_of_Z n)
           /\ includes msg (lit "out of range"))
        /\ (1 <= page <= n ->
            forall pngBuffer answer,
              getPage doc page = Ret pngBuffer ->
              processImageBuffer W cfg
                (mkPIB pngBuffer (lit "png") (lit "image/png")
                       (PdfUtils.pf_focus_xyxy p) (PdfUtils.pf_focal_point p)
                       (Some (ReadVisual.pdf_extraMetadata page n
                                                           (PDF_DPI cfg))))
              = Ret answer ->
              r = answer
              /\ exists meta,
                   metadata_of answer = Some meta
                   /\ obj_get meta (lit "source") = Some (JString (lit "pdf"))
                   /\ obj_get meta (lit "page") = Some (JNumber page)
                   /\ obj_get meta (lit "totalPages") = Some (JNumber n)
                   /\ obj_get meta (lit "dpi")
                      = Some (JNumber (PDF_DPI cfg)))).
Proof.
  intros Hex Hread Hsize Hopen page r. subst page r.
  unfold PdfUtils.extractPdfFromFile. cbv zeta. rewrite Hex, Hread.
  cbn [negb bind].
  destruct (Z.gtb_spec (blength b) (MAX_IMAGE_SIZE cfg)); [lia|].
  unfold PdfUtils.render_and_process, PdfUtils.renderPdfPageFromInput.
  rewrite Hopen. cbn [bind]. split.
  - intros Hzero. rewrite Hzero. reflexivity.
  - intros n Hlen Hn. rewrite Hlen. cbn [or_zero].
    destruct (Z.eqb_spec n 0); [contradiction|]. split.
    + intros Hrange.
      assert (Hout : Z.ltb (PdfUtils.pf_page p) 1
                     || Z.gtb (PdfUtils.pf_page p) n = true).
      { apply orb_true_iff. destruct Hrange; [left | right].
        - now apply Z.ltb_lt.
        - apply Z.gtb_lt. lia. }
      rewrite Hout. cbn [bind].
      exists (lit "Error: " ++ ReadVisual.out_of_range (PdfUtils.pf_page p) n).
      split; [reflexivity|]. apply out_of_range_names_both.
    + intros Hrange png answer Hpage Hpipe.
      assert (Hin : Z.ltb (PdfUtils.pf_page p) 1
                    || Z.gtb (PdfUtils.pf_page p) n = false).
      { apply orb_false_iff. split.
        - apply Z.ltb_ge. lia.
        - destruct (Z.gtb_spec (PdfUtils.pf_page p) n); [lia | reflexivity]. }
      rewrite Hin, Hpage. cbn [bind]. rewrite Hpipe. split; [reflexivity|].
      destruct (processImageBuffer_ret _ _ _ Hpipe)
        as (md0 & [b2 m2] & _ & ->).
      unfold compressAndAssemble. cbn [pib_extraMetadata].
      apply assemble_pdf_fields.
Qed.

(** Tests 3 and 4 of the manual PDF tests, on the three pages of
    [/doc.pdf]: page 0 and page 9999 are out of range. *)
Lemma extractPdfFromFile_pages_witness :
  let request n :=
    PdfUtils.mkPdfFile (lit "/doc.pdf") n true 512 512 None None in
  (exists msg,
     failure (PdfUtils.extractPdfFromFile Bench.world default_config
                (request 0)) msg
     /\ includes msg (String_of_Z 0) /\ includes msg (String_of_Z 3)
     /\ includes msg (lit "out of range"))
  /\ (exists msg,
        failure (PdfUtils.extractPdfFromFile Bench.world default_config
                   (request 9999)) msg
        /\ includes msg (String_of_Z 9999) /\ includes msg (String_of_Z 3)
        /\ includes msg (lit "out of range")).
Proof.
  intros request. split.
  - apply (proj2 (@extractPdfFromFile_pages Bench.world default_config
                    (request 0) Bench.pdf_magic
                    (mkPdfDoc (Some 3) (fun _ => Ret (Bench.raster 600)))
                    eq_refl eq_refl
                    ltac:(unfold blength; simpl; lia) eq_refl)
                 3 eq_refl ltac:(lia)).
    left. simpl. lia.
  - apply (proj2 (@extractPdfFromFile_pages Bench.world default_config
                    (request 9999) Bench.pdf_magic
                    (mkPdfDoc (Some 3) (fun _ => Ret (Bench.raster 600)))
                    eq_refl eq_refl
                    ltac:(unfold blength; simpl; lia) eq_refl)
                 3 eq_refl ltac:(lia)).
    right. simpl. lia.
Defined.

(** [getMimeAndFormat] keeps the MIME type and the format in step: for
    every extension the MIME type is [image/] followed by the format, and
    the format is one that [compressImage] encodes ([png], [jpeg], [gif],
    [webp] or [avif]); an unknown extension is treated as JPEG. *)
Theorem getMimeAndFormat_consistent (fileExt : jsstring) :
  let (mimeType, format) := getMimeAndFormat fileExt in
  mimeType = lit "image/" ++ format
  /\ In format [lit "png"; lit "jpeg"; lit "gif"; lit "webp"; lit "avif"].
Proof.
  unfold getMimeAndFormat.
  repeat match goal with
         | |- context [if ?c then _ else _] => destruct c
         end;
    (split; [reflexivity | simpl; tauto]).
Qed.

(* ================================================================== *)
(** * Further properties of the pipeline as a whole *)



(** The unified entry point agrees with the file tools. For a file that
    exists and is within the size limit, [readVisual] returns what
    [extractImageFromFile] returns when the file is not a PDF (by extension
    or signature), and what [extractPdfFromFile] returns for the same page
    when it is one, no [dpi] is requested and the configured [PDF_DPI] is
    positive. *)
Theorem readVisual_agrees_with_file_tools (W : World) (cfg : Config)
    (p : ReadVisual.ReadVisualParams) (b : Buffer)
    (r : bool) (mw mh : Q) :
  ReadVisual.detectSourceType W (ReadVisual.source p) = ReadVisual.file ->
  fs_existsSync W (ReadVisual.source p) = true ->
  fs_readFileSync W (ReadVisual.source p) = Ret b ->
  blength b <= MAX_IMAGE_SIZE cfg ->
  (ReadVisual.isPdfByExtension W (ReadVisual.source p)
   || ReadVisual.isPdf b = false ->
   ReadVisual.readVisual W cfg p
   = extractImageFromFile W cfg
       (mkImgFile (ReadVisual.source p) r mw mh
                  (ReadVisual.focus_xyxy p) (ReadVisual.focal_point p)))
  /\ (ReadVisual.isPdfByExtension W (ReadVisual.source p)
      || ReadVisual.isPdf b = true ->
      ReadVisual.dpi p = None -> 0 < PDF_DPI cfg ->
      ReadVisual.readVisual W cfg p
      = PdfUtils.extractPdfFromFile W cfg
          (PdfUtils.mkPdfFile (ReadVisual.source p) (page_of p) r mw mh
                              (ReadVisual.focus_xyxy p)
                              (ReadVisual.focal_point p))).
Proof.
  intros Hkind Hex Hread Hsize.
  unfold ReadVisual.readVisual, ReadVisual.handleFile. rewrite Hkind.
  cbv zeta. rewrite Hex, Hread. cbn [negb bind].
  destruct (Z.gtb_spec (blength b) (MAX_IMAGE_SIZE cfg)); [lia|].
  split.
  - intros Himg. rewrite Himg.
    unfold extractImageFromFile. cbn [if_file_path if_focus_xyxy
                                       if_focal_point].
    rewrite Hex, Hread. cbn [negb bind].
    destruct (Z.gtb_spec (blength b) (MAX_IMAGE_SIZE cfg)); [lia|].
    reflexivity.
  - intros Hpdf Hdpi Hpos. rewrite Hpdf.
    unfold PdfUtils.extractPdfFromFile.
    cbn [PdfUtils.pf_file_path PdfUtils.pf_page PdfUtils.pf_focus_xyxy
         PdfUtils.pf_focal_point].
    rewrite Hex, Hread. cbn [negb bind].
    destruct (Z.gtb_spec (blength b) (MAX_IMAGE_SIZE cfg)); [lia|].
    unfold ReadVisual.processPdf, PdfUtils.render_and_process,
      ReadVisual.renderPdfPage, PdfUtils.renderPdfPageFromInput,
      PdfUtils.PDF_SCALE, page_of.
    rewrite Hdpi.
    destruct (Z.gtb_spec (PDF_DPI cfg) 0); [|lia].
    reflexivity.
Qed.

(** [/photo.png] through either entry point. *)
Lemma readVisual_agrees_with_file_tools_witness :
  ReadVisual.readVisual Bench.world default_config
    (ReadVisual.mkParams (lit "/photo.png") None None None None None)
  = extractImageFromFile Bench.world default_config
      (mkImgFile (lit "/photo.png") true 512 512 None None).
Proof.
  apply (proj1 (@readVisual_agrees_with_file_tools Bench.world default_config
                  (ReadVisual.mkParams (lit "/photo.png")
                                       None None None None None)
                  (Bench.raster 800) true 512 512
                  eq_refl eq_refl eq_refl
                  ltac:(unfold blength; simpl; lia))).
  reflexivity.
Defined.
